(** * QuickDeliver (Uganda): the route and cost estimation pipeline of style.js

    A shallow embedding of the delivery-request page script: the location
    store kept in the hidden form inputs, the Uganda bounds gate, the
    two-branch route computation (OpenRouteService, then the straight-line
    fallback), the pricing formulas, the haversine distance, the reverse
    lookup, the submit handler with its phone validation, and the toggles
    that open the map sections.

    Conventions of the embedding.
    - A JavaScript number is the real number it denotes, or [NaN]; there are
      no infinities and no signed zero, and arithmetic is exact.
    - A JavaScript string is a [string]; every [ascii] stands for one code
      unit below 256.
    - The document maps an element id to the value of the input, the text
      of the node and the display style; the view of a Leaflet map (centre,
      zoom, popups) and the label of a button are not kept.
    - Of the layers of a map only the route layer is kept, with the maps
      that list it and the map it points to.  Where Leaflet refuses a call
      (a container that already holds a map, a layer taken off a second
      map) the call raises, as the library does.
    - A handler is a computation in the monad [M]: it threads the page state
      and may raise, and the state mutated before a raise stays mutated.
    - An awaited call (fetch, reverse lookup) is a task in the page's job
      list; its continuation runs later, on the outcome the provider gave. *)

From Stdlib Require Import Reals Lra Lia ZArith NArith List String Ascii Bool.
From Stdlib Require Import Zfloor.
Import ListNotations.

Set Implicit Arguments.

(* ================================================================== *)
(** * Numbers *)
(* ================================================================== *)

Inductive number : Type :=
| Num (x : R)
| NaN.

Declare Scope js_scope.
Delimit Scope js_scope with js.

Module Number.

Definition lift1 (f : R -> R) (a : number) : number :=
  match a with
  | Num x => Num (f x)
  | NaN => NaN
  end.

Definition lift2 (f : R -> R -> R) (a b : number) : number :=
  match a, b with
  | Num x, Num y => Num (f x y)
  | _, _ => NaN
  end.

Definition add : number -> number -> number := lift2 Rplus.
Definition sub : number -> number -> number := lift2 Rminus.
Definition mul : number -> number -> number := lift2 Rmult.

(** [a / b].  A zero divisor would give an infinity (or NaN); the script
    divides by the literals 2, 60, 180 and 1000 only, and the model has no
    infinity, so a zero divisor yields [NaN]. *)
Definition div (a b : number) : number :=
  match a, b with
  | Num x, Num y => if Req_dec_T y 0 then NaN else Num (x / y)
  | _, _ => NaN
  end.

(** [a <= b] and [a >= b]; a comparison with NaN is false. *)
Definition leb (a b : number) : bool :=
  match a, b with
  | Num x, Num y => if Rle_dec x y then true else false
  | _, _ => false
  end.

Definition geb (a b : number) : bool := leb b a.

Definition isNaN (a : number) : bool :=
  match a with
  | NaN => true
  | Num _ => false
  end.

End Number.

Infix "+" := Number.add : js_scope.
Infix "-" := Number.sub : js_scope.
Infix "*" := Number.mul : js_scope.
Infix "/" := Number.div : js_scope.
Infix "<=?" := Number.leb : js_scope.
Infix ">=?" := Number.geb : js_scope.

(* ================================================================== *)
(** * The Math object *)
(* ================================================================== *)

Module Math.

Definition PI : number := Num Rtrigo1.PI.

(** [Math.round]: the nearest integer, a tie going up. *)
Definition round (a : number) : number :=
  match a with
  | Num x => Num (IZR (Zfloor (x + / 2)))
  | NaN => NaN
  end.

Definition sin : number -> number := Number.lift1 Rtrigo_def.sin.
Definition cos : number -> number := Number.lift1 Rtrigo_def.cos.

Definition sqrt (a : number) : number :=
  match a with
  | Num x => if Rlt_dec x 0 then NaN else Num (R_sqrt.sqrt x)
  | NaN => NaN
  end.

(** The angle of the point (x, y), in (-PI, PI]. *)
Definition atan2R (y x : R) : R :=
  if Rlt_dec 0 x then atan (y / x)
  else if Rlt_dec x 0 then
         (if Rle_dec 0 y then atan (y / x) + Rtrigo1.PI
          else atan (y / x) - Rtrigo1.PI)
  else if Rlt_dec 0 y then Rtrigo1.PI / 2
  else if Rlt_dec y 0 then - (Rtrigo1.PI / 2)
  else 0.

Definition atan2 : number -> number -> number := Number.lift2 atan2R.

End Math.

(* ================================================================== *)
(** * Strings *)
(* ================================================================== *)

Module Str.

Open Scope string_scope.

(** The characters [\s] matches and [trim] strips, among the code units
    below 256: tab, line feed, vertical tab, form feed, carriage return,
    space and the no-break space. *)
Definition isWhiteSpace (c : ascii) : bool :=
  let n := N_of_ascii c in
  ((9 <=? n) && (n <=? 13) || (n =? 32) || (n =? 160))%N.

Definition isDigit (c : ascii) : bool :=
  let n := N_of_ascii c in ((48 <=? n) && (n <=? 57))%N.

Definition digitValue (c : ascii) : N := (N_of_ascii c - 48)%N.

Definition digitChar (d : N) : ascii := ascii_of_N (48 + d).

Fixpoint trimStart (s : string) : string :=
  match s with
  | String c s' => if isWhiteSpace c then trimStart s' else s
  | EmptyString => EmptyString
  end.

Fixpoint trimEnd (s : string) : string :=
  match s with
  | EmptyString => EmptyString
  | String c s' =>
      match trimEnd s' with
      | EmptyString => if isWhiteSpace c then EmptyString else String c EmptyString
      | t => String c t
      end
  end.

Definition trim (s : string) : string := trimEnd (trimStart s).

(** [s.split(sep)] for a one-character separator. *)
Fixpoint split (sep : ascii) (s : string) : list string :=
  match s with
  | EmptyString => [EmptyString]
  | String c s' =>
      if Ascii.eqb c sep then EmptyString :: split sep s'
      else match split sep s' with
           | h :: t => String c h :: t
           | [] => [String c EmptyString]
           end
  end.

(** [s.replace(/class/g, '')]: every character of the class is dropped. *)
Fixpoint removeAll (p : ascii -> bool) (s : string) : string :=
  match s with
  | EmptyString => EmptyString
  | String c s' => if p c then removeAll p s' else String c (removeAll p s')
  end.

Fixpoint startsWith (p s : string) : bool :=
  match p, s with
  | EmptyString, _ => true
  | String a p', String b s' => Ascii.eqb a b && startsWith p' s'
  | String _ _, EmptyString => false
  end.

(** Every character of [s] satisfies [p]. *)
Fixpoint allChars (p : ascii -> bool) (s : string) : bool :=
  match s with
  | EmptyString => true
  | String c s' => p c && allChars p s'
  end.

(** [s.includes(p)]. *)
Fixpoint includes (p s : string) : bool :=
  startsWith p s ||
  match s with
  | EmptyString => false
  | String _ s' => includes p s'
  end.

Definition lowerChar (c : ascii) : ascii :=
  let n := N_of_ascii c in
  if ((65 <=? n) && (n <=? 90) ||
      (192 <=? n) && (n <=? 222) && negb (n =? 215))%N
  then ascii_of_N (n + 32) else c.

Fixpoint toLowerCase (s : string) : string :=
  match s with
  | EmptyString => EmptyString
  | String c s' => String (lowerChar c) (toLowerCase s')
  end.

(** ** Decimal digits *)

(** Exactly [k] digits of [n], the most significant first. *)
Fixpoint fixedDigits (k : nat) (n : N) : string :=
  match k with
  | O => EmptyString
  | S k' => String (digitChar ((n / 10 ^ N.of_nat k') mod 10)) (fixedDigits k' n)
  end.

Fixpoint numDigitsAux (fuel : nat) (n : N) : nat :=
  match fuel with
  | O => 1
  | S f => if (n <? 10)%N then 1%nat else S (numDigitsAux f (n / 10))
  end.

(** The number of decimal digits of [n] (one for zero). *)
Definition numDigits (n : N) : nat := numDigitsAux (N.to_nat (N.size n)) n.

(** The decimal numeral of a natural number, without leading zeros. *)
Definition natString (n : N) : string := fixedDigits (numDigits n) n.

(** Reads the longest run of digits at the head of [s]: the value
    accumulated on [acc], the number of digits read and the rest. *)
Fixpoint readDigits (acc : N) (s : string) : N * nat * string :=
  match s with
  | String c s' =>
      if isDigit c then
        let '(v, k, rest) := readDigits (acc * 10 + digitValue c) s' in
        (v, S k, rest)
      else (acc, O, s)
  | EmptyString => (acc, O, EmptyString)
  end.

(** ** Numbers to strings and back *)

(** [x.toFixed(f)]: the nearest multiple of 10^-f, a tie going away from
    zero, as sign, integer digits, and [f] fraction digits.  (A number of
    1e21 or more is printed in exponent form by JavaScript; coordinates
    and distances stay far below.) *)
Definition toFixed (f : nat) (a : number) : string :=
  match a with
  | NaN => "NaN"
  | Num x =>
      let n := Z.to_N (Zfloor (Rabs x * 10 ^ f + / 2)) in
      (if Rlt_dec x 0 then "-" else "") ++
      natString (n / 10 ^ N.of_nat f) ++
      match f with
      | O => ""
      | S _ => "." ++ fixedDigits f n
      end
  end.

(** [String(x)] for an integer-valued number (what [Math.round] returns). *)
Definition toString (a : number) : string :=
  match a with
  | NaN => "NaN"
  | Num x =>
      (if Rlt_dec x 0 then "-" else "") ++ natString (Z.to_N (Zfloor (Rabs x)))
  end.

(** The sign of a numeric literal. *)
Definition readSign (s : string) : bool * string :=
  match s with
  | String "-" s' => (true, s')
  | String "+" s' => (false, s')
  | _ => (false, s)
  end.

(** The exponent part of a literal: [e] or [E], a sign, at least one digit. *)
Definition readExponent (s : string) : Z :=
  match s with
  | String c s' =>
      if Ascii.eqb c "e" || Ascii.eqb c "E" then
        let '(neg, s1) := readSign s' in
        let '(v, k, _) := readDigits 0 s1 in
        match k with
        | O => 0%Z
        | S _ => if neg then (- Z.of_N v)%Z else Z.of_N v
        end
      else 0%Z
  | EmptyString => 0%Z
  end.

(** [parseFloat(s)]: the longest decimal literal at the head of [s], after
    leading white space; NaN when there is none.  (The literal Infinity has
    no counterpart in the model.) *)
Definition parseFloat (s : string) : number :=
  let '(neg, s1) := readSign (trimStart s) in
  let '(ip, ni, s2) := readDigits 0 s1 in
  let '(fp, nf, s3) :=
    match s2 with
    | String "." s2' => readDigits 0 s2'
    | _ => (0%N, O, s2)
    end in
  match ni, nf with
  | O, O => NaN
  | _, _ =>
      let m := (IZR (Z.of_N ip) + IZR (Z.of_N fp) / 10 ^ nf)%R in
      let v := (m * powerRZ 10 (readExponent s3))%R in
      Num (if neg then - v else v)%R
  end.

End Str.

(* ================================================================== *)
(** * Leaflet *)
(* ================================================================== *)

Module L.

Record LatLng : Type := latLng { lat : number; lng : number }.

Record LatLngBounds : Type := mkBounds { southWest : LatLng; northEast : LatLng }.

(** [L.latLngBounds([south, west], [north, east])]. *)
Definition latLngBounds (sw ne : number * number) : LatLngBounds :=
  mkBounds (latLng (fst sw) (snd sw)) (latLng (fst ne) (snd ne)).

(** Modelled from the spec: Leaflet's [LatLngBounds.contains], which is
    library code outside the repository.  The spec gives it as the pure
    predicate south <= latitude <= north and west <= longitude <= east,
    false on a NaN coordinate.  (Leaflet itself refuses to build a point
    from a NaN coordinate; that refusal is not modelled.) *)
Definition contains (b : LatLngBounds) (p : LatLng) : bool :=
  (lat p >=? lat (southWest b))%js && (lat p <=? lat (northEast b))%js &&
  (lng p >=? lng (southWest b))%js && (lng p <=? lng (northEast b))%js.

(** A map object; its view is not part of the model. *)
Inductive Map : Type := TheMap.

End L.

(* ================================================================== *)
(** * Constants of the script *)
(* ================================================================== *)

(** Uganda bounds (approx): south, west, north, east. *)
Definition UGANDA_BOUNDS : L.LatLngBounds :=
  L.latLngBounds (Num (-1.5), Num 29.5) (Num 4.9, Num 35.1).

(** Rates (UGX). *)
Definition BASE_FEE : number := Num 3000.
Definition RATE_MOTORCYCLE : number := Num 1500.
Definition RATE_CAR : number := Num 4000.

(** Default center (Kampala, Uganda). *)
Definition defaultCenter : L.LatLng := L.latLng (Num 0.3476) (Num 32.5825).

(* ================================================================== *)
(** * What the providers answer *)
(* ================================================================== *)

(** The directions payload, as far as the script reads it.  A field that
    is absent reads as undefined. *)
Record Segment : Type := mkSegment {
  distance : option number;   (* meters *)
  duration : option number    (* seconds *)
}.

Record Properties : Type := mkProperties { segments : option (list Segment) }.

Record Feature : Type := mkFeature { properties : option Properties }.

Record GeoJSON : Type := mkGeoJSON {
  features : option (list Feature);
  (** whether Leaflet draws the payload: [L.geoJSON(data)] builds a layer
      with valid bounds. *)
  drawable : bool
}.

(** What [await fetch(...)] and [await response.json()] give. *)
Inductive ProviderResponse : Type :=
| FetchRejected                      (* network error: fetch rejects *)
| HttpResponse (ok : bool) (body : option GeoJSON).
                                     (* body None: json() rejects *)

(** What the reverse-geocoding request gives. *)
Inductive NominatimResponse : Type :=
| LookupRejected                     (* fetch or json() rejects *)
| LookupResponse (ok : bool) (display_name : option string)
                 (country : option string).

(** What the device answers to [getCurrentPosition]. *)
Inductive PositionError : Type :=
| PERMISSION_DENIED | POSITION_UNAVAILABLE | TIMEOUT | UNKNOWN_ERROR.

(* ================================================================== *)
(** * The page state *)
(* ================================================================== *)

Inductive LocationRole : Type := pickup | delivery.

Definition roleName (type : LocationRole) : string :=
  match type with
  | pickup => "pickup"
  | delivery => "delivery"
  end.

(** What a route layer draws. *)
Inductive Layer : Type :=
| GeoJSONLayer (data : GeoJSON)        (* the routed path, solid *)
| PolylineLayer (a b : L.LatLng).      (* the straight line, dashed *)

(** A layer object on the page, with what Leaflet keeps about it: whether
    each map lists it among its layers, and the map the layer itself
    points to (its [_map]: the map it was added to last, null once a map
    has removed it). *)
Record LayerObject : Type := mkLayer {
  drawn : Layer;
  onPickupMap : bool;
  onDeliveryMap : bool;
  layerMap : option LocationRole
}.

(** [L.geoJSON(...)], [L.polyline(...)]: a new layer, on no map yet. *)
Definition newLayer (g : Layer) : LayerObject := mkLayer g false false None.

Definition listedOn (type : LocationRole) (l : LayerObject) : bool :=
  match type with
  | pickup => onPickupMap l
  | delivery => onDeliveryMap l
  end.

(** The map of a role lists the layer, which points to that map. *)
Definition added (type : LocationRole) (l : LayerObject) : LayerObject :=
  match type with
  | pickup => mkLayer (drawn l) true (onDeliveryMap l) (Some pickup)
  | delivery => mkLayer (drawn l) (onPickupMap l) true (Some delivery)
  end.

(** The map of a role lists the layer no longer, and the layer points
    to no map. *)
Definition removed (type : LocationRole) (l : LayerObject) : LayerObject :=
  match type with
  | pickup => mkLayer (drawn l) false (onDeliveryMap l) None
  | delivery => mkLayer (drawn l) (onPickupMap l) false None
  end.

(** What [calculateRoute] captured before it awaited the provider. *)
Record RouteRequest : Type := mkRequest {
  pickupLat : number;
  pickupLng : number;
  deliveryLat : number;
  deliveryLng : number;
  vehicleType : string;
  profile : string
}.

(** The snapshot the submit handler keeps in [currentFormData]. *)
Record FormData : Type := mkFormData {
  entries : list (string * string);
  callRecipient : bool
}.

(** An awaited call whose continuation has not run yet. *)
Inductive Task : Type :=
| ReverseLookup (type : LocationRole) (lat lng : string)
| Directions (req : RouteRequest)
| Geolocation (type : LocationRole)
| FormSubmit (data : FormData).

(** Element id to string (an input's value, a node's text, a style). *)
Definition Dom : Type := string -> string.

Definition upd (id v : string) (m : Dom) : Dom :=
  fun k => if String.eqb k id then v else m k.

Record State : Type := mkState {
  (* the script's global variables *)
  pickupMap : option L.Map;
  deliveryMap : option L.Map;
  pickupMarker : option L.LatLng;      (* the marker and where it stands *)
  deliveryMarker : option L.LatLng;
  routeLayer : option LayerObject;   (* the layer and where it is listed *)
  currentFormData : option FormData;
  (* the document *)
  value : Dom;                         (* [.value] of the inputs *)
  textContent : Dom;                   (* [.textContent] of the text nodes *)
  display : Dom;                       (* [.style.display] *)
  checked : string -> bool;            (* [.checked] of the check boxes *)
  (* the page *)
  notifications : list string;         (* what showNotification showed *)
  tasks : list Task                    (* awaited calls in flight *)
}.

Definition set_pickupMap (v : option L.Map) (s : State) : State :=
  mkState v (deliveryMap s) (pickupMarker s) (deliveryMarker s) (routeLayer s)
    (currentFormData s) (value s) (textContent s) (display s) (checked s)
    (notifications s) (tasks s).

Definition set_deliveryMap (v : option L.Map) (s : State) : State :=
  mkState (pickupMap s) v (pickupMarker s) (deliveryMarker s) (routeLayer s)
    (currentFormData s) (value s) (textContent s) (display s) (checked s)
    (notifications s) (tasks s).

Definition set_pickupMarker (v : option L.LatLng) (s : State) : State :=
  mkState (pickupMap s) (deliveryMap s) v (deliveryMarker s) (routeLayer s)
    (currentFormData s) (value s) (textContent s) (display s) (checked s)
    (notifications s) (tasks s).

Definition set_deliveryMarker (v : option L.LatLng) (s : State) : State :=
  mkState (pickupMap s) (deliveryMap s) (pickupMarker s) v (routeLayer s)
    (currentFormData s) (value s) (textContent s) (display s) (checked s)
    (notifications s) (tasks s).

Definition set_routeLayer (v : option LayerObject) (s : State) : State :=
  mkState (pickupMap s) (deliveryMap s) (pickupMarker s) (deliveryMarker s) v
    (currentFormData s) (value s) (textContent s) (display s) (checked s)
    (notifications s) (tasks s).

Definition set_currentFormData (v : option FormData) (s : State) : State :=
  mkState (pickupMap s) (deliveryMap s) (pickupMarker s) (deliveryMarker s)
    (routeLayer s) v (value s) (textContent s) (display s) (checked s)
    (notifications s) (tasks s).

Definition set_value (v : Dom) (s : State) : State :=
  mkState (pickupMap s) (deliveryMap s) (pickupMarker s) (deliveryMarker s)
    (routeLayer s) (currentFormData s) v (textContent s) (display s) (checked s)
    (notifications s) (tasks s).

Definition set_textContent (v : Dom) (s : State) : State :=
  mkState (pickupMap s) (deliveryMap s) (pickupMarker s) (deliveryMarker s)
    (routeLayer s) (currentFormData s) (value s) v (display s) (checked s)
    (notifications s) (tasks s).

Definition set_display (v : Dom) (s : State) : State :=
  mkState (pickupMap s) (deliveryMap s) (pickupMarker s) (deliveryMarker s)
    (routeLayer s) (currentFormData s) (value s) (textContent s) v (checked s)
    (notifications s) (tasks s).

Definition set_checked (v : string -> bool) (s : State) : State :=
  mkState (pickupMap s) (deliveryMap s) (pickupMarker s) (deliveryMarker s)
    (routeLayer s) (currentFormData s) (value s) (textContent s) (display s) v
    (notifications s) (tasks s).

Definition set_notifications (v : list string) (s : State) : State :=
  mkState (pickupMap s) (deliveryMap s) (pickupMarker s) (deliveryMarker s)
    (routeLayer s) (currentFormData s) (value s) (textContent s) (display s)
    (checked s) v (tasks s).

Definition set_tasks (v : list Task) (s : State) : State :=
  mkState (pickupMap s) (deliveryMap s) (pickupMarker s) (deliveryMarker s)
    (routeLayer s) (currentFormData s) (value s) (textContent s) (display s)
    (checked s) (notifications s) v.

(* ================================================================== *)
(** * Handlers as computations *)
(* ================================================================== *)

(** A computation over the page state.  [None] is a raised exception; the
    state it comes with is the state at the raise. *)
Definition M (A : Type) : Type := State -> option A * State.

Definition ret {A : Type} (a : A) : M A := fun s => (Some a, s).

Definition bind {A B : Type} (m : M A) (k : A -> M B) : M B :=
  fun s =>
    match m s with
    | (Some a, s') => k a s'
    | (None, s') => (None, s')
    end.

Definition throw {A : Type} : M A := fun s => (None, s).

(** [try { body } catch (e) { handler }]. *)
Definition tryCatch {A : Type} (body handler : M A) : M A :=
  fun s =>
    match body s with
    | (Some a, s') => (Some a, s')
    | (None, s') => handler s'
    end.

Definition get : M State := fun s => (Some s, s).

Definition modify (f : State -> State) : M unit := fun s => (Some tt, f s).

Declare Scope monad_scope.
Delimit Scope monad_scope with monad.
Notation "x <- m ;; k" := (bind m (fun x => k))
  (at level 61, m at next level, right associativity) : monad_scope.
Notation "m ;; k" := (bind m (fun _ => k))
  (at level 61, right associativity) : monad_scope.
Open Scope monad_scope.
Open Scope string_scope.

(** The state a handler leaves, and what it returned. *)
Definition exec {A : Type} (m : M A) (s : State) : State := snd (m s).
Definition result {A : Type} (m : M A) (s : State) : option A := fst (m s).

(** Reading a property of a value that may be undefined raises. *)
Definition prop {A : Type} (o : option A) : M A :=
  match o with
  | Some a => ret a
  | None => throw
  end.

(** An absent numeric field is undefined, which computes as NaN. *)
Definition numeric (o : option number) : number :=
  match o with
  | Some n => n
  | None => NaN
  end.

(** [a[i]] of an array of numbers; past the end it is undefined. *)
Definition item (i : nat) (a : list number) : number := nth i a NaN.

(** ** The document and the globals *)

Definition getValue (id : string) : M string := fun s => (Some (value s id), s).

Definition setValue (id v : string) : M unit :=
  modify (fun s => set_value (upd id v (value s)) s).

Definition setTextContent (id v : string) : M unit :=
  modify (fun s => set_textContent (upd id v (textContent s)) s).

Definition setDisplay (id v : string) : M unit :=
  modify (fun s => set_display (upd id v (display s)) s).

Definition mapOf (type : LocationRole) (s : State) : option L.Map :=
  match type with
  | pickup => pickupMap s
  | delivery => deliveryMap s
  end.

Definition markerOf (type : LocationRole) (s : State) : option L.LatLng :=
  match type with
  | pickup => pickupMarker s
  | delivery => deliveryMarker s
  end.

Definition set_markerOf (type : LocationRole) (v : option L.LatLng) : State -> State :=
  match type with
  | pickup => set_pickupMarker v
  | delivery => set_deliveryMarker v
  end.

Definition set_mapOf (type : LocationRole) (v : option L.Map) : State -> State :=
  match type with
  | pickup => set_pickupMap v
  | delivery => set_deliveryMap v
  end.

(** A method call on the map of a role that moves its view, as
    [pickupMap.setView(...)], [pickupMap.getZoom()] or
    [pickupMap.fitBounds(...)]: it raises when the variable is still
    undefined, and changes the view only. *)
Definition useMap (type : LocationRole) : M unit :=
  s <- get ;; prop (mapOf type s) ;; ret tt.

(** [layer.addTo(map)] on the map of a role, which is Leaflet's
    [map.addLayer(layer)]: it raises when the map variable is still
    undefined; a map that lists the layer already leaves it alone;
    otherwise the map lists the layer and the layer points to the map.
    The layer is a new one, which no variable holds yet. *)
Definition addTo (type : LocationRole) (l : LayerObject) : M LayerObject :=
  s <- get ;;
  prop (mapOf type s) ;;
  if listedOn type l then ret l else ret (added type l).

(** [map.removeLayer(routeLayer)] on the map of a role.  It raises when
    the map variable is still undefined.  In Leaflet a map that does not
    list the layer returns at once; otherwise the map has the layer take
    its drawing down, which goes through the map the layer points to and
    raises a TypeError when the layer points to none; only then does the
    map drop the layer from its list and the layer point to no map.  So a
    layer added to both maps is removed from the first, and the removal
    from the second raises. *)
Definition removeLayer (type : LocationRole) : M unit :=
  s <- get ;;
  prop (mapOf type s) ;;
  match routeLayer s with
  | Some l =>
      if listedOn type l then
        prop (layerMap l) ;;
        modify (set_routeLayer (Some (removed type l)))
      else ret tt
  | None => ret tt
  end.

(** [marker.setLatLng(p)] on the marker of a role. *)
Definition setLatLng (type : LocationRole) (p : L.LatLng) : M unit :=
  s <- get ;; prop (markerOf type s) ;; modify (set_markerOf type (Some p)).

(** Notification system: the toast is recorded in the order shown. *)
Definition showNotification (message : string) : M unit :=
  modify (fun s => set_notifications (notifications s ++ [message]) s).

(** Show map feedback: a popup on the map, closed after 1.5 s; it touches
    the view only. *)
Definition showMapFeedback (type : LocationRole) (message : string) : M unit :=
  ret tt.

(** An awaited call is put among the tasks in flight. *)
Definition spawn (t : Task) : M unit :=
  modify (fun s => set_tasks (tasks s ++ [t]) s).

(* ================================================================== *)
(** * Regular expressions *)
(* ================================================================== *)

Module Regex.

Inductive regex : Type :=
| Nothing                                (* matches nothing *)
| Eps                                   (* the empty string *)
| Chr (c : ascii)
| Class (p : ascii -> bool)             (* [\s], [\d] *)
| Cat (r1 r2 : regex)
| Alt (r1 r2 : regex)                   (* r1|r2 *)
| Repeat (n : nat) (r : regex).         (* r{n} *)

(** A literal run of characters. *)
Fixpoint lit (s : string) : regex :=
  match s with
  | EmptyString => Eps
  | String c s' => Cat (Chr c) (lit s')
  end.

Fixpoint nullable (r : regex) : bool :=
  match r with
  | Nothing => false
  | Eps => true
  | Chr _ => false
  | Class _ => false
  | Cat r1 r2 => nullable r1 && nullable r2
  | Alt r1 r2 => nullable r1 || nullable r2
  | Repeat O _ => true
  | Repeat (S _) r' => nullable r'
  end.

(** What is left of [r] to match after reading [c]. *)
Fixpoint deriv (c : ascii) (r : regex) : regex :=
  match r with
  | Nothing => Nothing
  | Eps => Nothing
  | Chr d => if Ascii.eqb c d then Eps else Nothing
  | Class p => if p c then Eps else Nothing
  | Cat r1 r2 =>
      if nullable r1 then Alt (Cat (deriv c r1) r2) (deriv c r2)
      else Cat (deriv c r1) r2
  | Alt r1 r2 => Alt (deriv c r1) (deriv c r2)
  | Repeat O _ => Nothing
  | Repeat (S n) r' => Cat (deriv c r') (Repeat n r')
  end.

(** [/^r$/.test(s)]: the whole of [s] matches [r]. *)
Fixpoint test (r : regex) (s : string) : bool :=
  match s with
  | EmptyString => nullable r
  | String c s' => test (deriv c r) s'
  end.

(** The strings a regular expression denotes. *)
Inductive lang : regex -> string -> Prop :=
| lang_eps : lang Eps EmptyString
| lang_chr c : lang (Chr c) (String c EmptyString)
| lang_class p c : p c = true -> lang (Class p) (String c EmptyString)
| lang_cat r1 r2 s1 s2 : lang r1 s1 -> lang r2 s2 -> lang (Cat r1 r2) (s1 ++ s2)
| lang_alt_l r1 r2 s : lang r1 s -> lang (Alt r1 r2) s
| lang_alt_r r1 r2 s : lang r2 s -> lang (Alt r1 r2) s
| lang_repeat_0 r : lang (Repeat O r) EmptyString
| lang_repeat_S n r s1 s2 :
    lang r s1 -> lang (Repeat n r) s2 -> lang (Repeat (S n) r) (s1 ++ s2).

End Regex.

(* ================================================================== *)
(** * The script *)
(* ================================================================== *)

(** A string in a condition: the empty string is false. *)
Definition truthy (s : string) : bool := negb (s =? "").

(** [v || d]. *)
Definition orElse (v d : string) : string := if truthy v then v else d.

(** [coords.split(',').map(s => parseFloat(s.trim()))]. *)
Definition parseCoords (coords : string) : list number :=
  List.map (fun s => Str.parseFloat (Str.trim s)) (Str.split "," coords).

(** Check if both locations are set and inside Uganda. *)
Definition checkRouteAvailability : M unit :=
  pickupCoords <- getValue "pickupCoordsHidden" ;;
  deliveryCoords <- getValue "deliveryCoordsHidden" ;;
  if truthy pickupCoords && negb (pickupCoords =? "Not set") &&
     truthy deliveryCoords && negb (deliveryCoords =? "Not set")
  then
    (* ensure both are inside Uganda bounds (quick check) *)
    let p := parseCoords pickupCoords in
    let d := parseCoords deliveryCoords in
    if L.contains UGANDA_BOUNDS (L.latLng (item 0 p) (item 1 p)) &&
       L.contains UGANDA_BOUNDS (L.latLng (item 0 d) (item 1 d))
    then setDisplay "routeSection" "block"
    else setDisplay "routeSection" "none"
  else setDisplay "routeSection" "none".

(** Update location when map is clicked or marker is dragged. *)
Definition updateLocation (latlng : L.LatLng) (type : LocationRole) : M unit :=
  let lat := Str.toFixed 6 (L.lat latlng) in
  let lng := Str.toFixed 6 (L.lng latlng) in
  (* Generate OpenStreetMap link *)
  let mapLink := "https://www.openstreetmap.org/?mlat=" ++ lat ++ "&mlon=" ++ lng
                 ++ "#map=17/" ++ lat ++ "/" ++ lng in
  match type with
  | pickup =>
      setLatLng pickup latlng ;;
      setValue "pickupLat" lat ;;
      setValue "pickupLng" lng ;;
      setValue "pickupLink" mapLink ;;
      setValue "pickupLinkHidden" mapLink ;;
      setValue "pickupCoordsHidden" (lat ++ ", " ++ lng) ;;
      useMap pickup                     (* auto-pan to marker *)
  | delivery =>
      setLatLng delivery latlng ;;
      setValue "deliveryLat" lat ;;
      setValue "deliveryLng" lng ;;
      setValue "deliveryLink" mapLink ;;
      setValue "deliveryLinkHidden" mapLink ;;
      setValue "deliveryCoordsHidden" (lat ++ ", " ++ lng) ;;
      useMap delivery
  end ;;
  (* Try to get address for the coordinates with Uganda validation *)
  spawn (ReverseLookup type lat lng) ;;
  (* Check if we should show route section *)
  checkRouteAvailability.

(** What [getAddressFromCoordinates] resolves to. *)
Record AddressResult : Type := mkAddress {
  addr_display_name : string;
  addr_country : string
}.

(** Get address from coordinates using Nominatim with country check. *)
Definition getAddressFromCoordinates (r : NominatimResponse) : AddressResult :=
  match r with
  | LookupResponse true display_name country =>
      mkAddress
        (match display_name with
         | Some n => orElse n "Address not found"
         | None => "Address not found"
         end)
        (match country with
         | Some c => c
         | None => ""
         end)
  | _ => mkAddress "Address lookup failed" ""
  end.

(** The continuation of the reverse lookup started by [updateLocation]. *)
Definition updateLocation_then (type : LocationRole) (addr : AddressResult) : M unit :=
  if truthy (addr_country addr) &&
     Str.includes "uganda" (Str.toLowerCase (addr_country addr))
  then
    let field := match type with
                 | pickup => "pickupAddress"
                 | delivery => "deliveryAddress"
                 end in
    current <- getValue field ;;
    (* Only auto-fill if the field is empty or contains placeholder *)
    if negb (truthy current) || Str.includes "enter" (Str.toLowerCase current)
       || (Str.trim current =? "")
    then setValue field (orElse (addr_display_name addr) "")
    else ret tt
  else
    (* If reverse geocode says not Uganda, clear and warn *)
    showNotification "Selected location is not in Uganda (reverse lookup).".

(** Map click handler that enforces Uganda bounds. *)
Definition onMapClick (latlng : L.LatLng) (type : LocationRole) : M unit :=
  if negb (L.contains UGANDA_BOUNDS latlng) then
    showNotification "Location outside Uganda — pick a point inside Uganda."
    (* block clicks outside Uganda *)
  else
    updateLocation latlng type ;;
    showMapFeedback type
      ((match type with pickup => "Pickup" | delivery => "Delivery" end)
       ++ " location set").

(** The marker of [type] was dragged and released; [e.target] is that
    marker, standing where the drag left it. *)
Definition onMarkerDragEnd (type : LocationRole) : M unit :=
  s <- get ;;
  latlng <- prop (markerOf type s) ;;
  if negb (L.contains UGANDA_BOUNDS latlng) then
    showNotification "Marker outside Uganda — resetting to last valid position." ;;
    (* reset marker to previous valid position: if hidden input has coords, use that *)
    hidden <- getValue (roleName type ++ "CoordsHidden") ;;
    if truthy hidden && negb (hidden =? "Not set") then
      let c := parseCoords hidden in
      setLatLng type (L.latLng (item 0 c) (item 1 c))
    else
      (* snap back to Kampala *)
      setLatLng type (L.latLng (Num 0.3476) (Num 32.5825))
  else
    updateLocation latlng type ;;
    showMapFeedback type
      ((match type with pickup => "Pickup" | delivery => "Delivery" end)
       ++ " location updated").

(** The geocoder's [markgeocode] handler of a map. *)
Definition onMarkGeocode (center : L.LatLng) (type : LocationRole) : M unit :=
  if negb (L.contains UGANDA_BOUNDS center) then
    showNotification
      "Search result is outside Uganda — please pick a location inside Uganda."
  else
    useMap type ;;                      (* setView(center, 16) *)
    updateLocation center type.

(** Get current location using browser geolocation with Uganda validation.
    (The label and the disabled flag of the button are not kept.) *)
Definition getCurrentLocation (geolocation : bool) (type : LocationRole) : M unit :=
  if negb geolocation then
    showNotification "Geolocation is not supported by your browser"
  else spawn (Geolocation type).

Definition getCurrentLocation_success (position : L.LatLng) (type : LocationRole)
  : M unit :=
  let latlng := L.latLng (L.lat position) (L.lng position) in
  (* Check if location is within Uganda *)
  if negb (L.contains UGANDA_BOUNDS latlng) then
    showNotification
      "Your current location is outside Uganda. Please set a location inside Uganda."
  else
    updateLocation latlng type ;;
    showNotification "Location found successfully!".

Definition getCurrentLocation_error (error : PositionError) : M unit :=
  let errorMessage := "Unable to get your current location. " in
  showNotification
    (errorMessage ++
     match error with
     | PERMISSION_DENIED => "Please allow location access in your browser settings."
     | POSITION_UNAVAILABLE => "Location information is unavailable."
     | TIMEOUT => "Location request timed out."
     | UNKNOWN_ERROR => "An unknown error occurred."
     end).

(** ** Route computation *)

(** Calculate distance between two coordinates (Haversine formula).
    (On the reals [a] never exceeds 1, so [Math.sqrt (1 - a)] is a number;
    the rounding that lets [a] exceed 1 in floating point, between points
    that are nearly antipodal, is outside the model.) *)
Definition calculateDistance (lat1 lon1 lat2 lon2 : number) : number :=
  (let R := Num 6371 in (* Earth's radius in km *)
   let dLat := (lat2 - lat1) * Math.PI / Num 180 in
   let dLon := (lon2 - lon1) * Math.PI / Num 180 in
   let a :=
     Math.sin (dLat / Num 2) * Math.sin (dLat / Num 2) +
     Math.cos (lat1 * Math.PI / Num 180) * Math.cos (lat2 * Math.PI / Num 180) *
     Math.sin (dLon / Num 2) * Math.sin (dLon / Num 2) in
   let c := Num 2 * Math.atan2 (Math.sqrt a) (Math.sqrt (Num 1 - a)) in
   R * c)%js.

(** Which branch produced a route. *)
Inductive Source : Type := Primary | Fallback.

(** What one route computation shows: the values of its local constants
    (distanceKm, durationMin and estimatedCost in the try block; straightKm,
    durationEst and estimatedCost in the catch block), the layer drawn and
    the branch that produced them. *)
Record RouteResult : Type := mkRoute {
  distanceKm : number;
  durationMin : number;
  costEstimate : number;
  geometry : Layer;
  source : Source
}.

(** Calculate route using OpenRouteService with fallback: the part that
    runs before the provider is awaited. *)
Definition calculateRoute : M unit :=
  pickupCoords <- getValue "pickupCoordsHidden" ;;
  deliveryCoords <- getValue "deliveryCoordsHidden" ;;
  vehicleType <- getValue "vehicleType" ;;
  if negb (truthy pickupCoords) || negb (truthy deliveryCoords) ||
     (pickupCoords =? "Not set") || (deliveryCoords =? "Not set")
  then
    showNotification "Please set both pickup and delivery locations inside Uganda first"
  else if negb (truthy vehicleType) then
    showNotification "Please select a vehicle type first"
  else
    let p := parseCoords pickupCoords in
    let d := parseCoords deliveryCoords in
    (* Determine profile based on vehicle type *)
    let profile := if vehicleType =? "motorcycle" then "driving-motorcycle"
                   else "driving-car" in
    spawn (Directions (mkRequest (item 0 p) (item 1 p) (item 0 d) (item 1 d)
                         vehicleType profile)).

(** The rest of [calculateRoute], run when the provider has answered:
    first the try block.  [toLocaleString] is the host's rendering of a
    number in its locale. *)
Definition calculateRoute_try (toLocaleString : number -> string)
  (req : RouteRequest) (response : ProviderResponse) : M RouteResult :=
  match response with
  | FetchRejected => throw
  | HttpResponse true body =>
      data <- prop body ;;
      (* Clear previous route *)
      s <- get ;;
      match routeLayer s with
      | Some _ => removeLayer pickup ;; removeLayer delivery
      | None => ret tt
      end ;;
      (* Add route to both maps *)
      (if drawable data then ret tt else throw) ;;
      layer <- addTo pickup (newLayer (GeoJSONLayer data)) ;;
      layer <- addTo delivery layer ;;
      modify (set_routeLayer (Some layer)) ;;
      (* Fit both maps to show the entire route *)
      useMap pickup ;; useMap delivery ;;
      (* Extract route information *)
      fs <- prop (features data) ;;
      route <- prop (nth_error fs 0) ;;
      ps <- prop (properties route) ;;
      segs <- prop (segments ps) ;;
      seg <- prop (nth_error segs 0) ;;
      let distanceKm := (numeric (distance seg) / Num 1000)%js in
      let durationMin := Math.round (numeric (duration seg) / Num 60)%js in
      (* Calculate estimated cost using Uganda rates *)
      let rate := if vehicleType req =? "motorcycle" then RATE_MOTORCYCLE
                  else RATE_CAR in
      let estimatedCost :=
        Math.round (BASE_FEE + Math.round distanceKm * rate)%js in
      (* Update route info display *)
      setTextContent "routeDistance" (Str.toFixed 1 distanceKm ++ " km") ;;
      setTextContent "routeDuration" (Str.toString durationMin ++ " min") ;;
      setTextContent "routeCost" (toLocaleString estimatedCost ++ " UGX") ;;
      showNotification "Route calculated successfully!" ;;
      ret (mkRoute distanceKm durationMin estimatedCost (GeoJSONLayer data) Primary)
  | HttpResponse false _ => throw   (* Route calculation failed *)
  end.

(** The catch block.  Fallback: Calculate straight-line distance and
    estimate. *)
Definition calculateRoute_catch (toLocaleString : number -> string)
  (req : RouteRequest) : M RouteResult :=
  let straightKm :=
    calculateDistance (pickupLat req) (pickupLng req)
                      (deliveryLat req) (deliveryLng req) in
  let durationEst := Math.round (straightKm * Num 3)%js in (* ~3 min per km average *)
  let rate := if vehicleType req =? "motorcycle" then RATE_MOTORCYCLE
              else RATE_CAR in
  let estimatedCost := Math.round (BASE_FEE + straightKm * rate)%js in
  (* draw straight line on maps *)
  let line := PolylineLayer (L.latLng (pickupLat req) (pickupLng req))
                            (L.latLng (deliveryLat req) (deliveryLng req)) in
  s <- get ;;
  match routeLayer s with
  | Some _ => tryCatch (removeLayer pickup ;; removeLayer delivery) (ret tt)
  | None => ret tt
  end ;;
  layer <- addTo pickup (newLayer line) ;;
  layer <- addTo delivery layer ;;
  modify (set_routeLayer (Some layer)) ;;
  useMap pickup ;; useMap delivery ;;
  setTextContent "routeDistance" (Str.toFixed 1 straightKm ++ " km") ;;
  setTextContent "routeDuration" (Str.toString durationEst ++ " min") ;;
  setTextContent "routeCost"
    (toLocaleString (Math.round estimatedCost) ++ " UGX") ;;
  showNotification "Estimated route shown (straight-line fallback)" ;;
  ret (mkRoute straightKm durationEst estimatedCost line Fallback).

Definition calculateRoute_response (toLocaleString : number -> string)
  (req : RouteRequest) (response : ProviderResponse) : M RouteResult :=
  tryCatch (calculateRoute_try toLocaleString req response)
           (calculateRoute_catch toLocaleString req).

(** Clear route from maps. *)
Definition clearRoute : M unit :=
  s <- get ;;
  match routeLayer s with
  | Some _ =>
      removeLayer pickup ;; removeLayer delivery ;;
      modify (set_routeLayer None)
  | None => ret tt
  end ;;
  setTextContent "routeDistance" "--" ;;
  setTextContent "routeDuration" "--" ;;
  setTextContent "routeCost" "--" ;;
  showNotification "Route cleared".

Definition clearLocation (mapType : LocationRole) : M unit :=
  s <- get ;;
  match mapOf mapType s, markerOf mapType s with
  | Some _, Some _ =>
      (* Reset to default position *)
      setLatLng mapType defaultCenter ;;
      useMap mapType ;;
      (* Clear form fields *)
      match mapType with
      | pickup =>
          setValue "pickupLat" "" ;;
          setValue "pickupLng" "" ;;
          setValue "pickupLink" "" ;;
          setValue "pickupCoordsHidden" "Not set"
      | delivery =>
          setValue "deliveryLat" "" ;;
          setValue "deliveryLng" "" ;;
          setValue "deliveryLink" "" ;;
          setValue "deliveryCoordsHidden" "Not set"
      end ;;
      showMapFeedback mapType "Location cleared" ;;
      checkRouteAvailability
  | _, _ => ret tt
  end.

(** Initialize Leaflet maps: the maps whose containers are shown.  Leaflet
    refuses a container that already holds a map; like every error in the
    body, that is caught and logged. *)
Definition L_map (type : LocationRole) : M unit :=
  s <- get ;;
  match mapOf type s with
  | Some _ => throw
  | None => modify (set_mapOf type (Some L.TheMap))
  end.

Definition initMaps (pickupShown deliveryShown : bool) : M unit :=
  tryCatch
    ((if pickupShown then
        L_map pickup ;;
        modify (set_pickupMarker (Some defaultCenter))
      else ret tt) ;;
     (if deliveryShown then
        L_map delivery ;;
        modify (set_deliveryMarker (Some defaultCenter))
      else ret tt) ;;
     (* Check if we have both locations to show route section *)
     checkRouteAvailability)
    (ret tt).

(** ** Form submission *)

(** [/\s|-/]. *)
Definition separators : Regex.regex :=
  Regex.Alt (Regex.Class Str.isWhiteSpace) (Regex.Chr "-").

(** [/^(?:\+256|0|256)7\d{8}$/]. *)
Definition ugPhonePattern : Regex.regex :=
  Regex.Cat
    (Regex.Alt (Regex.lit "+256") (Regex.Alt (Regex.lit "0") (Regex.lit "256")))
    (Regex.Cat (Regex.Chr "7") (Regex.Repeat 8 (Regex.Class Str.isDigit))).

(** Form validation for Uganda phone numbers. *)
Definition ugPhoneValid (value : string) : bool :=
  if negb (truthy value) then false
  else
    let cleaned :=
      Str.removeAll (fun c => Regex.test separators (String c "")) value in
    (* Accepts formats: +2567XXXXXXXX or 07XXXXXXXX or 2567XXXXXXXX *)
    Regex.test ugPhonePattern cleaned.

Definition required : list string :=
  ["senderName"; "senderPhone"; "senderEmail"; "recipientName"; "recipientPhone";
   "packageDescription"; "vehicleType"; "pickupLandmark"; "deliveryLandmark"].

(** Form submission handler with Uganda validation, up to the request;
    [timestamp] is the clock's rendering of the submission time.  (The
    loading state of the button is not kept.) *)
Definition onSubmit (timestamp : string) : M unit :=
  s <- get ;;
  (* Client-side validation *)
  if existsb (fun id => negb (truthy (Str.trim (value s id)))) required then
    showNotification "Please complete all required fields including landmarks"
  (* Uganda phone validation *)
  else if negb (ugPhoneValid (value s "senderPhone")) then
    showNotification "Sender phone must be a valid Ugandan number (e.g. +2567...)"
  else if negb (ugPhoneValid (value s "recipientPhone")) then
    showNotification "Recipient phone must be a valid Ugandan number (e.g. +2567...)"
  (* Terms agreement validation *)
  else if negb (checked s "termsAgreement") then
    showNotification "Please agree to the terms of service and privacy policy"
  else
    (* Store form data *)
    let data :=
      mkFormData
        [("senderName", value s "senderName");
         ("senderPhone", value s "senderPhone");
         ("senderEmail", value s "senderEmail");
         ("pickupAddress", value s "pickupAddress");
         ("pickupLandmark", value s "pickupLandmark");
         ("pickupCoords", orElse (value s "pickupCoordsHidden") "Not set");
         ("pickupLink", orElse (value s "pickupLink") "No location set");
         ("recipientName", value s "recipientName");
         ("recipientPhone", value s "recipientPhone");
         ("deliveryAddress", value s "deliveryAddress");
         ("deliveryLandmark", value s "deliveryLandmark");
         ("deliveryCoords", orElse (value s "deliveryCoordsHidden") "Not set");
         ("deliveryLink", orElse (value s "deliveryLink") "No location set");
         ("vehicleType", value s "vehicleType");
         ("packageDescription", value s "packageDescription");
         ("specialInstructions", orElse (value s "specialInstructions") "None");
         ("emergencyContact", orElse (value s "emergencyContact") "Not provided");
         ("routeDistance", textContent s "routeDistance");
         ("routeDuration", textContent s "routeDuration");
         ("routeCost", textContent s "routeCost");
         ("timestamp", timestamp)]
        (checked s "callRecipient") in
    modify (set_currentFormData (Some data)) ;;
    (* Submit to FormSubmit *)
    spawn (FormSubmit data).

(** The rest of the submit handler: whatever the form target answered,
    the success message replaces the form. *)
Definition onSubmit_response (ok : option bool) : M unit :=
  setDisplay "deliveryForm" "none" ;;
  setDisplay "successMessage" "block".

(** The submit handler after the request: the try block.  [response] is
    what [await fetch(form.action, ...)] gave: [None] when the fetch
    rejects, else the [ok] flag of the answer. *)
Definition onSubmit_try (response : option bool) : M unit :=
  match response with
  | None => throw
  | Some true =>
      setDisplay "deliveryForm" "none" ;;
      setDisplay "successMessage" "block"
  | Some false => throw                 (* Form submission failed *)
  end.

(** The catch block.  Fallback: show success message anyway. *)
Definition onSubmit_catch : M unit :=
  setDisplay "deliveryForm" "none" ;;
  setDisplay "successMessage" "block".

(** try, then catch.  (The finally block restores the button, which is
    not kept.) *)
Definition onSubmit_await (response : option bool) : M unit :=
  tryCatch (onSubmit_try response) onSubmit_catch.

(** ** The map sections *)

(** Toggle map sections: the click handler of the toggle of a role.  It
    shows or hides the section, and returns [true] when it set the timer
    that initializes the maps.  (The toggle is taken to hold its chevron,
    which is not kept.) *)
Definition onMapToggle (type : LocationRole) : M bool :=
  s <- get ;;
  let content := roleName type ++ "MapContent" in
  if display s content =? "none" then
    setDisplay content "block" ;;
    ret true
  else
    setDisplay content "none" ;;
    ret false.

(** The timer of the toggle, 100 ms later.  Initialize map if not already
    done; [pickupShown] and [deliveryShown] say which map containers are
    laid out at that moment. *)
Definition onMapToggle_timeout (type : LocationRole) (pickupShown deliveryShown : bool)
  : M unit :=
  s <- get ;;
  match mapOf type s with
  | None => initMaps pickupShown deliveryShown
  | Some _ => ret tt
  end.

(* ================================================================== *)
(** * The page as a transition system *)
(* ================================================================== *)

(** A role's hidden coordinates hold a point: neither empty nor the
    placeholder. *)
Definition present (coords : string) : bool :=
  truthy coords && negb (coords =? "Not set").

(** The point a role's hidden coordinates hold, as the script reads it. *)
Definition storedPoint (coords : string) : L.LatLng :=
  let c := parseCoords coords in L.latLng (item 0 c) (item 1 c).

(** Whether the route section is offered: what [checkRouteAvailability]
    leaves in the display of the route section. *)
Definition isReady (s : State) : bool :=
  display (exec checkRouteAvailability s) "routeSection" =? "block".

(** The inputs only the script writes. *)
Definition hiddenIds : list string :=
  ["pickupCoordsHidden"; "deliveryCoordsHidden";
   "pickupLinkHidden"; "deliveryLinkHidden"].

(** [pick x l rest]: [rest] is [l] without one occurrence of [x]. *)
Inductive pick {A : Type} (x : A) : list A -> list A -> Prop :=
| pick_here l : pick x (x :: l) l
| pick_later y l rest : pick x l rest -> pick x (y :: l) (y :: rest).

(** A page just loaded, every input empty and the route texts at their
    placeholder. *)
Definition emptyPage : State :=
  mkState None None None None None None
    (fun _ => "") (fun _ => "--") (fun _ => "none") (fun _ => false) [] [].

(** Modelled from the spec: the page markup, which is not in the
    repository, gives the inputs their first values.  The spec has the
    location state created empty at session start: no map, no route, no
    call in flight, and both roles absent. *)
Definition initial (s : State) : Prop :=
  pickupMap s = None /\ deliveryMap s = None /\
  pickupMarker s = None /\ deliveryMarker s = None /\
  routeLayer s = None /\ currentFormData s = None /\
  notifications s = [] /\ tasks s = [] /\
  present (value s "pickupCoordsHidden") = false /\
  present (value s "deliveryCoordsHidden") = false.

(** One event of the page: a handler runs to its end on the state it
    finds.  A continuation runs on a task in flight, which it consumes. *)
Inductive step (toLocaleString : number -> string) : State -> State -> Prop :=
| step_initMaps s pickupShown deliveryShown :
    step toLocaleString s (exec (initMaps pickupShown deliveryShown) s)
| step_click s type latlng :
    mapOf type s <> None ->
    step toLocaleString s (exec (onMapClick latlng type) s)
| step_dragend s type p :
    markerOf type s <> None ->
    step toLocaleString s
      (exec (onMarkerDragEnd type) (set_markerOf type (Some p) s))
| step_markgeocode s type center :
    mapOf type s <> None ->
    step toLocaleString s (exec (onMarkGeocode center type) s)
| step_locate s geolocation type :
    step toLocaleString s (exec (getCurrentLocation geolocation type) s)
| step_located s type rest position :
    pick (Geolocation type) (tasks s) rest ->
    step toLocaleString s
      (exec (getCurrentLocation_success position type) (set_tasks rest s))
| step_locate_error s type rest error :
    pick (Geolocation type) (tasks s) rest ->
    step toLocaleString s
      (exec (getCurrentLocation_error error) (set_tasks rest s))
| step_address s type lat lng rest r :
    pick (ReverseLookup type lat lng) (tasks s) rest ->
    step toLocaleString s
      (exec (updateLocation_then type (getAddressFromCoordinates r))
            (set_tasks rest s))
| step_calculateRoute s :
    step toLocaleString s (exec calculateRoute s)
| step_route_response s req rest response :
    pick (Directions req) (tasks s) rest ->
    step toLocaleString s
      (exec (calculateRoute_response toLocaleString req response)
            (set_tasks rest s))
| step_clearRoute s :
    step toLocaleString s (exec clearRoute s)
| step_clearLocation s mapType :
    step toLocaleString s (exec (clearLocation mapType) s)
| step_input s id v :
    ~ In id hiddenIds ->
    step toLocaleString s (exec (setValue id v) s)
| step_check s id b :
    step toLocaleString s
      (set_checked (fun k => if k =? id then b else checked s k) s)
| step_submit s timestamp :
    step toLocaleString s (exec (onSubmit timestamp) s)
| step_submit_response s data rest ok :
    pick (FormSubmit data) (tasks s) rest ->
    step toLocaleString s (exec (onSubmit_response ok) (set_tasks rest s)).

(** The states the page can be in. *)
Inductive reachable (toLocaleString : number -> string) : State -> Prop :=
| reachable_initial s : initial s -> reachable toLocaleString s
| reachable_step s s' :
    reachable toLocaleString s -> step toLocaleString s s' ->
    reachable toLocaleString s'.

(** ** The spec's words, for comparison *)

(** The spec's haversine great-circle distance, Earth radius 6371 km:
    hav = sin^2(dphi/2) + cos(phi1) cos(phi2) sin^2(dlambda/2) and
    d = 2 R asin(sqrt hav), the angles in radians. *)
Definition radians (deg : R) : R := (deg * PI / 180)%R.

Definition hav (lat1 lon1 lat2 lon2 : R) : R :=
  ((sin (radians (lat2 - lat1) / 2))² +
   cos (radians lat1) * cos (radians lat2) * (sin (radians (lon2 - lon1) / 2))²)%R.

Definition haversineKm (lat1 lon1 lat2 lon2 : R) : R :=
  (6371 * (2 * asin (sqrt (hav lat1 lon1 lat2 lon2))))%R.

(** The spec's pricing model: a flat base fee plus a per-kilometer rate
    of the vehicle class; the primary path rounds the distance before
    multiplying, the fallback path does not. *)
Inductive VehicleClass : Type := Motorcycle | Car.

Definition ratePerKm (v : VehicleClass) : number :=
  match v with
  | Motorcycle => Num 1500
  | Car => Num 4000
  end.

Definition baseFee : number := Num 3000.

Definition estimateCost_primary (d : number) (v : VehicleClass) : number :=
  Math.round (baseFee + Math.round d * ratePerKm v)%js.


(** The class a value of the vehicle input selects: the script tells
    'motorcycle' from everything else. *)
Definition vehicleClass (vehicleType : string) : VehicleClass :=
  if vehicleType =? "motorcycle" then Motorcycle else Car.

(** A coordinate rounded to 6 decimal places, a tie going away from zero. *)
Definition round6 (x : R) : R :=
  ((if Rlt_dec x 0 then -1 else 1) *
   (IZR (Zfloor (Rabs x * 10 ^ 6 + / 2)) / 10 ^ 6))%R.

(** The spec's phone shape: +256, 0 or 256, then 7, then 8 digits. *)
Definition ugandanShape (s : string) : Prop :=
  exists prefix digits,
    s = prefix ++ "7" ++ digits /\
    (prefix = "+256" \/ prefix = "0" \/ prefix = "256") /\
    String.length digits = 8%nat /\
    Str.allChars Str.isDigit digits = true.

(** A phone value with its white space and hyphens removed. *)
Definition withoutSeparators (s : string) : string :=
  Str.removeAll (fun c => Str.isWhiteSpace c || Ascii.eqb c "-") s.



(** The failures the script detects: the try block raises. *)
Definition raises (response : ProviderResponse) : bool :=
  match response with
  | FetchRejected => true
  | HttpResponse false _ => true
  | HttpResponse true None => true
  | HttpResponse true (Some data) =>
      negb (drawable data) ||
      match features data with
      | Some (f :: _) =>
          match properties f with
          | Some ps =>
              match segments ps with
              | Some (_ :: _) => false
              | _ => true
              end
          | None => true
          end
      | _ => true
      end
  end.

(* ================================================================== *)
(** * Definitions used by the statements and the proofs *)
(* ================================================================== *)

(** A string that does not start with a digit. *)
Definition stops (rest : string) : Prop :=
  match rest with
  | EmptyString => True
  | String c _ => Str.isDigit c = false
  end.

(** Neither white space nor a comma. *)
Definition plain (c : ascii) : bool :=
  negb (Str.isWhiteSpace c) && negb (Ascii.eqb c ",").

Definition noComma (c : ascii) : bool := negb (Ascii.eqb c ",").

(** What [toFixed] prints, once the sign is set apart: the integer
    nearest to |x| 10^f. *)
Definition scaled (f : nat) (x : R) : Z := Zfloor (Rabs x * 10 ^ f + / 2).

(** The fallback route of a request. *)
Definition fallbackRoute (req : RouteRequest) : RouteResult :=
  let straightKm :=
    calculateDistance (pickupLat req) (pickupLng req) (deliveryLat req) (deliveryLng req) in
  let rate := if vehicleType req =? "motorcycle" then RATE_MOTORCYCLE else RATE_CAR in
  mkRoute straightKm (Math.round (straightKm * Num 3)%js)
    (Math.round (BASE_FEE + straightKm * rate)%js)
    (PolylineLayer (L.latLng (pickupLat req) (pickupLng req))
                   (L.latLng (deliveryLat req) (deliveryLng req)))
    Fallback.

(** A layer as the script leaves it once drawn: added to the pickup map,
    then to the delivery map. *)
Definition onBothMaps (g : Layer) : LayerObject := mkLayer g true true (Some delivery).

(** The same layer once the pickup map has removed it: the delivery map
    still lists it, and it points to no map. *)
Definition halfRemoved (g : Layer) : LayerObject := mkLayer g false true None.

(** The two conditions a route layer of the page is found in. *)
Definition laid (l : LayerObject) : Prop :=
  l = onBothMaps (drawn l) \/ l = halfRemoved (drawn l).

Definition layerInv (s : State) : Prop :=
  forall l, routeLayer s = Some l -> laid l.

(** Whatever [m] returns or raises, the state it leaves is [P]-related to
    the state it found. *)
Definition respects (P : State -> State -> Prop) {A : Type} (m : M A) : Prop :=
  forall s, P s (snd (m s)).

(** [s'] has the route layer of [s]. *)
Definition sameLayer (s s' : State) : Prop := routeLayer s' = routeLayer s.

(** [s'] differs from [s] in the route only: the layer, the three texts
    and the notifications. *)
Definition routeOnly (s s' : State) : Prop :=
  pickupMap s' = pickupMap s /\ deliveryMap s' = deliveryMap s /\
  pickupMarker s' = pickupMarker s /\ deliveryMarker s' = deliveryMarker s /\
  currentFormData s' = currentFormData s /\ value s' = value s /\
  display s' = display s /\ checked s' = checked s /\ tasks s' = tasks s.

(** [routeLayer] in a condition: whether a route is on the maps. *)
Definition routeShown (s : State) : bool :=
  match routeLayer s with
  | Some _ => true
  | None => false
  end.

(** The id of the hidden input that holds a role's coordinates. *)
Definition hiddenId (type : LocationRole) : string := roleName type ++ "CoordsHidden".

Definition other (type : LocationRole) : LocationRole :=
  match type with
  | pickup => delivery
  | delivery => pickup
  end.

(** What [updateLocation] writes in the hidden input. *)
Definition rendered (p : L.LatLng) : string :=
  Str.toFixed 6 (L.lat p) ++ ", " ++ Str.toFixed 6 (L.lng p).

(** A role's part of the invariant: a marker stands on a map, and a
    stored point was written by [updateLocation] from real coordinates
    while the marker stood. *)
Definition roleInv (type : LocationRole) (s : State) : Prop :=
  (markerOf type s <> None -> mapOf type s <> None) /\
  (present (value s (hiddenId type)) = true ->
   markerOf type s <> None /\
   exists la lo, value s (hiddenId type) = rendered (L.latLng (Num la) (Num lo))).

Definition numericRequest (req : RouteRequest) : Prop :=
  exists a b c d,
    pickupLat req = Num a /\ pickupLng req = Num b /\
    deliveryLat req = Num c /\ deliveryLng req = Num d.

Definition Inv (s : State) : Prop :=
  roleInv pickup s /\ roleInv delivery s /\
  (forall req, In (Directions req) (tasks s) ->
               pickupMap s <> None /\ deliveryMap s <> None /\ numericRequest req).

(** [s'] has the maps, the markers' presence, the stored points and no
    more directions requests than [s]. *)
Definition keeps (s s' : State) : Prop :=
  pickupMap s' = pickupMap s /\ deliveryMap s' = deliveryMap s /\
  (pickupMarker s' = None <-> pickupMarker s = None) /\
  (deliveryMarker s' = None <-> deliveryMarker s = None) /\
  value s' "pickupCoordsHidden" = value s "pickupCoordsHidden" /\
  value s' "deliveryCoordsHidden" = value s "deliveryCoordsHidden" /\
  (forall req, In (Directions req) (tasks s') -> In (Directions req) (tasks s)).

(** The request [calculateRoute] builds from the inputs. *)
Definition requestOf (s : State) : RouteRequest :=
  let p := parseCoords (value s "pickupCoordsHidden") in
  let d := parseCoords (value s "deliveryCoordsHidden") in
  let vt := value s "vehicleType" in
  mkRequest (item 0 p) (item 1 p) (item 0 d) (item 1 d) vt
    (if vt =? "motorcycle" then "driving-motorcycle" else "driving-car").

(** A host locale that prints a number without grouping its digits. *)
Definition plainLocale (n : number) : string := Str.toString n.

(** Pickup at Kampala, delivery at (0.35, 32.60), by car. *)
Definition dropOff : L.LatLng := L.latLng (Num 0.35) (Num 32.60).

Definition page_maps : State := exec (initMaps true true) emptyPage.

Definition page_pickup : State := exec (onMapClick defaultCenter pickup) page_maps.

Definition page_located : State := exec (onMapClick dropOff delivery) page_pickup.

Definition page_vehicle : State := exec (setValue "vehicleType" "car") page_located.

Definition page_requested : State := exec calculateRoute page_vehicle.

(** The provider fails, the straight-line route is shown. *)
Definition page_routed : State :=
  exec (calculateRoute_response plainLocale (requestOf page_vehicle) FetchRejected)
       (set_tasks (tasks page_vehicle) page_requested).



(** A phone value that is no Ugandan number. *)
Definition page_badPhone : State :=
  exec (setValue "senderPhone" "12345") emptyPage.

(** ** More definitions for the statements and the proofs *)

(** The rate per kilometer the script picks for a vehicle type, as the
    whole number it is. *)
Definition rateOf (vehicleType : string) : Z :=
  if vehicleType =? "motorcycle" then 1500%Z else 4000%Z.

(** The checks of the submit handler, in one condition. *)
Definition submittable (s : State) : bool :=
  forallb (fun id => truthy (Str.trim (value s id))) required &&
  ugPhoneValid (value s "senderPhone") &&
  ugPhoneValid (value s "recipientPhone") &&
  checked s "termsAgreement".

(** The snapshot the submit handler takes of a page. *)
Definition snapshotOf (timestamp : string) (s : State) : FormData :=
  mkFormData
    [("senderName", value s "senderName");
     ("senderPhone", value s "senderPhone");
     ("senderEmail", value s "senderEmail");
     ("pickupAddress", value s "pickupAddress");
     ("pickupLandmark", value s "pickupLandmark");
     ("pickupCoords", orElse (value s "pickupCoordsHidden") "Not set");
     ("pickupLink", orElse (value s "pickupLink") "No location set");
     ("recipientName", value s "recipientName");
     ("recipientPhone", value s "recipientPhone");
     ("deliveryAddress", value s "deliveryAddress");
     ("deliveryLandmark", value s "deliveryLandmark");
     ("deliveryCoords", orElse (value s "deliveryCoordsHidden") "Not set");
     ("deliveryLink", orElse (value s "deliveryLink") "No location set");
     ("vehicleType", value s "vehicleType");
     ("packageDescription", value s "packageDescription");
     ("specialInstructions", orElse (value s "specialInstructions") "None");
     ("emergencyContact", orElse (value s "emergencyContact") "Not provided");
     ("routeDistance", textContent s "routeDistance");
     ("routeDuration", textContent s "routeDuration");
     ("routeCost", textContent s "routeCost");
     ("timestamp", timestamp)]
    (checked s "callRecipient").

(** The OpenStreetMap link [updateLocation] builds for a point. *)
Definition mapLinkOf (p : L.LatLng) : string :=
  let lat := Str.toFixed 6 (L.lat p) in
  let lng := Str.toFixed 6 (L.lng p) in
  "https://www.openstreetmap.org/?mlat=" ++ lat ++ "&mlon=" ++ lng
  ++ "#map=17/" ++ lat ++ "/" ++ lng.

(** The national number of the phone pattern: 7, then 8 digits. *)
Definition nationalNumber (s : string) : Prop :=
  exists digits,
    s = "7" ++ digits /\ String.length digits = 8%nat /\
    Str.allChars Str.isDigit digits = true.

(** A field of the snapshot, as [formData.name] reads it. *)
Definition fieldOf (name : string) (data : FormData) : option string :=
  option_map snd (find (fun e => fst e =? name) (entries data)).

(** A snapshot that went through the checks of the submit handler. *)
Definition validated (data : FormData) : Prop :=
  (exists v, fieldOf "senderPhone" data = Some v /\ ugPhoneValid v = true) /\
  (exists v, fieldOf "recipientPhone" data = Some v /\ ugPhoneValid v = true) /\
  (forall id, In id required ->
              exists v, fieldOf id data = Some v /\ truthy (Str.trim v) = true).

(** A role's part of the second invariant: the marker rests inside the
    bounds, and a stored point is the marker's position rounded to six
    decimals. *)
Definition roleSafe (type : LocationRole) (s : State) : Prop :=
  (forall p, markerOf type s = Some p -> L.contains UGANDA_BOUNDS p = true) /\
  (present (value s (hiddenId type)) = true ->
   exists la lo,
     markerOf type s = Some (L.latLng (Num la) (Num lo)) /\
     storedPoint (value s (hiddenId type))
     = L.latLng (Num (round6 la)) (Num (round6 lo))).

(** A directions request between two points inside the bounds, for a
    selected vehicle, on the profile of that vehicle. *)
Definition requestSafe (req : RouteRequest) : Prop :=
  L.contains UGANDA_BOUNDS (L.latLng (pickupLat req) (pickupLng req)) = true /\
  L.contains UGANDA_BOUNDS (L.latLng (deliveryLat req) (deliveryLng req)) = true /\
  truthy (vehicleType req) = true /\
  profile req
  = (if vehicleType req =? "motorcycle" then "driving-motorcycle" else "driving-car").

(** What does not depend on the marker and the stored point of a role. *)
Definition restSafe (s : State) : Prop :=
  (forall req, In (Directions req) (tasks s) -> requestSafe req) /\
  (routeLayer s <> None -> pickupMap s <> None /\ deliveryMap s <> None) /\
  (forall data, currentFormData s = Some data -> validated data).

Definition Safe (s : State) : Prop :=
  roleSafe pickup s /\ roleSafe delivery s /\ restSafe s.

(** [s'] has the maps, the markers and the stored points of [s], no more
    directions requests, a route layer only if [s] has one or both maps
    stand, and the snapshot of [s] or a validated one. *)
Definition same (s s' : State) : Prop :=
  pickupMap s' = pickupMap s /\ deliveryMap s' = deliveryMap s /\
  pickupMarker s' = pickupMarker s /\ deliveryMarker s' = deliveryMarker s /\
  value s' "pickupCoordsHidden" = value s "pickupCoordsHidden" /\
  value s' "deliveryCoordsHidden" = value s "deliveryCoordsHidden" /\
  (forall req, In (Directions req) (tasks s') -> In (Directions req) (tasks s)) /\
  (routeLayer s' <> None ->
   routeLayer s <> None \/ (pickupMap s <> None /\ deliveryMap s <> None)) /\
  (forall data, currentFormData s' = Some data ->
                currentFormData s = Some data \/ validated data).

(** A well-formed directions payload of one segment, [m] meters and ten
    minutes long. *)
Definition metres (m : R) : ProviderResponse :=
  HttpResponse true
    (Some (mkGeoJSON
             (Some [mkFeature (Some (mkProperties
                                       (Some [mkSegment (Some (Num m)) (Some (Num 600))])))])
             true)).

(** The request of the sample session, by motorcycle. *)
Definition byMotorcycle : RouteRequest :=
  mkRequest (Num 0.3476) (Num 32.5825) (Num 0.35) (Num 32.60)
    "motorcycle" "driving-motorcycle".

(** The sample session with the provider unreachable, as [page_routed]
    is built. *)
Definition page_awaiting : State := set_tasks (tasks page_vehicle) page_requested.

(** Only the pickup section was opened. *)
Definition page_pickupOnly : State := exec (initMaps true false) emptyPage.

(** A form filled in, agreed to and submitted. *)
Definition page_filled : State :=
  fold_left (fun s kv => exec (setValue (fst kv) (snd kv)) s)
    [("senderName", "Ann"); ("senderPhone", "+256 712 345678");
     ("senderEmail", "ann@example.org"); ("recipientName", "Ben");
     ("recipientPhone", "0712-345-678"); ("packageDescription", "Books");
     ("vehicleType", "motorcycle"); ("pickupLandmark", "Clock tower");
     ("deliveryLandmark", "Market gate")]
    emptyPage.

Definition page_agreed : State :=
  set_checked (fun k => if k =? "termsAgreement" then true else checked page_filled k)
    page_filled.

Definition page_submitted : State := exec (onSubmit "now") page_agreed.

(** ** Tactics *)

(** Unfolds a successful run, one bind at a time. *)
Ltac run_inv H :=
  repeat match type of H with
         | bind ?m _ ?s = (Some _, _) =>
             let a := fresh "a" in let s1 := fresh "s" in
             let H1 := fresh "Hrun" in
             unfold bind at 1 in H;
             destruct (m s) as [[a |] s1] eqn:H1; [| discriminate H]
         end.

(** Settles [keeps] for a handler that ran on a state given field by
    field. *)
Ltac keeps_tac :=
  unfold keeps; cbn;
  repeat split; try reflexivity; try tauto; try congruence;
  try (intros ? Hin;
       first [ exact Hin
             | apply in_app_or in Hin as [Hin | [Hin | []]];
               [exact Hin | discriminate Hin] ]).

(** Settles [same] for a handler that ran on a state given field by
    field. *)
Ltac same_tac :=
  unfold same; cbn;
  repeat split; try reflexivity; try tauto; try congruence; auto;
  try (intros ? Hin;
       first [ exact Hin
             | apply in_app_or in Hin as [Hin | [Hin | []]];
               [exact Hin | discriminate Hin] ]).

(* ================================================================== *)
(** * Theorems: facts about numbers *)
(* ================================================================== *)

Lemma leb_Num (x y : R) : (Num x <=? Num y)%js = true <-> (x <= y)%R.
Proof.
  unfold Number.leb. destruct (Rle_dec x y); split; intros; try easy.
Qed.

Lemma geb_Num (x y : R) : (Num x >=? Num y)%js = true <-> (y <= x)%R.
Proof. unfold Number.geb. apply leb_Num. Qed.

Lemma div_Num (x y : R) : y <> 0%R -> (Num x / Num y)%js = Num (x / y).
Proof.
  intros Hy. unfold Number.div. destruct (Req_dec_T y 0); [contradiction | reflexivity].
Qed.

Lemma round_Num (x : R) (n : Z) :
  (IZR n <= x + / 2 < IZR n + 1)%R -> Math.round (Num x) = Num (IZR n).
Proof. intros H. unfold Math.round. now rewrite (Zfloor_eq n). Qed.

Lemma round_IZR (n : Z) : Math.round (Num (IZR n)) = Num (IZR n).
Proof. apply round_Num. lra. Qed.

(* ================================================================== *)
(** * Facts about strings *)
(* ================================================================== *)

Lemma append_nil_r (s : string) : s ++ "" = s.
Proof. induction s; simpl; congruence. Qed.

Lemma allChars_app p a b : Str.allChars p (a ++ b) = Str.allChars p a && Str.allChars p b.
Proof. induction a; simpl; [reflexivity | now rewrite IHa, andb_assoc]. Qed.

Lemma allChars_impl (p q : ascii -> bool) s :
  (forall c, p c = true -> q c = true) -> Str.allChars p s = true -> Str.allChars q s = true.
Proof.
  intros Hpq. induction s; simpl; [easy |].
  rewrite !andb_true_iff. intros [? ?]; auto.
Qed.

Lemma digitChar_spec (d : N) :
  (d < 10)%N -> Str.isDigit (Str.digitChar d) = true /\ Str.digitValue (Str.digitChar d) = d.
Proof.
  intros Hd. unfold Str.isDigit, Str.digitValue, Str.digitChar.
  rewrite N_ascii_embedding by lia.
  split; [| lia].
  apply andb_true_iff; split; apply N.leb_le; lia.
Qed.

Lemma fixedDigits_digits k n : Str.allChars Str.isDigit (Str.fixedDigits k n) = true.
Proof.
  induction k; simpl; [reflexivity |].
  rewrite IHk, andb_true_r. apply digitChar_spec. apply N.mod_lt. lia.
Qed.

Lemma readDigits_stops acc rest : stops rest -> Str.readDigits acc rest = (acc, O, rest).
Proof. destruct rest; simpl; [easy |]. now intros ->. Qed.

Lemma readDigits_fixedDigits k n acc rest :
  stops rest ->
  Str.readDigits acc (Str.fixedDigits k n ++ rest)
  = ((acc * 10 ^ N.of_nat k + n mod 10 ^ N.of_nat k)%N, k, rest).
Proof.
  intros Hrest. revert acc. induction k; intros acc.
  - simpl Str.fixedDigits. simpl append. rewrite readDigits_stops by assumption.
    change (N.of_nat 0) with 0%N. rewrite N.pow_0_r, N.mod_1_r. f_equal. f_equal. lia.
  - cbn [Str.fixedDigits append Str.readDigits].
    set (d := ((n / 10 ^ N.of_nat k) mod 10)%N).
    assert (Hd : (d < 10)%N) by (apply N.mod_lt; lia).
    destruct (digitChar_spec Hd) as [-> ->].
    rewrite IHk. f_equal. f_equal.
    rewrite Nat2N.inj_succ, N.pow_succ_r'.
    rewrite (N.mul_comm 10), N.Div0.mod_mul_r. fold d. lia.
Qed.

Lemma numDigitsAux_bound fuel n :
  (n < 2 ^ N.of_nat fuel)%N -> (n < 10 ^ N.of_nat (Str.numDigitsAux fuel n))%N.
Proof.
  revert n. induction fuel; intros n Hn.
  - simpl in *. lia.
  - cbn [Str.numDigitsAux]. destruct (N.ltb_spec n 10) as [Hlt | Hge].
    + simpl. lia.
    + rewrite Nat2N.inj_succ, N.pow_succ_r'.
      assert (H : (n / 10 < 10 ^ N.of_nat (Str.numDigitsAux fuel (n / 10)))%N).
      { apply IHfuel. rewrite Nat2N.inj_succ, N.pow_succ_r' in Hn.
        apply N.Div0.div_lt_upper_bound. lia. }
      pose proof (N.Div0.mul_div_le n 10) as H1.
      pose proof (N.mod_lt n 10 ltac:(lia)) as H2.
      pose proof (N.Div0.div_mod n 10) as H3. lia.
Qed.

Lemma numDigits_bound n : (n < 10 ^ N.of_nat (Str.numDigits n))%N.
Proof.
  unfold Str.numDigits. apply numDigitsAux_bound.
  rewrite N2Nat.id. apply N.size_gt.
Qed.

Lemma numDigits_pos n : exists k, Str.numDigits n = S k.
Proof.
  unfold Str.numDigits. destruct (N.to_nat (N.size n)); simpl; [now exists O |].
  destruct (n <? 10)%N; eauto.
Qed.

Lemma natString_digits n : Str.allChars Str.isDigit (Str.natString n) = true.
Proof. apply fixedDigits_digits. Qed.

Lemma readDigits_natString n rest :
  stops rest ->
  Str.readDigits 0 (Str.natString n ++ rest) = (n, Str.numDigits n, rest).
Proof.
  intros Hrest. unfold Str.natString. rewrite readDigits_fixedDigits by assumption.
  rewrite N.mod_small by apply numDigits_bound. reflexivity.
Qed.

(** ** Splitting and trimming *)

Lemma plain_noComma s : Str.allChars plain s = true -> Str.allChars noComma s = true.
Proof.
  apply allChars_impl. unfold plain, noComma. intros c H.
  now apply andb_true_iff in H.
Qed.

Lemma split_noComma s : Str.allChars noComma s = true -> Str.split "," s = [s].
Proof.
  induction s as [| c s IH]; simpl; [reflexivity |].
  unfold noComma at 1. rewrite andb_true_iff, negb_true_iff.
  intros [Hc Hs]. rewrite Hc, (IH Hs). reflexivity.
Qed.

Lemma split_app_comma a rest :
  Str.allChars noComma a = true ->
  Str.split "," (a ++ String "," rest) = a :: Str.split "," rest.
Proof.
  induction a as [| c a IH]; simpl; [reflexivity |].
  unfold noComma at 1. rewrite andb_true_iff, negb_true_iff.
  intros [Hc Ha]. rewrite Hc, (IH Ha). reflexivity.
Qed.

Lemma trimStart_plain s : Str.allChars plain s = true -> Str.trimStart s = s.
Proof.
  destruct s as [| c s]; simpl; [reflexivity |].
  unfold plain at 1. rewrite !andb_true_iff, !negb_true_iff.
  now intros [[-> _] _].
Qed.

Lemma trimEnd_plain s : Str.allChars plain s = true -> Str.trimEnd s = s.
Proof.
  induction s as [| c s IH]; simpl; [reflexivity |].
  unfold plain at 1. rewrite !andb_true_iff, !negb_true_iff.
  intros [[Hc _] Hs]. rewrite (IH Hs), Hc. now destruct s.
Qed.

Lemma trim_plain s : Str.allChars plain s = true -> Str.trim s = s.
Proof.
  intros H. unfold Str.trim. now rewrite trimStart_plain, trimEnd_plain.
Qed.

Lemma trim_space_plain s : Str.allChars plain s = true -> Str.trim (String " " s) = s.
Proof.
  intros H. unfold Str.trim. simpl Str.trimStart.
  now rewrite trimStart_plain, trimEnd_plain.
Qed.

(** The two coordinates of a stored pair are read back one by one. *)
Lemma parseCoords_pair a b :
  Str.allChars plain a = true -> Str.allChars plain b = true ->
  parseCoords (a ++ ", " ++ b) = [Str.parseFloat a; Str.parseFloat b].
Proof.
  intros Ha Hb. unfold parseCoords.
  change (a ++ ", " ++ b) with (a ++ String "," (String " " b)).
  rewrite split_app_comma by now apply plain_noComma.
  rewrite split_noComma.
  - simpl. now rewrite trim_plain, trim_space_plain.
  - simpl. now apply plain_noComma.
Qed.

(** ** The digits of [toFixed] *)

Lemma isDigit_plain c : Str.isDigit c = true -> plain c = true.
Proof.
  unfold Str.isDigit, plain, Str.isWhiteSpace.
  intros H. apply andb_true_iff in H as [H1 H2].
  apply N.leb_le in H1, H2.
  apply andb_true_iff; split; apply negb_true_iff.
  - apply orb_false_iff; split; [apply orb_false_iff; split |].
    + apply andb_false_iff. right. apply N.leb_gt. lia.
    + apply N.eqb_neq. lia.
    + apply N.eqb_neq. lia.
  - apply Ascii.eqb_neq. intros ->. simpl in H1. lia.
Qed.

Lemma natString_plain n : Str.allChars plain (Str.natString n) = true.
Proof. eapply allChars_impl; [apply isDigit_plain | apply natString_digits]. Qed.

Lemma fixedDigits_plain k n : Str.allChars plain (Str.fixedDigits k n) = true.
Proof. eapply allChars_impl; [apply isDigit_plain | apply fixedDigits_digits]. Qed.

Lemma toFixed_plain f a : Str.allChars plain (Str.toFixed f a) = true.
Proof.
  destruct a as [x |]; [| reflexivity].
  unfold Str.toFixed. rewrite !allChars_app, natString_plain.
  set (n := Z.to_N _).
  assert (Hfrac : Str.allChars plain
            match f with O => "" | S _ => "." ++ Str.fixedDigits f n end = true).
  { destruct f; [reflexivity |].
    change ("." ++ Str.fixedDigits (S f) n) with (String "." (Str.fixedDigits (S f) n)).
    cbn [Str.allChars]. now rewrite fixedDigits_plain. }
  rewrite Hfrac. now destruct (Rlt_dec x 0).
Qed.

Lemma readSign_digit c s :
  Str.isDigit c = true -> Str.readSign (String c s) = (false, String c s).
Proof.
  destruct c as [[] [] [] [] [] [] [] []]; simpl; intros H; try reflexivity; discriminate.
Qed.

Lemma natString_cons n :
  exists c s, Str.natString n = String c s /\ Str.isDigit c = true.
Proof.
  unfold Str.natString. destruct (numDigits_pos n) as [k ->].
  cbn [Str.fixedDigits]. eexists _, _. split; [reflexivity |].
  apply digitChar_spec. apply N.mod_lt. lia.
Qed.

Lemma IZR_pow10 (k : nat) : IZR (Z.of_N (10 ^ N.of_nat k)) = (10 ^ k)%R.
Proof.
  rewrite N2Z.inj_pow, nat_N_Z. change (Z.of_N 10) with 10%Z.
  now rewrite <- pow_IZR.
Qed.

Lemma scaled_nonneg f x : (0 <= scaled f x)%Z.
Proof.
  unfold scaled. apply Zfloor_lub. simpl.
  pose proof (Rabs_pos x). pose proof (pow_lt 10 f ltac:(lra)). nra.
Qed.

(** Reading back what [toFixed] printed gives the printed decimal. *)
Lemma parseFloat_toFixed f x :
  Str.parseFloat (Str.toFixed (S f) (Num x))
  = Num ((if Rlt_dec x 0 then -1 else 1) * (IZR (scaled (S f) x) / 10 ^ S f))%R.
Proof.
  unfold Str.parseFloat.
  rewrite trimStart_plain by apply toFixed_plain.
  unfold Str.toFixed. fold (scaled (S f) x).
  set (n := Z.to_N (scaled (S f) x)).
  assert (Hn : Z.of_N n = scaled (S f) x)
    by (unfold n; rewrite Z2N.id; [reflexivity | apply scaled_nonneg]).
  set (ip := (n / 10 ^ N.of_nat (S f))%N).
  assert (Hread :
    Str.readDigits 0 (Str.natString ip ++ "." ++ Str.fixedDigits (S f) n)
    = (ip, Str.numDigits ip, "." ++ Str.fixedDigits (S f) n)).
  { apply readDigits_natString. reflexivity. }
  assert (Hfrac :
    Str.readDigits 0 (Str.fixedDigits (S f) n)
    = ((n mod 10 ^ N.of_nat (S f))%N, S f, "")).
  { rewrite <- (append_nil_r (Str.fixedDigits (S f) n)) at 1.
    rewrite readDigits_fixedDigits by exact I. reflexivity. }
  assert (Hval :
    (IZR (Z.of_N ip) + IZR (Z.of_N (n mod 10 ^ N.of_nat (S f))) / 10 ^ S f
     = IZR (scaled (S f) x) / 10 ^ S f)%R).
  { rewrite <- Hn. pose proof (N.Div0.div_mod n (10 ^ N.of_nat (S f))) as Hdm.
    fold ip in Hdm. rewrite Hdm at 2.
    rewrite N2Z.inj_add, N2Z.inj_mul, plus_IZR, mult_IZR, IZR_pow10.
    pose proof (pow_lt 10 (S f) ltac:(lra)). field. lra. }
  assert (Hsign :
    Str.readSign (Str.natString ip ++ "." ++ Str.fixedDigits (S f) n)
    = (false, Str.natString ip ++ "." ++ Str.fixedDigits (S f) n)).
  { destruct (natString_cons ip) as (c & s & -> & Hc). simpl. now apply readSign_digit. }
  destruct (numDigits_pos ip) as [k Hk].
  destruct (Rlt_dec x 0).
  - change ("-" ++ Str.natString ip ++ "." ++ Str.fixedDigits (S f) n)
      with (String "-" (Str.natString ip ++ "." ++ Str.fixedDigits (S f) n)).
    cbn [Str.readSign]. rewrite Hread. cbn [append]. rewrite Hfrac, Hk.
    cbn [Str.readExponent powerRZ]. rewrite Hval. f_equal. lra.
  - change ("" ++ Str.natString ip ++ "." ++ Str.fixedDigits (S f) n)
      with (Str.natString ip ++ "." ++ Str.fixedDigits (S f) n).
    rewrite Hsign, Hread. cbn [append]. rewrite Hfrac, Hk.
    cbn [Str.readExponent powerRZ]. rewrite Hval. f_equal. lra.
Qed.

Lemma parseFloat_toFixed6 x : Str.parseFloat (Str.toFixed 6 (Num x)) = Num (round6 x).
Proof. apply parseFloat_toFixed. Qed.

Open Scope R_scope.
(* ================================================================== *)
(** * Facts about the haversine distance *)
(* ================================================================== *)

(** Numbers are the reals they denote: these are facts of the formula
    evaluated exactly, not of its evaluation in floating point. *)

Lemma sin_half_sqr (x : R) : (sin (x / 2))² = (1 - cos x) / 2.
Proof.
  pose proof (cos_2a_sin (x / 2)) as H.
  replace (2 * (x / 2)) with x in H by field.
  unfold Rsqr. lra.
Qed.

Lemma Rsqr_sin_bound (x : R) : 0 <= (sin x)² <= 1.
Proof.
  pose proof (sin2_cos2 x). pose proof (Rle_0_sqr (sin x)).
  pose proof (Rle_0_sqr (cos x)). lra.
Qed.

Lemma hav_range lat1 lon1 lat2 lon2 : 0 <= hav lat1 lon1 lat2 lon2 <= 1.
Proof.
  unfold hav.
  set (p := radians lat1). set (q := radians lat2).
  set (u := (sin (radians (lon2 - lon1) / 2))²).
  replace (radians (lat2 - lat1)) with (q - p)
    by (unfold p, q, radians; field).
  rewrite sin_half_sqr, cos_minus.
  pose proof (Rsqr_sin_bound (radians (lon2 - lon1) / 2)) as Hu. fold u in Hu.
  pose proof (COS_bound (q - p)) as H0. rewrite cos_minus in H0.
  pose proof (COS_bound (q + p)) as H1. rewrite cos_plus in H1.
  split; nra.
Qed.

Lemma hav_sym lat1 lon1 lat2 lon2 : hav lat1 lon1 lat2 lon2 = hav lat2 lon2 lat1 lon1.
Proof.
  unfold hav.
  replace (radians (lat1 - lat2) / 2) with (- (radians (lat2 - lat1) / 2))
    by (unfold radians; field).
  replace (radians (lon1 - lon2) / 2) with (- (radians (lon2 - lon1) / 2))
    by (unfold radians; field).
  rewrite !sin_neg, <- !Rsqr_neg. ring.
Qed.

Lemma hav_same lat lon : hav lat lon lat lon = 0.
Proof.
  unfold hav, radians.
  replace ((lat - lat) * PI / 180 / 2) with 0 by field.
  replace ((lon - lon) * PI / 180 / 2) with 0 by field.
  rewrite sin_0. unfold Rsqr. ring.
Qed.

(** On the first quadrant, [atan2] of the two square roots is the arcsine. *)
Lemma atan2_sqrt (a : R) :
  0 <= a <= 1 -> Math.atan2R (sqrt a) (sqrt (1 - a)) = asin (sqrt a).
Proof.
  intros [H0 H1]. unfold Math.atan2R.
  destruct (Req_dec_T a 1) as [-> | Hne].
  - replace (1 - 1) with 0 by ring. rewrite sqrt_0, sqrt_1, asin_1.
    destruct (Rlt_dec 0 0); [lra |]. destruct (Rlt_dec 0 1); [reflexivity | lra].
  - assert (Hpos : 0 < sqrt (1 - a)) by (apply sqrt_lt_R0; lra).
    destruct (Rlt_dec 0 (sqrt (1 - a))); [| contradiction].
    assert (Hlt : sqrt a < 1).
    { rewrite <- sqrt_1. apply sqrt_lt_1_alt. lra. }
    pose proof (sqrt_pos a).
    rewrite asin_atan by lra.
    now rewrite Rsqr_sqrt by assumption.
Qed.

(** The script's distance is the haversine distance. *)
Lemma calculateDistance_Num lat1 lon1 lat2 lon2 :
  calculateDistance (Num lat1) (Num lon1) (Num lat2) (Num lon2)
  = Num (haversineKm lat1 lon1 lat2 lon2).
Proof.
  unfold calculateDistance, haversineKm.
  cbn [Number.sub Number.mul Number.add Number.lift2 Math.PI].
  rewrite !div_Num by lra.
  cbn [Math.sin Math.cos Number.lift1 Number.mul Number.add Number.sub Number.lift2].
  set (a := (_ + _)%R).
  assert (Ha : a = hav lat1 lon1 lat2 lon2).
  { unfold a, hav, radians, Rsqr. ring. }
  pose proof (hav_range lat1 lon1 lat2 lon2) as Hr. rewrite <- Ha in Hr.
  unfold Math.sqrt.
  destruct (Rlt_dec a 0); [lra |]. destruct (Rlt_dec (1 - a) 0); [lra |].
  cbn [Math.atan2 Number.lift2 Number.mul].
  rewrite atan2_sqrt by assumption. now rewrite Ha.
Qed.

Lemma calculateDistance_NaN lat1 lon1 lat2 lon2 :
  Number.isNaN lat1 || Number.isNaN lon1 || Number.isNaN lat2 || Number.isNaN lon2 = true ->
  calculateDistance lat1 lon1 lat2 lon2 = NaN.
Proof.
  unfold calculateDistance.
  destruct lat1, lon1, lat2, lon2; simpl; intros H; try discriminate;
    repeat (match goal with
            | |- context [Req_dec_T ?a ?b] => destruct (Req_dec_T a b); [lra |]; simpl
            end);
    reflexivity.
Qed.

(** The distance does not depend on the direction, NaN included. *)
Lemma calculateDistance_sym lat1 lon1 lat2 lon2 :
  calculateDistance lat1 lon1 lat2 lon2 = calculateDistance lat2 lon2 lat1 lon1.
Proof.
  destruct (Number.isNaN lat1 || Number.isNaN lon1 || Number.isNaN lat2 || Number.isNaN lon2)
    eqn:E.
  - rewrite !calculateDistance_NaN; [reflexivity | | assumption].
    destruct lat1, lon1, lat2, lon2; simpl in *; congruence.
  - destruct lat1, lon1, lat2, lon2; simpl in E; try discriminate.
    rewrite !calculateDistance_Num. unfold haversineKm. now rewrite hav_sym.
Qed.

Close Scope R_scope.
(* ================================================================== *)
(** * Facts about regular expressions *)
(* ================================================================== *)

Import Regex.

Lemma app_eq_nil_s (a b : string) : a ++ b = "" -> a = "" /\ b = "".
Proof. destruct a; simpl; [auto | discriminate]. Qed.

Lemma lang_Cat r1 r2 s :
  lang (Cat r1 r2) s <-> exists s1 s2, s = s1 ++ s2 /\ lang r1 s1 /\ lang r2 s2.
Proof.
  split.
  - inversion 1; subst; eauto.
  - intros (s1 & s2 & -> & H1 & H2). now constructor.
Qed.

Lemma lang_Alt r1 r2 s : lang (Alt r1 r2) s <-> lang r1 s \/ lang r2 s.
Proof.
  split.
  - inversion 1; subst; auto.
  - intros [H | H]; [now apply lang_alt_l | now apply lang_alt_r].
Qed.

Lemma lang_Repeat_S n r s :
  lang (Repeat (S n) r) s
  <-> exists s1 s2, s = s1 ++ s2 /\ lang r s1 /\ lang (Repeat n r) s2.
Proof.
  split.
  - inversion 1; subst; eauto.
  - intros (s1 & s2 & -> & H1 & H2). now constructor.
Qed.

Lemma lang_Repeat_nil n r : lang r "" -> lang (Repeat n r) "".
Proof.
  intros H. induction n; [constructor |].
  change "" with ("" ++ ""). now constructor.
Qed.

Lemma nullable_lang r : nullable r = true <-> lang r "".
Proof.
  induction r as [| | c | p | r1 IH1 r2 IH2 | r1 IH1 r2 IH2 | n r IH]; simpl.
  - split; [discriminate | inversion 1].
  - split; [constructor | reflexivity].
  - split; [discriminate | inversion 1].
  - split; [discriminate | inversion 1].
  - rewrite andb_true_iff, IH1, IH2, lang_Cat. split.
    + intros [H1 H2]. now exists "", "".
    + intros (s1 & s2 & E & H1 & H2). symmetry in E.
      apply app_eq_nil_s in E as [-> ->]. auto.
  - now rewrite orb_true_iff, IH1, IH2, lang_Alt.
  - destruct n.
    + split; [constructor | reflexivity].
    + rewrite IH, lang_Repeat_S. split.
      * intros H. exists "", "". repeat split; [assumption |]. now apply lang_Repeat_nil.
      * intros (s1 & s2 & E & H1 & _). symmetry in E.
        apply app_eq_nil_s in E as [-> _]. assumption.
Qed.

Lemma lang_Repeat_0 r s : lang (Repeat O r) s <-> s = "".
Proof. split; [inversion 1; reflexivity | intros ->; constructor]. Qed.

(** A repetition that reads a character reads it in one of its copies;
    the copies before it read nothing. *)
Lemma lang_Repeat_cons n r c s :
  lang (Repeat (S n) r) (String c s)
  <-> exists s1 s2, s = s1 ++ s2 /\ lang r (String c s1) /\ lang (Repeat n r) s2.
Proof.
  split.
  - revert s. induction n as [| n IH]; intros s H;
      apply lang_Repeat_S in H as (t1 & t2 & E & H1 & H2).
    + apply lang_Repeat_0 in H2 as ->. rewrite append_nil_r in E. subst t1.
      exists s, "". rewrite append_nil_r. repeat split; [assumption | constructor].
    + destruct t1 as [| d t1]; simpl in E.
      * subst t2. destruct (IH _ H2) as (s1 & s2 & -> & Hs1 & Hs2).
        exists s1, s2. repeat split; [assumption |].
        change s2 with ("" ++ s2). now constructor.
      * injection E as <- ->. now exists t1, t2.
  - intros (s1 & s2 & -> & H1 & H2).
    change (String c (s1 ++ s2)) with (String c s1 ++ s2). now constructor.
Qed.

Lemma deriv_lang c r : forall s, lang (deriv c r) s <-> lang r (String c s).
Proof.
  induction r as [| | d | p | r1 IH1 r2 IH2 | r1 IH1 r2 IH2 | n r IH]; intros s; simpl.
  - split; inversion 1.
  - split; inversion 1.
  - destruct (Ascii.eqb_spec c d) as [-> | Hne].
    + split; [inversion 1; constructor | inversion 1; constructor].
    + split; [inversion 1 | inversion 1; congruence].
  - destruct (p c) eqn:Hp.
    + split; [inversion 1; now constructor | inversion 1; constructor].
    + split; [inversion 1 | inversion 1; congruence].
  - assert (Hcat : lang (Cat r1 r2) (String c s)
                   <-> lang (Cat (deriv c r1) r2) s \/ (lang r1 "" /\ lang (deriv c r2) s)).
    { rewrite !lang_Cat. split.
      - intros (s1 & s2 & E & H1 & H2). destruct s1 as [| d s1]; simpl in E.
        + subst s2. right. split; [assumption | now apply IH2].
        + injection E as <- ->. left. exists s1, s2. repeat split; [| assumption].
          now apply IH1.
      - intros [(s1 & s2 & -> & H1 & H2) | [H1 H2]].
        + exists (String c s1), s2. repeat split; [| assumption]. now apply IH1.
        + exists "", (String c s). repeat split; [assumption | now apply IH2]. }
    rewrite Hcat. destruct (nullable r1) eqn:Hn.
    + rewrite lang_Alt. apply nullable_lang in Hn. tauto.
    + split; [auto |]. intros [H | [H _]]; [assumption |].
      apply nullable_lang in H. congruence.
  - now rewrite !lang_Alt, IH1, IH2.
  - destruct n.
    + split; inversion 1.
    + rewrite lang_Repeat_cons, lang_Cat. split.
      * intros (s1 & s2 & -> & H1 & H2). exists s1, s2. repeat split; [| assumption].
        now apply IH.
      * intros (s1 & s2 & -> & H1 & H2). exists s1, s2. repeat split; [| assumption].
        now apply IH.
Qed.

(** The matcher decides the language. *)
Lemma test_lang r s : test r s = true <-> lang r s.
Proof.
  revert r. induction s as [| c s IH]; intros r; simpl.
  - apply nullable_lang.
  - now rewrite IH, deriv_lang.
Qed.

Lemma lang_lit w s : lang (lit w) s <-> s = w.
Proof.
  revert s. induction w as [| c w IH]; intros s; simpl.
  - split; [inversion 1; reflexivity | intros ->; constructor].
  - rewrite lang_Cat. split.
    + intros (s1 & s2 & -> & H1 & H2). inversion H1; subst. simpl.
      f_equal. now apply IH.
    + intros ->. exists (String c ""), w. repeat split; [constructor | now apply IH].
Qed.

Lemma lang_Repeat_Class n p s :
  lang (Repeat n (Class p)) s <-> String.length s = n /\ Str.allChars p s = true.
Proof.
  revert s. induction n as [| n IH]; intros s.
  - rewrite lang_Repeat_0. split; [now intros -> | intros [H _]; now destruct s].
  - rewrite lang_Repeat_S. split.
    + intros (s1 & s2 & -> & H1 & H2). inversion H1; subst. simpl.
      apply IH in H2 as [-> ->]. now rewrite H0.
    + intros [Hl Hp]. destruct s as [| c s]; [discriminate |]. simpl in *.
      apply andb_true_iff in Hp as [Hc Hs]. injection Hl as Hl.
      exists (String c ""), s. repeat split; [now constructor | now apply IH].
Qed.

(** The phone pattern denotes the spec's shape. *)
Lemma ugPhonePattern_shape s : test ugPhonePattern s = true <-> ugandanShape s.
Proof.
  rewrite test_lang. unfold ugPhonePattern, ugandanShape. rewrite lang_Cat. split.
  - intros (prefix & rest & -> & Hp & Hr).
    apply lang_Cat in Hr as (seven & digits & -> & H7 & Hd).
    inversion H7; subst. apply lang_Repeat_Class in Hd as [Hl Hd].
    exists prefix, digits. repeat split; try assumption.
    rewrite !lang_Alt, !lang_lit in Hp. tauto.
  - intros (prefix & digits & -> & Hp & Hl & Hd).
    exists prefix, ("7" ++ digits). repeat split.
    + rewrite !lang_Alt, !lang_lit. tauto.
    + apply lang_Cat. exists "7", digits. repeat split; [constructor |].
      now apply lang_Repeat_Class.
Qed.

Lemma separators_class c :
  test separators (String c "") = Str.isWhiteSpace c || Ascii.eqb c "-".
Proof.
  unfold separators. simpl. now destruct (Str.isWhiteSpace c), (Ascii.eqb c "-").
Qed.

Lemma removeAll_ext p q s :
  (forall c, p c = q c) -> Str.removeAll p s = Str.removeAll q s.
Proof. intros H. induction s; simpl; [reflexivity |]. now rewrite H, IHs. Qed.

Lemma ugPhoneValid_cleaned v :
  ugPhoneValid v = truthy v && test ugPhonePattern (withoutSeparators v).
Proof.
  unfold ugPhoneValid, withoutSeparators.
  rewrite (removeAll_ext _ (fun c => Str.isWhiteSpace c || Ascii.eqb c "-"))
    by apply separators_class.
  now destruct (truthy v).
Qed.

(* ================================================================== *)
(** * The bounds gate, readiness and rejected selections *)
(* ================================================================== *)

Lemma contains_UGANDA_Num (la lo : R) :
  L.contains UGANDA_BOUNDS (L.latLng (Num la) (Num lo)) = true
  <-> (-1.5 <= la <= 4.9 /\ 29.5 <= lo <= 35.1)%R.
Proof.
  unfold L.contains, UGANDA_BOUNDS, L.latLngBounds. cbn [L.lat L.lng L.southWest L.northEast fst snd].
  rewrite !andb_true_iff, !geb_Num, !leb_Num. tauto.
Qed.

Lemma contains_NaN b (v : number) :
  L.contains b (L.latLng NaN v) = false /\ L.contains b (L.latLng v NaN) = false.
Proof.
  unfold L.contains, Number.geb, Number.leb. cbn [L.lat L.lng]. split.
  - destruct (L.lat (L.southWest b)); reflexivity.
  - destruct v, (L.lat (L.southWest b)), (L.lat (L.northEast b)), (L.lng (L.southWest b));
      cbn; repeat (match goal with |- context [Rle_dec ?a ?b] => destruct (Rle_dec a b) end);
      reflexivity.
Qed.

(** Claim C7.  For every location state, isReady() is true if and only if
    both the pickup and the delivery role hold a present point and both
    points, read back from the store, satisfy the boundary validator. *)
Theorem isReady_iff (s : State) :
  isReady s = true
  <-> present (value s "pickupCoordsHidden") = true /\
      present (value s "deliveryCoordsHidden") = true /\
      L.contains UGANDA_BOUNDS (storedPoint (value s "pickupCoordsHidden")) = true /\
      L.contains UGANDA_BOUNDS (storedPoint (value s "deliveryCoordsHidden")) = true.
Proof.
  unfold isReady, exec, checkRouteAvailability, present, storedPoint.
  cbn [bind getValue fst snd].
  set (pc := value s "pickupCoordsHidden"). set (dc := value s "deliveryCoordsHidden").
  destruct (truthy pc), (negb (pc =? "Not set")), (truthy dc), (negb (dc =? "Not set"));
    cbn [andb]; try (cbn; intuition discriminate).
  destruct (L.contains UGANDA_BOUNDS _), (L.contains UGANDA_BOUNDS _);
    cbn; intuition discriminate.
Qed.

(** Claim C8.  For every candidate point that fails the boundary
    validator, selecting it by click, search, geolocation or drag is
    rejected with a notification and mutates no entry of the location
    store: the page differs by that notification only (and, for a drag,
    by the marker going back). *)
Theorem rejected_selection_keeps_store (s : State) (p : L.LatLng) (type : LocationRole) :
  L.contains UGANDA_BOUNDS p = false ->
  (* click *)
  exec (onMapClick p type) s
  = set_notifications
      (notifications s ++ ["Location outside Uganda — pick a point inside Uganda."]) s /\
  (* search *)
  exec (onMarkGeocode p type) s
  = set_notifications
      (notifications s ++
       ["Search result is outside Uganda — please pick a location inside Uganda."]) s /\
  (* geolocation *)
  exec (getCurrentLocation_success p type) s
  = set_notifications
      (notifications s ++
       ["Your current location is outside Uganda. Please set a location inside Uganda."]) s /\
  (* drag: the marker, left at [p], goes back; nothing else moves *)
  (exists back,
      exec (onMarkerDragEnd type) (set_markerOf type (Some p) s)
      = set_notifications
          (notifications s ++
           ["Marker outside Uganda — resetting to last valid position."])
          (set_markerOf type (Some back) s)) /\
  (* so no input of the store changes *)
  value (exec (onMapClick p type) s) = value s /\
  value (exec (onMarkGeocode p type) s) = value s /\
  value (exec (getCurrentLocation_success p type) s) = value s /\
  value (exec (onMarkerDragEnd type) (set_markerOf type (Some p) s)) = value s.
Proof.
  intros Hout.
  assert (Hclick : exec (onMapClick p type) s
    = set_notifications
        (notifications s ++ ["Location outside Uganda — pick a point inside Uganda."]) s).
  { unfold onMapClick. now rewrite Hout. }
  assert (Hsearch : exec (onMarkGeocode p type) s
    = set_notifications
        (notifications s ++
         ["Search result is outside Uganda — please pick a location inside Uganda."]) s).
  { unfold onMarkGeocode. now rewrite Hout. }
  assert (Hgeo : exec (getCurrentLocation_success p type) s
    = set_notifications
        (notifications s ++
         ["Your current location is outside Uganda. Please set a location inside Uganda."]) s).
  { unfold getCurrentLocation_success. destruct p as [la lo]. cbn [L.lat L.lng].
    now rewrite Hout. }
  assert (Hdrag : exists back,
      exec (onMarkerDragEnd type) (set_markerOf type (Some p) s)
      = set_notifications
          (notifications s ++
           ["Marker outside Uganda — resetting to last valid position."])
          (set_markerOf type (Some back) s)).
  { unfold onMarkerDragEnd, exec.
    destruct type; cbn [bind get prop markerOf set_markerOf pickupMarker deliveryMarker
                        set_pickupMarker set_deliveryMarker ret];
      rewrite Hout; cbn [negb];
      cbn [bind showNotification modify getValue roleName append value set_notifications
             set_pickupMarker set_deliveryMarker];
      match goal with
      | |- context [if ?c then _ else _] => destruct c
      end; eexists; reflexivity. }
  repeat split; try assumption.
  - now rewrite Hclick.
  - now rewrite Hsearch.
  - now rewrite Hgeo.
  - destruct Hdrag as [back ->]. now destruct type.
Qed.
(* ================================================================== *)
(** * Phone validation *)
(* ================================================================== *)

Lemma ugandanShape_nonempty s : ugandanShape s -> s <> "".
Proof.
  intros (prefix & digits & -> & Hp & _) E.
  apply app_eq_nil_s in E as [_ E]. discriminate.
Qed.

Lemma ugPhoneValid_shape v : ugPhoneValid v = true <-> ugandanShape (withoutSeparators v).
Proof.
  rewrite ugPhoneValid_cleaned, andb_true_iff, ugPhonePattern_shape.
  split; [tauto |]. intros H. split; [| assumption].
  destruct v; [| reflexivity]. now apply ugandanShape_nonempty in H.
Qed.

Lemma onSubmit_rejects s timestamp :
  ugPhoneValid (value s "senderPhone") = false \/
  ugPhoneValid (value s "recipientPhone") = false ->
  exists msg,
    exec (onSubmit timestamp) s = set_notifications (notifications s ++ [msg]) s.
Proof.
  intros H. unfold onSubmit, exec. cbn [bind get].
  destruct (existsb _ required); [eexists; reflexivity |].
  destruct (ugPhoneValid (value s "senderPhone")); cbn [negb]; [| eexists; reflexivity].
  destruct (ugPhoneValid (value s "recipientPhone")); cbn [negb]; [| eexists; reflexivity].
  destruct H; discriminate.
Qed.

(** Claim C10.  A phone value is accepted if and only if, once its spaces
    (the white space [\s] matches) and hyphens are removed, it is +256, 0
    or 256, then the digit 7, then exactly 8 digits; and when the sender's
    or the recipient's phone fails this, submission stops at a
    notification, with no request sent. *)
Theorem phone_validation (s : State) (timestamp v : string) :
  (ugPhoneValid v = true <-> ugandanShape (withoutSeparators v)) /\
  (ugPhoneValid (value s "senderPhone") = false \/
   ugPhoneValid (value s "recipientPhone") = false ->
   exists msg,
     exec (onSubmit timestamp) s = set_notifications (notifications s ++ [msg]) s /\
     tasks (exec (onSubmit timestamp) s) = tasks s).
Proof.
  split; [apply ugPhoneValid_shape |].
  intros H. destruct (onSubmit_rejects s timestamp H) as [msg ->].
  now exists msg.
Qed.

(* ================================================================== *)
(** * Running the handlers *)
(* ================================================================== *)

Lemma bind_Some A B (m : M A) (k : A -> M B) s b s' :
  bind m k s = (Some b, s') ->
  exists a s1, m s = (Some a, s1) /\ k a s1 = (Some b, s').
Proof.
  unfold bind. destruct (m s) as [[a |] s1]; [eauto | discriminate].
Qed.

Lemma prop_Some A (o : option A) s a s' : prop o s = (Some a, s') -> o = Some a /\ s' = s.
Proof. destruct o; cbn; intros H; inversion H; auto. Qed.

(** What the try block returns, when it returns. *)
Lemma calculateRoute_try_result tls req response s r s' :
  calculateRoute_try tls req response s = (Some r, s') ->
  let rate := if vehicleType req =? "motorcycle" then RATE_MOTORCYCLE else RATE_CAR in
  source r = Primary /\
  costEstimate r = Math.round (BASE_FEE + Math.round (distanceKm r) * rate)%js /\
  exists data f fs ps seg segs,
    response = HttpResponse true (Some data) /\ drawable data = true /\
    features data = Some (f :: fs) /\ properties f = Some ps /\
    segments ps = Some (seg :: segs) /\
    distanceKm r = (numeric (distance seg) / Num 1000)%js /\
    durationMin r = Math.round (numeric (duration seg) / Num 60)%js /\
    geometry r = GeoJSONLayer data.
Proof.
  unfold calculateRoute_try. intros H.
  destruct response as [| [|] body]; try discriminate.
  run_inv H.
  repeat match goal with
         | Hp : prop _ _ = (Some _, _) |- _ => apply prop_Some in Hp as [? ?]
         end.
  destruct (drawable _) eqn:Hd in *; [| discriminate].
  unfold ret in H. injection H as <- _. cbn [source costEstimate distanceKm durationMin geometry].
  subst.
  repeat match goal with
         | Hx : nth_error ?l 0 = Some _ |- _ =>
             destruct l; cbn in Hx; [discriminate | injection Hx as ->]
         end.
  repeat split. do 6 eexists. repeat split; eauto.
Qed.

(** What the catch block returns, when it returns. *)
Lemma calculateRoute_catch_result tls req s r s' :
  calculateRoute_catch tls req s = (Some r, s') -> r = fallbackRoute req.
Proof.
  unfold calculateRoute_catch. intros H. run_inv H.
  unfold ret in H. now injection H as <- _.
Qed.

(** ** Handlers that leave part of the page alone *)

Section Frame.

Variable P : State -> State -> Prop.
Hypothesis P_refl : forall s, P s s.
Hypothesis P_trans : forall s1 s2 s3, P s1 s2 -> P s2 s3 -> P s1 s3.

Lemma respects_ret A (a : A) : respects P (ret a).
Proof. intros s. apply P_refl. Qed.

Lemma respects_throw A : respects P (@throw A).
Proof. intros s. apply P_refl. Qed.

Lemma respects_get : respects P get.
Proof. intros s. apply P_refl. Qed.

Lemma respects_prop A (o : option A) : respects P (prop o).
Proof. destruct o; [apply respects_ret | apply respects_throw]. Qed.

Lemma respects_getValue id : respects P (getValue id).
Proof. intros s. apply P_refl. Qed.

Lemma respects_modify f : (forall s, P s (f s)) -> respects P (modify f).
Proof. intros H s. apply H. Qed.

Lemma respects_bind A B (m : M A) (k : A -> M B) :
  respects P m -> (forall a, respects P (k a)) -> respects P (bind m k).
Proof.
  intros Hm Hk s. unfold bind. specialize (Hm s).
  destruct (m s) as [[a |] s1]; cbn [snd] in *; [| exact Hm].
  eapply P_trans; [exact Hm | apply Hk].
Qed.

Lemma respects_tryCatch A (body handler : M A) :
  respects P body -> respects P handler -> respects P (tryCatch body handler).
Proof.
  intros Hb Hh s. unfold tryCatch. specialize (Hb s).
  destruct (body s) as [[a |] s1]; cbn [snd] in *; [exact Hb |].
  eapply P_trans; [exact Hb | apply Hh].
Qed.

End Frame.

(** Takes a handler apart down to its [modify] steps, for a relation with
    the proofs [R] and [T] that it is reflexive and transitive. *)
Ltac frame_with R T :=
  repeat match goal with
         | |- forall _, _ => intro
         | |- respects _ (bind _ _) => apply respects_bind; [exact T | |]
         | |- respects _ (tryCatch _ _) => apply respects_tryCatch; [exact T | |]
         | |- respects _ (ret _) => apply respects_ret; exact R
         | |- respects _ throw => apply respects_throw; exact R
         | |- respects _ get => apply respects_get; exact R
         | |- respects _ (prop _) => apply respects_prop; exact R
         | |- respects _ (getValue _) => apply respects_getValue; exact R
         | |- respects _ (setValue _ _) => unfold setValue
         | |- respects _ (setTextContent _ _) => unfold setTextContent
         | |- respects _ (setDisplay _ _) => unfold setDisplay
         | |- respects _ (showNotification _) => unfold showNotification
         | |- respects _ (showMapFeedback _ _) => unfold showMapFeedback
         | |- respects _ (spawn _) => unfold spawn
         | |- respects _ (useMap _) => unfold useMap
         | |- respects _ (if ?c then _ else _) => destruct c
         | |- respects _ (match ?x with _ => _ end) => destruct x
         end.

Lemma sameLayer_refl s : sameLayer s s.
Proof. reflexivity. Qed.

Lemma sameLayer_trans s1 s2 s3 : sameLayer s1 s2 -> sameLayer s2 s3 -> sameLayer s1 s3.
Proof. unfold sameLayer. congruence. Qed.

Lemma routeOnly_refl s : routeOnly s s.
Proof. unfold routeOnly. tauto. Qed.

Lemma routeOnly_trans s1 s2 s3 : routeOnly s1 s2 -> routeOnly s2 s3 -> routeOnly s1 s3.
Proof. unfold routeOnly. intuition congruence. Qed.

(** Settles a [modify] step that writes a field the relation leaves free. *)
Ltac modify_tac :=
  apply respects_modify; intros [? ? ? ? ? ? ? ? ? ? ? ?]; cbn;
  first [reflexivity | unfold routeOnly; cbn; tauto].

Ltac layer_tac := frame_with sameLayer_refl sameLayer_trans; try modify_tac.

Ltac route_tac := frame_with routeOnly_refl routeOnly_trans; try modify_tac.

Lemma removeLayer_routeOnly type : respects routeOnly (removeLayer type).
Proof. unfold removeLayer. route_tac. Qed.

Lemma addTo_routeOnly type l : respects routeOnly (addTo type l).
Proof. unfold addTo. route_tac. Qed.

Lemma useMap_routeOnly type : respects routeOnly (useMap type).
Proof. unfold useMap. route_tac. Qed.

Lemma calculateRoute_try_routeOnly tls req response :
  respects routeOnly (calculateRoute_try tls req response).
Proof.
  unfold calculateRoute_try, setTextContent, showNotification. cbv zeta.
  frame_with routeOnly_refl routeOnly_trans;
    first [ apply removeLayer_routeOnly | apply addTo_routeOnly | apply useMap_routeOnly
          | modify_tac ].
Qed.

Lemma calculateRoute_catch_routeOnly tls req :
  respects routeOnly (calculateRoute_catch tls req).
Proof.
  unfold calculateRoute_catch, setTextContent, showNotification. cbv zeta.
  frame_with routeOnly_refl routeOnly_trans;
    first [ apply removeLayer_routeOnly | apply addTo_routeOnly | apply useMap_routeOnly
          | modify_tac ].
Qed.

(** A route computation changes the route only. *)
Lemma calculateRoute_response_routeOnly tls req response :
  respects routeOnly (calculateRoute_response tls req response).
Proof.
  apply respects_tryCatch;
    [exact routeOnly_trans | apply calculateRoute_try_routeOnly
    | apply calculateRoute_catch_routeOnly].
Qed.

Lemma clearRoute_routeOnly : respects routeOnly clearRoute.
Proof.
  unfold clearRoute, setTextContent, showNotification.
  frame_with routeOnly_refl routeOnly_trans;
    first [ apply removeLayer_routeOnly | modify_tac ].
Qed.

(** ** The route layer on the maps *)

(** With both maps in place a new layer ends on both. *)
Lemma addTo_both g s :
  pickupMap s <> None -> deliveryMap s <> None ->
  (layer <- addTo pickup (newLayer g) ;; addTo delivery layer) s = (Some (onBothMaps g), s).
Proof.
  intros Hp Hd. destruct s as [pm dm pk dk rl cf v tc d ch n t]. cbn in Hp, Hd.
  destruct pm; [| contradiction]. destruct dm; [| contradiction]. reflexivity.
Qed.

(** A layer of the page cannot be taken off both maps: the pickup map
    lets it go, if it still lists it, and the removal from the delivery
    map raises. *)
Lemma removeLayers_laid s l :
  routeLayer s = Some l -> laid l ->
  pickupMap s <> None -> deliveryMap s <> None ->
  (removeLayer pickup ;; removeLayer delivery) s
  = (None, set_routeLayer (Some (halfRemoved (drawn l))) s).
Proof.
  intros Hl Hlaid Hp Hd. destruct s as [pm dm pk dk rl cf v tc d ch n t].
  cbn in Hl, Hp, Hd. subst rl.
  destruct pm; [| contradiction]. destruct dm; [| contradiction].
  destruct Hlaid as [-> | ->]; reflexivity.
Qed.

(** Wherever the removal stops, the layer it leaves is one of the page. *)
Lemma removeLayers_layerInv s :
  layerInv s -> layerInv (snd ((removeLayer pickup ;; removeLayer delivery) s)).
Proof.
  intros HI. destruct s as [pm dm pk dk rl cf v tc d ch n t].
  destruct rl as [l |]; [| destruct pm, dm; exact HI].
  destruct (HI l eq_refl) as [E | E]; rewrite E;
    destruct pm, dm; cbn; intros l' H; injection H as <-;
    first [now left | now right].
Qed.

(** With both maps in place the catch block runs to its end. *)
Lemma calculateRoute_catch_run tls req s :
  pickupMap s <> None -> deliveryMap s <> None ->
  exists s',
    calculateRoute_catch tls req s = (Some (fallbackRoute req), s') /\
    routeLayer s' = Some (onBothMaps (geometry (fallbackRoute req))) /\
    notifications s'
    = (notifications s ++ ["Estimated route shown (straight-line fallback)"])%list /\
    textContent s' "routeDistance"
    = Str.toFixed 1 (distanceKm (fallbackRoute req)) ++ " km" /\
    textContent s' "routeDuration"
    = Str.toString (durationMin (fallbackRoute req)) ++ " min" /\
    textContent s' "routeCost"
    = tls (Math.round (costEstimate (fallbackRoute req))) ++ " UGX" /\
    pickupMap s' = pickupMap s /\ deliveryMap s' = deliveryMap s /\
    pickupMarker s' = pickupMarker s /\ deliveryMarker s' = deliveryMarker s /\
    value s' = value s /\ tasks s' = tasks s /\ display s' = display s.
Proof.
  intros Hp Hd. destruct s as [pm dm pk dk rl cf v tc d ch n t]. cbn in Hp, Hd.
  destruct pm; [| contradiction]. destruct dm; [| contradiction].
  unfold calculateRoute_catch.
  destruct rl as [[g [|] [|] [lm |]] |];
    eexists; (split; [reflexivity |]); cbn; repeat split; reflexivity.
Qed.

(** The try block touches nothing but the route layer before it raises. *)
Lemma calculateRoute_try_raise tls req response s s1 :
  calculateRoute_try tls req response s = (None, s1) ->
  exists l, s1 = set_routeLayer l s.
Proof.
  destruct s as [pm dm pk dk rl cf v tc d ch n t].
  unfold calculateRoute_try.
  destruct response as [| [|] [data |]]; cbn;
    try (intros H; injection H as <-; eexists; reflexivity).
  destruct rl as [[g [|] [|] [lm |]] |], pm, dm, (drawable data); cbn;
    try (intros H; injection H as <-; eexists; reflexivity);
    (destruct (features data) as [[| f fs] |]; cbn;
       try (intros H; injection H as <-; eexists; reflexivity);
     destruct (properties f) as [ps |]; cbn;
       try (intros H; injection H as <-; eexists; reflexivity);
     destruct (segments ps) as [[| seg segs] |]; cbn;
       try (intros H; injection H as <-; eexists; reflexivity);
     discriminate).
Qed.

(** With a route on the maps the try block raises where it clears the
    previous route, whatever the provider answered. *)
Lemma calculateRoute_try_shown tls req response s l :
  routeLayer s = Some l -> laid l ->
  pickupMap s <> None -> deliveryMap s <> None ->
  exists s1, calculateRoute_try tls req response s = (None, s1) /\
             layerInv s1.
Proof.
  intros Hl Hlaid Hp Hd. unfold calculateRoute_try.
  assert (HI : layerInv s) by (intros l' E; congruence).
  destruct response as [| [|] [data |]]; try (exists s; split; [reflexivity | exact HI]).
  cbn [prop bind ret get]. rewrite Hl.
  unfold bind at 1. rewrite (@removeLayers_laid s l Hl Hlaid Hp Hd).
  eexists. split; [reflexivity |].
  intros l' E. cbn in E. injection E as <-. now right.
Qed.

(** With both maps in place and no route on them yet, the try block
    raises exactly on the responses [raises] lists. *)
Lemma calculateRoute_try_run tls req response s :
  pickupMap s <> None -> deliveryMap s <> None -> routeLayer s = None ->
  if raises response
  then exists s1, calculateRoute_try tls req response s = (None, s1)
  else exists r s',
      calculateRoute_try tls req response s = (Some r, s') /\
      routeLayer s' = Some (onBothMaps (geometry r)) /\
      notifications s' = (notifications s ++ ["Route calculated successfully!"])%list /\
      textContent s' "routeDistance" = Str.toFixed 1 (distanceKm r) ++ " km" /\
      textContent s' "routeDuration" = Str.toString (durationMin r) ++ " min" /\
      textContent s' "routeCost" = tls (costEstimate r) ++ " UGX" /\
      pickupMap s' = pickupMap s /\ deliveryMap s' = deliveryMap s /\
      pickupMarker s' = pickupMarker s /\ deliveryMarker s' = deliveryMarker s /\
      value s' = value s /\ tasks s' = tasks s /\ display s' = display s.
Proof.
  intros Hp Hd Hl. destruct s as [pm dm pk dk rl cf v tc d ch n t]. cbn in Hp, Hd, Hl.
  destruct pm; [| contradiction]. destruct dm; [| contradiction]. subst rl.
  unfold calculateRoute_try, raises.
  destruct response as [| [|] [data |]]; cbn; try (eexists; reflexivity).
  destruct (drawable data); cbn; try (eexists; reflexivity);
    (destruct (features data) as [[| f fs] |]; cbn; try (eexists; reflexivity);
     destruct (properties f) as [ps |]; cbn; try (eexists; reflexivity);
     destruct (segments ps) as [[| seg segs] |]; cbn; try (eexists; reflexivity);
     do 2 eexists; (split; [reflexivity |]); cbn; repeat split; reflexivity).
Qed.
(* ================================================================== *)
(** * Pricing *)
(* ================================================================== *)

Lemma rate_ratePerKm vt :
  (if vt =? "motorcycle" then RATE_MOTORCYCLE else RATE_CAR) = ratePerKm (vehicleClass vt).
Proof. unfold vehicleClass. now destruct (vt =? "motorcycle"). Qed.

Lemma calculateRoute_response_result tls req response s r s' :
  calculateRoute_response tls req response s = (Some r, s') ->
  (source r = Primary /\
   costEstimate r = estimateCost_primary (distanceKm r) (vehicleClass (vehicleType req))) \/
  r = fallbackRoute req.
Proof.
  unfold calculateRoute_response, tryCatch.
  destruct (calculateRoute_try tls req response s) as [[r1 |] s1] eqn:Htry.
  - intros H. injection H as <- _. left.
    destruct (calculateRoute_try_result _ _ _ _ Htry) as (Hs & Hc & _).
    split; [assumption |]. rewrite Hc, rate_ratePerKm. reflexivity.
  - intros H. right. eapply calculateRoute_catch_result; eassumption.
Qed.




(* ================================================================== *)
(** * Storing a location *)
(* ================================================================== *)

Lemma checkRouteAvailability_run s :
  exists d, checkRouteAvailability s = (Some tt, set_display d s).
Proof.
  unfold checkRouteAvailability. cbn [bind getValue].
  repeat match goal with
         | |- context [if ?c then _ else _] => destruct c
         end; eexists; reflexivity.
Qed.

Lemma updateLocation_no_marker p type s :
  markerOf type s = None -> updateLocation p type s = (None, s).
Proof.
  intros H. destruct s as [pm dm pk dk rl cf v tc d ch n t].
  destruct type; cbn in H; subst; reflexivity.
Qed.

(** With the marker and the map of the role in place, [updateLocation]
    runs to its end; this is all it changes. *)
Lemma updateLocation_run p type s :
  markerOf type s <> None -> mapOf type s <> None ->
  exists s',
    updateLocation p type s = (Some tt, s') /\
    value s' (hiddenId type) = rendered p /\
    value s' (roleName type ++ "Lat") = Str.toFixed 6 (L.lat p) /\
    value s' (roleName type ++ "Lng") = Str.toFixed 6 (L.lng p) /\
    value s' (hiddenId (other type)) = value s (hiddenId (other type)) /\
    value s' "vehicleType" = value s "vehicleType" /\
    markerOf type s' = Some p /\
    markerOf (other type) s' = markerOf (other type) s /\
    pickupMap s' = pickupMap s /\ deliveryMap s' = deliveryMap s /\
    routeLayer s' = routeLayer s /\ textContent s' = textContent s /\
    notifications s' = notifications s /\
    tasks s'
    = (tasks s ++ [ReverseLookup type (Str.toFixed 6 (L.lat p)) (Str.toFixed 6 (L.lng p))])%list.
Proof.
  intros Hm Hp. unfold updateLocation.
  set (lat := Str.toFixed 6 (L.lat p)). set (lng := Str.toFixed 6 (L.lng p)).
  set (link := "https://www.openstreetmap.org/?mlat=" ++ _).
  destruct s as [pm dm pk dk rl cf v tc d ch n t].
  destruct type; cbn in Hm, Hp.
  - destruct pk; [| contradiction]. destruct pm; [| contradiction].
    cbn [bind setLatLng get prop markerOf pickupMarker ret modify set_markerOf
         set_pickupMarker setValue useMap mapOf pickupMap spawn
         deliveryMap deliveryMarker routeLayer currentFormData value textContent
         display checked notifications tasks set_value set_tasks].
    match goal with
    | |- context [checkRouteAvailability ?st] =>
        destruct (checkRouteAvailability_run st) as [d' ->]
    end.
    eexists. split; [reflexivity |]. cbn. unfold rendered. fold lat lng.
    repeat split; reflexivity.
  - destruct dk; [| contradiction]. destruct dm; [| contradiction].
    cbn [bind setLatLng get prop markerOf deliveryMarker ret modify set_markerOf
         set_deliveryMarker setValue useMap mapOf deliveryMap spawn
         pickupMap pickupMarker routeLayer currentFormData value textContent
         display checked notifications tasks set_value set_tasks].
    match goal with
    | |- context [checkRouteAvailability ?st] =>
        destruct (checkRouteAvailability_run st) as [d' ->]
    end.
    eexists. split; [reflexivity |]. cbn. unfold rendered. fold lat lng.
    repeat split; reflexivity.
Qed.

(* ================================================================== *)
(** * What every reachable state satisfies *)
(* ================================================================== *)

Lemma keeps_trans s1 s2 s3 : keeps s1 s2 -> keeps s2 s3 -> keeps s1 s3.
Proof.
  unfold keeps. intros (A1 & A2 & A3 & A4 & A5 & A6 & A7) (B1 & B2 & B3 & B4 & B5 & B6 & B7).
  repeat split; try congruence; try tauto; auto.
Qed.

Lemma keeps_Inv s s' : keeps s s' -> Inv s -> Inv s'.
Proof.
  intros (K1 & K2 & K3 & K4 & K5 & K6 & K7) (Ip & Id & It).
  unfold Inv, roleInv, hiddenId in *. cbn [roleName append markerOf mapOf] in *.
  change ("pickup" ++ "CoordsHidden") with "pickupCoordsHidden" in *.
  change ("delivery" ++ "CoordsHidden") with "deliveryCoordsHidden" in *.
  rewrite K1, K2, K5, K6. repeat split.
  - intros H. apply Ip. tauto.
  - destruct Ip as [_ Ip]. specialize (Ip H) as [Hm _]. tauto.
  - destruct Ip as [_ Ip]. now specialize (Ip H) as [_ He].
  - intros H. apply Id. tauto.
  - destruct Id as [_ Id]. specialize (Id H) as [Hm _]. tauto.
  - destruct Id as [_ Id]. now specialize (Id H) as [_ He].
  - now apply (It req), K7.
  - now apply (It req), K7.
  - now apply (It req), K7.
Qed.

Lemma pick_In A (x y : A) l rest : pick x l rest -> In y rest -> In y l.
Proof. induction 1; cbn; intuition. Qed.

Lemma pick_last A (x : A) l : pick x (l ++ [x]) l.
Proof. induction l; cbn; constructor; assumption. Qed.

Lemma In_snoc_other (t u : Task) l : In t (l ++ [u]) -> t <> u -> In t l.
Proof. intros H Hne. apply in_app_or in H as [H | [H | []]]; congruence. Qed.

Lemma keeps_set_tasks s rest x : pick x (tasks s) rest -> keeps s (set_tasks rest s).
Proof.
  intros Hp. unfold keeps. cbn. repeat split; try tauto.
  intros req. now apply pick_In with (x := x).
Qed.

Lemma keeps_showNotification s msg : keeps s (exec (showNotification msg) s).
Proof. keeps_tac. Qed.

Lemma keeps_updateLocation_then type addr s : keeps s (exec (updateLocation_then type addr) s).
Proof.
  unfold updateLocation_then, exec.
  destruct (_ && _); [| keeps_tac].
  destruct type; cbn [bind getValue];
    match goal with |- context [if ?c then _ else _] => destruct c end; keeps_tac.
Qed.

Lemma keeps_getCurrentLocation g type s : keeps s (exec (getCurrentLocation g type) s).
Proof. unfold getCurrentLocation, exec. destruct g; keeps_tac. Qed.

Lemma keeps_getCurrentLocation_error e s : keeps s (exec (getCurrentLocation_error e) s).
Proof. apply keeps_showNotification. Qed.

Lemma routeOnly_keeps s s' : routeOnly s s' -> keeps s s'.
Proof.
  intros (K1 & K2 & K3 & K4 & _ & K6 & _ & _ & K9). unfold keeps.
  rewrite K1, K2, K3, K4, K6, K9. tauto.
Qed.

Lemma keeps_clearRoute s : keeps s (exec clearRoute s).
Proof. apply routeOnly_keeps, clearRoute_routeOnly. Qed.

Lemma keeps_onSubmit ts s : keeps s (exec (onSubmit ts) s).
Proof.
  unfold onSubmit, exec. cbn [bind get].
  repeat match goal with |- context [if ?c then _ else _] => destruct c end; keeps_tac.
Qed.

Lemma keeps_onSubmit_response ok s : keeps s (exec (onSubmit_response ok) s).
Proof. keeps_tac. Qed.

Lemma keeps_setValue id v s : ~ In id hiddenIds -> keeps s (exec (setValue id v) s).
Proof.
  intros Hid. unfold keeps, exec. cbn. unfold upd.
  repeat split; try tauto.
  - destruct (String.eqb_spec "pickupCoordsHidden" id); [| reflexivity].
    subst id. exfalso. apply Hid. cbn. tauto.
  - destruct (String.eqb_spec "deliveryCoordsHidden" id); [| reflexivity].
    subst id. exfalso. apply Hid. cbn. tauto.
Qed.

Lemma keeps_set_checked c s : keeps s (set_checked c s).
Proof. keeps_tac. Qed.

Lemma keeps_calculateRoute_response tls req response s :
  keeps s (exec (calculateRoute_response tls req response) s).
Proof. apply routeOnly_keeps, calculateRoute_response_routeOnly. Qed.

Lemma contains_true_Num b p :
  L.contains b p = true -> exists la lo, p = L.latLng (Num la) (Num lo).
Proof.
  destruct p as [[la |] [lo |]]; intros H; eauto;
    first [ rewrite (proj1 (contains_NaN b _)) in H
          | rewrite (proj2 (contains_NaN b _)) in H ]; discriminate.
Qed.

Lemma exec_bind A B (m : M A) (k : A -> M B) s :
  exec (bind m k) s
  = match m s with
    | (Some a, s1) => exec (k a) s1
    | (None, s1) => s1
    end.
Proof. unfold exec, bind. now destruct (m s) as [[a |] s1]. Qed.

Lemma roleInv_other_frame type s s' :
  roleInv type s ->
  markerOf type s' = markerOf type s -> mapOf type s' = mapOf type s ->
  value s' (hiddenId type) = value s (hiddenId type) ->
  roleInv type s'.
Proof. unfold roleInv. intros H -> -> ->. exact H. Qed.

Lemma Inv_role type s : Inv s -> roleInv type s.
Proof. intros (Hp & Hd & _). now destruct type. Qed.

Lemma Inv_intro s :
  (forall type, roleInv type s) ->
  (forall req, In (Directions req) (tasks s) ->
               pickupMap s <> None /\ deliveryMap s <> None /\ numericRequest req) ->
  Inv s.
Proof. intros H Ht. split; [apply H | split; [apply H | exact Ht]]. Qed.

Lemma mapOf_frame type s s' :
  pickupMap s' = pickupMap s -> deliveryMap s' = deliveryMap s -> mapOf type s' = mapOf type s.
Proof. now destruct type. Qed.

Lemma updateLocation_Inv p type s :
  Inv s -> (exists la lo, p = L.latLng (Num la) (Num lo)) ->
  Inv (exec (updateLocation p type) s).
Proof.
  intros HI (la & lo & ->). unfold exec.
  destruct (markerOf type s) as [mk |] eqn:Hmk.
  2: { now rewrite updateLocation_no_marker. }
  assert (Hm : markerOf type s <> None) by congruence.
  assert (Hp : mapOf type s <> None) by now apply (Inv_role type HI).
  destruct (updateLocation_run (L.latLng (Num la) (Num lo)) type s Hm Hp)
    as (s' & -> & Hv & _ & _ & Hvo & _ & Hmk' & Hmko & Hpm & Hdm & _ & _ & _ & Ht).
  cbn [snd]. apply Inv_intro.
  - intros r. assert (Hr : r = type \/ r = other type) by (destruct r, type; auto).
    destruct Hr as [-> | ->].
    + split.
      * intros _. now rewrite (mapOf_frame type _ _ Hpm Hdm).
      * intros _. split; [congruence | eauto].
    + apply roleInv_other_frame with (s := s); try assumption.
      * now apply Inv_role.
      * now apply mapOf_frame.
  - intros req Hin. rewrite Ht in Hin. apply In_snoc_other in Hin; [| discriminate].
    rewrite Hpm, Hdm. now apply HI.
Qed.

Lemma onMapClick_Inv p type s : Inv s -> Inv (exec (onMapClick p type) s).
Proof.
  intros HI. unfold onMapClick.
  destruct (L.contains UGANDA_BOUNDS p) eqn:Hc; cbn [negb].
  - rewrite exec_bind.
    pose proof (updateLocation_Inv type HI (contains_true_Num _ _ Hc)) as H.
    unfold exec in H. now destruct (updateLocation p type s) as [[[] |] s1].
  - eapply keeps_Inv; [apply keeps_showNotification | assumption].
Qed.

Lemma onMarkGeocode_Inv p type s : Inv s -> Inv (exec (onMarkGeocode p type) s).
Proof.
  intros HI. unfold onMarkGeocode.
  destruct (L.contains UGANDA_BOUNDS p) eqn:Hc; cbn [negb].
  - rewrite exec_bind. unfold useMap. cbn [bind get].
    destruct (mapOf type s); cbn; [| assumption].
    apply updateLocation_Inv; [assumption | now apply contains_true_Num in Hc].
  - eapply keeps_Inv; [apply keeps_showNotification | assumption].
Qed.

Lemma getCurrentLocation_success_Inv p type s :
  Inv s -> Inv (exec (getCurrentLocation_success p type) s).
Proof.
  intros HI. unfold getCurrentLocation_success. destruct p as [la lo]. cbn [L.lat L.lng].
  destruct (L.contains UGANDA_BOUNDS _) eqn:Hc; cbn [negb].
  - rewrite exec_bind.
    pose proof (updateLocation_Inv type HI (contains_true_Num _ _ Hc)) as H.
    unfold exec in H. destruct (updateLocation _ type s) as [[[] |] s1]; [| assumption].
    eapply keeps_Inv; [apply keeps_showNotification | assumption].
  - eapply keeps_Inv; [apply keeps_showNotification | assumption].
Qed.

Lemma keeps_set_marker type p s :
  markerOf type s <> None -> keeps s (set_markerOf type (Some p) s).
Proof. destruct type; cbn; intros H; unfold keeps; cbn; repeat split; try tauto; congruence. Qed.

Lemma keeps_setLatLng type p s : keeps s (exec (setLatLng type p) s).
Proof.
  destruct s as [pm dm pk dk rl cf v tc d ch n t]. unfold setLatLng, exec.
  destruct type, pk, dk; unfold keeps; cbn; repeat split; try tauto; congruence.
Qed.

Lemma onMarkerDragEnd_Inv p type s :
  markerOf type s <> None -> Inv s ->
  Inv (exec (onMarkerDragEnd type) (set_markerOf type (Some p) s)).
Proof.
  intros Hm HI.
  assert (HI' : Inv (set_markerOf type (Some p) s))
    by (eapply keeps_Inv; [now apply keeps_set_marker | assumption]).
  revert HI'. generalize (set_markerOf type (Some p) s). clear. intros s HI.
  unfold onMarkerDragEnd. rewrite exec_bind. cbn [get].
  rewrite exec_bind. destruct (markerOf type s) as [q |]; cbn [prop ret throw]; [| assumption].
  destruct (L.contains UGANDA_BOUNDS q) eqn:Hc; cbn [negb].
  - rewrite exec_bind.
    pose proof (updateLocation_Inv type HI (contains_true_Num _ _ Hc)) as H.
    unfold exec in H. now destruct (updateLocation q type s) as [[[] |] s1].
  - rewrite exec_bind. cbn [showNotification modify].
    rewrite exec_bind. cbn [getValue].
    match goal with |- Inv (exec _ ?st) => assert (HI1 : Inv st) end.
    { eapply keeps_Inv; [apply (keeps_showNotification s) | assumption]. }
    match goal with |- context [if ?c then _ else _] => destruct c end;
      (eapply keeps_Inv; [apply keeps_setLatLng | exact HI1]).
Qed.

Lemma clearLocation_Inv mapType s : Inv s -> Inv (exec (clearLocation mapType) s).
Proof.
  intros HI. unfold clearLocation. rewrite exec_bind. cbn [get].
  destruct (mapOf mapType s) as [m |] eqn:Hmap; [| assumption].
  destruct (markerOf mapType s) as [mk |] eqn:Hmk; [| assumption].
  destruct s as [pm dm pk dk rl cf v tc d ch n t].
  destruct HI as (Ip & Id & It). unfold roleInv, hiddenId in *.
  unfold exec.
  destruct mapType; cbn in Hmap, Hmk; subst;
    cbn [bind setLatLng get prop markerOf pickupMarker deliveryMarker ret modify
         set_markerOf set_pickupMarker set_deliveryMarker setValue useMap mapOf
         pickupMap deliveryMap showMapFeedback
         routeLayer currentFormData value textContent
         display checked notifications tasks set_value] in *;
    match goal with
    | |- context [checkRouteAvailability ?st] =>
        destruct (checkRouteAvailability_run st) as [d' ->]
    end; unfold Inv, roleInv, hiddenId; cbn in *;
    repeat split; try tauto; try discriminate; try congruence;
    try (match goal with
         | Hin : In (Directions ?r) _ |- _ => now apply (It r)
         end).
Qed.

Lemma initMaps_Inv a b s : Inv s -> Inv (exec (initMaps a b) s).
Proof.
  intros (Ip & Id & It). destruct s as [pm dm pk dk rl cf v tc d ch n t].
  unfold roleInv, hiddenId in *. unfold initMaps, exec, tryCatch.
  destruct a, b, pm, dm;
    cbn [bind L_map get mapOf pickupMap deliveryMap throw modify set_mapOf set_pickupMap
         set_deliveryMap set_pickupMarker set_deliveryMarker ret
         pickupMarker deliveryMarker routeLayer currentFormData value textContent
         display checked notifications tasks] in *;
    try match goal with
      | |- context [checkRouteAvailability ?st] =>
          destruct (checkRouteAvailability_run st) as [d' ->]
      end;
    unfold Inv, roleInv, hiddenId; cbn in *;
    repeat split; try tauto; try discriminate; try congruence;
    try (match goal with
         | Hin : In (Directions ?r) _ |- _ => now apply (It r)
         end).
Qed.

(** With both roles present and a vehicle selected the request goes out;
    otherwise the precondition is reported and nothing else happens. *)
Lemma calculateRoute_run s :
  calculateRoute s
  = (Some tt,
     if present (value s "pickupCoordsHidden") && present (value s "deliveryCoordsHidden")
     then if truthy (value s "vehicleType")
          then set_tasks (tasks s ++ [Directions (requestOf s)]) s
          else set_notifications
                 (notifications s ++ ["Please select a vehicle type first"]) s
     else set_notifications
            (notifications s ++
             ["Please set both pickup and delivery locations inside Uganda first"]) s).
Proof.
  unfold calculateRoute, present, requestOf. cbn [bind getValue].
  destruct (truthy (value s "pickupCoordsHidden")),
           (truthy (value s "deliveryCoordsHidden")),
           (value s "pickupCoordsHidden" =? "Not set"),
           (value s "deliveryCoordsHidden" =? "Not set"); cbn [negb orb andb];
    try reflexivity.
  now destruct (truthy (value s "vehicleType")).
Qed.

Lemma parseCoords_rendered la lo :
  parseCoords (rendered (L.latLng (Num la) (Num lo))) = [Num (round6 la); Num (round6 lo)].
Proof.
  unfold rendered. cbn [L.lat L.lng].
  rewrite parseCoords_pair by apply toFixed_plain.
  now rewrite !parseFloat_toFixed6.
Qed.

Lemma calculateRoute_Inv s : Inv s -> Inv (exec calculateRoute s).
Proof.
  intros HI. unfold exec. rewrite calculateRoute_run. cbn [snd].
  destruct (present (value s "pickupCoordsHidden")) eqn:Hp; cbn [andb];
    [| eapply keeps_Inv; [apply (keeps_showNotification s) | assumption]].
  destruct (present (value s "deliveryCoordsHidden")) eqn:Hd;
    [| eapply keeps_Inv; [apply (keeps_showNotification s) | assumption]].
  destruct (truthy (value s "vehicleType"));
    [| eapply keeps_Inv; [apply (keeps_showNotification s) | assumption]].
  pose proof HI as (Ip & Id & It).
  destruct Ip as [Ip1 Ip2]. destruct Id as [Id1 Id2].
  destruct (Ip2 Hp) as (Hmp & la & lo & Ep). destruct (Id2 Hd) as (Hmd & la' & lo' & Ed).
  split; [exact (conj Ip1 Ip2) | split; [exact (conj Id1 Id2) |]].
  intros req Hin. cbn [tasks set_tasks pickupMap deliveryMap] in *.
  apply in_app_or in Hin as [Hin | [Hin | []]]; [now apply It |].
  injection Hin as <-. repeat split; [now apply Ip1 | now apply Id1 |].
  unfold requestOf, hiddenId in *. cbn [roleName append] in Ep, Ed.
  rewrite Ep, Ed, !parseCoords_rendered. cbn. unfold numericRequest. cbn. eauto 8.
Qed.

Lemma initial_Inv s : initial s -> Inv s.
Proof.
  intros (Hpm & Hdm & Hpk & Hdk & _ & _ & _ & Ht & Hp & Hd).
  unfold Inv, roleInv, hiddenId. cbn [markerOf mapOf roleName append].
  change ("pickup" ++ "CoordsHidden") with "pickupCoordsHidden".
  change ("delivery" ++ "CoordsHidden") with "deliveryCoordsHidden".
  rewrite Hpk, Hdk, Hp, Hd, Ht.
  split; [| split]; [split; [congruence | discriminate] .. | intros req []].
Qed.

Lemma step_Inv tls s s' : step tls s s' -> Inv s -> Inv s'.
Proof.
  intros Hstep HI. destruct Hstep.
  - now apply initMaps_Inv.
  - now apply onMapClick_Inv.
  - now apply onMarkerDragEnd_Inv.
  - now apply onMarkGeocode_Inv.
  - eapply keeps_Inv; [apply keeps_getCurrentLocation | assumption].
  - apply getCurrentLocation_success_Inv.
    eapply keeps_Inv; [eapply keeps_set_tasks; eassumption | assumption].
  - eapply keeps_Inv; [apply keeps_getCurrentLocation_error |].
    eapply keeps_Inv; [eapply keeps_set_tasks; eassumption | assumption].
  - eapply keeps_Inv; [apply keeps_updateLocation_then |].
    eapply keeps_Inv; [eapply keeps_set_tasks; eassumption | assumption].
  - now apply calculateRoute_Inv.
  - eapply keeps_Inv; [apply keeps_calculateRoute_response |].
    eapply keeps_Inv; [eapply keeps_set_tasks; eassumption | assumption].
  - eapply keeps_Inv; [apply keeps_clearRoute | assumption].
  - now apply clearLocation_Inv.
  - eapply keeps_Inv; [now apply keeps_setValue | assumption].
  - eapply keeps_Inv; [apply keeps_set_checked | assumption].
  - eapply keeps_Inv; [apply keeps_onSubmit | assumption].
  - eapply keeps_Inv; [apply keeps_onSubmit_response |].
    eapply keeps_Inv; [eapply keeps_set_tasks; eassumption | assumption].
Qed.

(** In every reachable state: a marker stands on a map, a stored point is
    a rendering of real coordinates written while the marker stood, and a
    directions request in flight has both maps and real coordinates. *)
Lemma reachable_Inv tls s : reachable tls s -> Inv s.
Proof.
  induction 1; [now apply initial_Inv | eapply step_Inv; eassumption].
Qed.

(** ** The route layer of a reachable state *)

Lemma setLatLng_sameLayer type p : respects sameLayer (setLatLng type p).
Proof.
  unfold setLatLng. layer_tac.
  apply respects_modify. intros s. now destruct type.
Qed.

Lemma checkRouteAvailability_sameLayer : respects sameLayer checkRouteAvailability.
Proof. unfold checkRouteAvailability. cbv zeta. layer_tac. Qed.

Lemma updateLocation_sameLayer p type : respects sameLayer (updateLocation p type).
Proof.
  unfold updateLocation. cbv zeta.
  frame_with sameLayer_refl sameLayer_trans;
    first [ apply setLatLng_sameLayer | apply checkRouteAvailability_sameLayer | modify_tac ].
Qed.

Lemma onMapClick_sameLayer p type : respects sameLayer (onMapClick p type).
Proof.
  unfold onMapClick.
  frame_with sameLayer_refl sameLayer_trans;
    first [ apply updateLocation_sameLayer | modify_tac ].
Qed.

Lemma onMarkerDragEnd_sameLayer type : respects sameLayer (onMarkerDragEnd type).
Proof.
  unfold onMarkerDragEnd. cbv zeta.
  frame_with sameLayer_refl sameLayer_trans;
    first [ apply updateLocation_sameLayer | apply setLatLng_sameLayer | modify_tac ].
Qed.

Lemma onMarkGeocode_sameLayer p type : respects sameLayer (onMarkGeocode p type).
Proof.
  unfold onMarkGeocode.
  frame_with sameLayer_refl sameLayer_trans;
    first [ apply updateLocation_sameLayer | modify_tac ].
Qed.

Lemma getCurrentLocation_success_sameLayer p type :
  respects sameLayer (getCurrentLocation_success p type).
Proof.
  unfold getCurrentLocation_success. cbv zeta.
  frame_with sameLayer_refl sameLayer_trans;
    first [ apply updateLocation_sameLayer | modify_tac ].
Qed.

Lemma clearLocation_sameLayer type : respects sameLayer (clearLocation type).
Proof.
  unfold clearLocation.
  frame_with sameLayer_refl sameLayer_trans;
    first [ apply setLatLng_sameLayer | apply checkRouteAvailability_sameLayer | modify_tac ].
Qed.

Lemma initMaps_sameLayer a b : respects sameLayer (initMaps a b).
Proof.
  unfold initMaps, L_map.
  frame_with sameLayer_refl sameLayer_trans;
    first [ apply checkRouteAvailability_sameLayer | modify_tac
          | apply respects_modify; intros s; reflexivity ].
Qed.

Lemma updateLocation_then_sameLayer type addr :
  respects sameLayer (updateLocation_then type addr).
Proof. unfold updateLocation_then. cbv zeta. layer_tac. Qed.

Lemma calculateRoute_sameLayer : respects sameLayer calculateRoute.
Proof. unfold calculateRoute. cbv zeta. layer_tac. Qed.

Lemma onSubmit_sameLayer ts : respects sameLayer (onSubmit ts).
Proof. unfold onSubmit. cbv zeta. layer_tac. Qed.

Lemma getCurrentLocation_sameLayer g type : respects sameLayer (getCurrentLocation g type).
Proof. unfold getCurrentLocation. layer_tac. Qed.

Lemma getCurrentLocation_error_sameLayer e : respects sameLayer (getCurrentLocation_error e).
Proof. unfold getCurrentLocation_error. cbv zeta. layer_tac. Qed.

Lemma sameLayer_layerInv s s' : sameLayer s s' -> layerInv s -> layerInv s'.
Proof. unfold sameLayer, layerInv. intros ->. auto. Qed.

(** A layer drawn by either branch is one of the page. *)
Lemma laid_onBothMaps g : laid (onBothMaps g).
Proof. now left. Qed.

Lemma clearRoute_layerInv s : layerInv s -> layerInv (exec clearRoute s).
Proof.
  intros HI. destruct s as [pm dm pk dk rl cf v tc d ch n t]. unfold exec, clearRoute.
  destruct rl as [l |]; [| cbn; intros l' E; discriminate E].
  destruct (HI l eq_refl) as [E | E]; rewrite E;
    destruct pm, dm; cbn; intros l' H; injection H as <-;
    first [now left | now right].
Qed.

Lemma calculateRoute_catch_layerInv tls req s :
  layerInv s -> layerInv (exec (calculateRoute_catch tls req) s).
Proof.
  intros HI. destruct s as [pm dm pk dk rl cf v tc d ch n t].
  unfold exec, calculateRoute_catch.
  destruct rl as [l |].
  - destruct (HI l eq_refl) as [E | E]; rewrite E;
      destruct pm, dm; cbn; intros l' H; injection H as <-;
      first [now left | now right].
  - destruct pm, dm; cbn; intros l' H; first [discriminate H | injection H as <-; now left].
Qed.

Lemma calculateRoute_try_layerInv tls req response s :
  layerInv s -> layerInv (snd (calculateRoute_try tls req response s)).
Proof.
  intros HI. destruct (routeLayer s) as [l |] eqn:Hl.
  - (* a route is on the maps: the removal stops the try block *)
    unfold calculateRoute_try.
    destruct response as [| [|] [data |]]; try exact HI.
    cbn [prop bind ret get]. rewrite Hl.
    pose proof (removeLayers_layerInv HI) as H.
    unfold bind at 1.
    destruct ((removeLayer pickup ;; removeLayer delivery) s) as [[[] |] s1] eqn:E;
      cbn [snd] in H; [| exact H].
    exfalso. revert E. clear H.
    destruct s as [pm dm pk dk rl cf v tc d ch n t]. cbn in Hl. subst rl.
    destruct (HI l eq_refl) as [E | E]; rewrite E; destruct pm, dm; discriminate.
  - destruct s as [pm dm pk dk rl cf v tc d ch n t]. cbn in Hl. subst rl.
    unfold calculateRoute_try.
    destruct response as [| [|] [data |]]; cbn; try (intros l' E; discriminate E).
    destruct pm, dm, (drawable data); cbn; try (intros l' E; discriminate E);
      (destruct (features data) as [[| f fs] |]; cbn;
         try (intros l' E; injection E as <-; now left);
       destruct (properties f) as [ps |]; cbn;
         try (intros l' E; injection E as <-; now left);
       destruct (segments ps) as [[| seg segs] |]; cbn;
         intros l' E; injection E as <-; now left).
Qed.

Lemma calculateRoute_response_layerInv tls req response s :
  layerInv s -> layerInv (exec (calculateRoute_response tls req response) s).
Proof.
  intros HI. unfold exec, calculateRoute_response, tryCatch.
  pose proof (calculateRoute_try_layerInv tls req response HI) as H.
  destruct (calculateRoute_try tls req response s) as [[r |] s1]; cbn [snd] in H |- *;
    [exact H | now apply calculateRoute_catch_layerInv].
Qed.

Lemma step_layerInv tls s s' : step tls s s' -> layerInv s -> layerInv s'.
Proof.
  intros Hstep HI. destruct Hstep.
  - eapply sameLayer_layerInv; [apply initMaps_sameLayer | assumption].
  - eapply sameLayer_layerInv; [apply onMapClick_sameLayer | assumption].
  - eapply sameLayer_layerInv; [apply onMarkerDragEnd_sameLayer |]. now destruct type.
  - eapply sameLayer_layerInv; [apply onMarkGeocode_sameLayer | assumption].
  - eapply sameLayer_layerInv; [apply getCurrentLocation_sameLayer | assumption].
  - eapply sameLayer_layerInv; [apply getCurrentLocation_success_sameLayer | assumption].
  - eapply sameLayer_layerInv; [apply getCurrentLocation_error_sameLayer | assumption].
  - eapply sameLayer_layerInv; [apply updateLocation_then_sameLayer | assumption].
  - eapply sameLayer_layerInv; [apply calculateRoute_sameLayer | assumption].
  - now apply calculateRoute_response_layerInv.
  - now apply clearRoute_layerInv.
  - eapply sameLayer_layerInv; [apply clearLocation_sameLayer | assumption].
  - exact HI.
  - exact HI.
  - eapply sameLayer_layerInv; [apply onSubmit_sameLayer | assumption].
  - exact HI.
Qed.

(** In every reachable state a route layer is as the script drew it, on
    both maps, or as a failed removal left it, off the pickup map. *)
Lemma reachable_layerInv tls s : reachable tls s -> layerInv s.
Proof.
  induction 1 as [s Hinit | s s' Hr IH Hstep].
  - destruct Hinit as (_ & _ & _ & _ & Hl & _). intros l E. congruence.
  - eapply step_layerInv; eassumption.
Qed.

(* ================================================================== *)
(** * Route resolution, the stored point and clearing *)
(* ================================================================== *)

Lemma pick_In_self A (x : A) l rest : pick x l rest -> In x l.
Proof. induction 1; cbn; auto. Qed.

Lemma round_round a : Math.round (Math.round a) = Math.round a.
Proof. destruct a as [x |]; [apply round_IZR | reflexivity]. Qed.

Lemma present_rendered p : present (rendered p) = true.
Proof.
  unfold present, rendered, truthy.
  set (a := Str.toFixed 6 (L.lat p)). set (b := Str.toFixed 6 (L.lng p)).
  apply andb_true_iff; split; apply negb_true_iff; apply String.eqb_neq; intros E.
  - apply app_eq_nil_s in E as [_ E]. discriminate.
  - assert (H : Str.allChars noComma (a ++ ", " ++ b) = true) by (rewrite E; reflexivity).
    rewrite allChars_app in H. apply andb_true_iff in H as [_ H]. discriminate.
Qed.

(** ** Both branches, with the maps in place *)

(** With both maps in place, a response ends with a route: the fallback
    route when the try block raises, which it does on the responses
    [raises] lists and whenever a route is on the maps already; a primary
    route otherwise. *)
Lemma calculateRoute_response_run tls req response s :
  pickupMap s <> None -> deliveryMap s <> None -> layerInv s ->
  exists r s',
    calculateRoute_response tls req response s = (Some r, s') /\
    source r = (if raises response || routeShown s then Fallback else Primary) /\
    (raises response || routeShown s = true -> r = fallbackRoute req) /\
    routeLayer s' = Some (onBothMaps (geometry r)) /\
    notifications s'
    = (notifications s ++
       [match source r with
        | Primary => "Route calculated successfully!"
        | Fallback => "Estimated route shown (straight-line fallback)"
        end])%list /\
    textContent s' "routeDistance" = Str.toFixed 1 (distanceKm r) ++ " km" /\
    textContent s' "routeDuration" = Str.toString (durationMin r) ++ " min" /\
    textContent s' "routeCost" = tls (costEstimate r) ++ " UGX" /\
    value s' = value s /\ tasks s' = tasks s.
Proof.
  intros Hp Hd HI. unfold calculateRoute_response, tryCatch.
  assert (Hcatch : forall s1,
             calculateRoute_try tls req response s = (None, s1) ->
             exists s',
               calculateRoute_catch tls req s1 = (Some (fallbackRoute req), s') /\
               routeLayer s' = Some (onBothMaps (geometry (fallbackRoute req))) /\
               notifications s'
               = (notifications s ++ ["Estimated route shown (straight-line fallback)"])%list /\
               textContent s' "routeDistance"
               = Str.toFixed 1 (distanceKm (fallbackRoute req)) ++ " km" /\
               textContent s' "routeDuration"
               = Str.toString (durationMin (fallbackRoute req)) ++ " min" /\
               textContent s' "routeCost" = tls (costEstimate (fallbackRoute req)) ++ " UGX" /\
               value s' = value s /\ tasks s' = tasks s).
  { intros s1 Htry. apply calculateRoute_try_raise in Htry as [l ->].
    destruct (calculateRoute_catch_run tls req (set_routeLayer l s))
      as (s' & Hrun & Hl & Hn & Hd1 & Hd2 & Hd3 & _ & _ & _ & _ & Hv & Ht & _);
      [assumption .. |].
    exists s'. repeat split; try assumption.
    cbn [fallbackRoute costEstimate] in Hd3 |- *. now rewrite round_round in Hd3. }
  unfold routeShown. destruct (routeLayer s) as [l |] eqn:Hl.
  - (* a route is on the maps: clearing it raises *)
    rewrite orb_true_r.
    destruct (@calculateRoute_try_shown tls req response s l Hl (HI l Hl) Hp Hd)
      as (s1 & Htry & _).
    rewrite Htry. destruct (Hcatch s1 Htry) as (s' & Hrun & Hrest).
    exists (fallbackRoute req), s'. rewrite Hrun.
    split; [reflexivity |]. split; [reflexivity |]. split; [reflexivity |]. exact Hrest.
  - rewrite orb_false_r.
    pose proof (calculateRoute_try_run tls req response s Hp Hd Hl) as Htry.
    destruct (raises response).
    + destruct Htry as [s1 Htry]. rewrite Htry.
      destruct (Hcatch s1 Htry) as (s' & Hrun & Hrest).
      exists (fallbackRoute req), s'. rewrite Hrun.
      split; [reflexivity |]. split; [reflexivity |]. split; [reflexivity |]. exact Hrest.
    + destruct Htry
        as (r & s' & Htry & Hl' & Hn & Hd1 & Hd2 & Hd3 & _ & _ & _ & _ & Hv & Ht & _).
      rewrite Htry. exists r, s'.
      destruct (calculateRoute_try_result _ _ _ _ Htry) as (Hs & _).
      rewrite Hs. repeat split; try assumption. discriminate.
Qed.




(** Claim C9.  Every accepted point is stored rounded to 6 decimal places:
    the inputs of its role hold the toFixed(6) renderings of its latitude
    and longitude, the marker alone keeps the point as selected, and a
    later route computation reads the stored pair back, so it works on
    the rounded values. *)
Theorem accepted_point_stored_rounded s type la lo :
  markerOf type s <> None -> mapOf type s <> None ->
  let p := L.latLng (Num la) (Num lo) in
  let s1 := exec (updateLocation p type) s in
  let coords := value s1 (roleName type ++ "CoordsHidden") in
  (* the inputs hold the toFixed(6) renderings *)
  value s1 (roleName type ++ "Lat") = Str.toFixed 6 (Num la) /\
  value s1 (roleName type ++ "Lng") = Str.toFixed 6 (Num lo) /\
  coords = Str.toFixed 6 (Num la) ++ ", " ++ Str.toFixed 6 (Num lo) /\
  (* the marker keeps the point as selected *)
  markerOf type s1 = Some p /\
  (* reading the stored pair back gives the rounded point *)
  storedPoint coords = L.latLng (Num (round6 la)) (Num (round6 lo)) /\
  (* and that is what a later route computation takes *)
  (forall s2,
      value s2 (roleName type ++ "CoordsHidden") = coords ->
      present (value s2 (roleName (other type) ++ "CoordsHidden")) = true ->
      truthy (value s2 "vehicleType") = true ->
      exists req,
        exec calculateRoute s2 = set_tasks (tasks s2 ++ [Directions req]) s2 /\
        match type with
        | pickup => pickupLat req = Num (round6 la) /\ pickupLng req = Num (round6 lo)
        | delivery => deliveryLat req = Num (round6 la) /\ deliveryLng req = Num (round6 lo)
        end).
Proof.
  intros Hm Hp p s1 coords.
  destruct (updateLocation_run p type s Hm Hp)
    as (s' & Hrun & Hv & Hlat & Hlng & _ & _ & Hmk & _).
  assert (Es : s1 = s') by (unfold s1, exec; now rewrite Hrun).
  assert (Ec : coords = rendered p) by (unfold coords; rewrite Es; exact Hv).
  rewrite Es. repeat split; try assumption.
  - unfold storedPoint. rewrite Ec. unfold p. now rewrite parseCoords_rendered.
  - intros s2 Hc Ho Hvt. exists (requestOf s2). split.
    + unfold exec. rewrite calculateRoute_run.
      assert (Hpres : present (value s2 (roleName type ++ "CoordsHidden")) = true)
        by (rewrite Hc, Ec; apply present_rendered).
      destruct type; cbn [roleName other append] in Hpres, Ho;
        change ("pickup" ++ "CoordsHidden") with "pickupCoordsHidden" in *;
        change ("delivery" ++ "CoordsHidden") with "deliveryCoordsHidden" in *;
        now rewrite Hpres, Ho, Hvt.
    + unfold requestOf. rewrite Ec in Hc. unfold p in Hc.
      destruct type; cbn [roleName append] in Hc;
        change ("pickup" ++ "CoordsHidden") with "pickupCoordsHidden" in *;
        change ("delivery" ++ "CoordsHidden") with "deliveryCoordsHidden" in *;
        rewrite Hc, parseCoords_rendered; cbn; auto.
Qed.


Lemma isReady_eq s :
  isReady s
  = present (value s "pickupCoordsHidden") && present (value s "deliveryCoordsHidden") &&
    (L.contains UGANDA_BOUNDS (storedPoint (value s "pickupCoordsHidden")) &&
     L.contains UGANDA_BOUNDS (storedPoint (value s "deliveryCoordsHidden"))).
Proof.
  unfold isReady, exec, checkRouteAvailability, present, storedPoint.
  cbn [bind getValue fst snd].
  set (pc := value s "pickupCoordsHidden"). set (dc := value s "deliveryCoordsHidden").
  destruct (truthy pc), (negb (pc =? "Not set")), (truthy dc), (negb (dc =? "Not set"));
    cbn [andb]; try reflexivity.
  destruct (L.contains UGANDA_BOUNDS _), (L.contains UGANDA_BOUNDS _); reflexivity.
Qed.

Lemma clearLocation_guard type s :
  mapOf type s = None \/ markerOf type s = None -> clearLocation type s = (Some tt, s).
Proof.
  intros H. unfold clearLocation. cbn [bind get].
  destruct (mapOf type s), (markerOf type s); destruct H; try discriminate; reflexivity.
Qed.

(** A role without a map has no marker and holds no point. *)
Lemma Inv_no_map type s :
  Inv s -> mapOf type s = None ->
  markerOf type s = None /\ present (value s (hiddenId type)) = false.
Proof.
  intros HI Hmap. destruct (Inv_role type HI) as [H1 H2].
  assert (Hmk : markerOf type s = None).
  { destruct (markerOf type s); [| reflexivity]. exfalso. apply H1; [discriminate | exact Hmap]. }
  split; [exact Hmk |].
  destruct (present (value s (hiddenId type))); [| reflexivity].
  destruct (H2 eq_refl) as [Hk _]. contradiction.
Qed.




(* ================================================================== *)
(** * A sample session *)
(* ================================================================== *)

Lemma contains_defaultCenter : L.contains UGANDA_BOUNDS defaultCenter = true.
Proof. apply contains_UGANDA_Num. lra. Qed.

Lemma contains_dropOff : L.contains UGANDA_BOUNDS dropOff = true.
Proof. apply contains_UGANDA_Num. lra. Qed.

Lemma initial_emptyPage : initial emptyPage.
Proof. unfold initial. cbn. repeat split; reflexivity. Qed.

Lemma onMapClick_accept p type s :
  L.contains UGANDA_BOUNDS p = true ->
  exec (onMapClick p type) s = exec (updateLocation p type) s.
Proof.
  intros Hc. unfold onMapClick. rewrite Hc. cbn [negb]. rewrite exec_bind.
  unfold exec. now destruct (updateLocation p type s) as [[[] |] s1].
Qed.

Lemma page_maps_facts :
  pickupMap page_maps <> None /\ deliveryMap page_maps <> None /\
  pickupMarker page_maps <> None /\ deliveryMarker page_maps <> None /\
  value page_maps = (fun _ => "") /\ tasks page_maps = [].
Proof. cbn. repeat split; discriminate. Qed.

Lemma page_pickup_facts :
  pickupMap page_pickup <> None /\ deliveryMap page_pickup <> None /\
  deliveryMarker page_pickup <> None /\
  value page_pickup "pickupCoordsHidden" = rendered defaultCenter.
Proof.
  destruct page_maps_facts as (Hpm & Hdm & Hpk & Hdk & _).
  unfold page_pickup. rewrite onMapClick_accept by apply contains_defaultCenter.
  destruct (updateLocation_run defaultCenter pickup page_maps Hpk Hpm)
    as (s' & Hrun & Hv & _ & _ & _ & _ & _ & Hmo & Hp & Hd & _).
  unfold exec. rewrite Hrun. cbn [snd]. cbn [other markerOf] in Hmo.
  rewrite Hp, Hd, Hmo. repeat split; assumption.
Qed.

Lemma page_located_facts :
  pickupMap page_located <> None /\ deliveryMap page_located <> None /\
  value page_located "pickupCoordsHidden" = rendered defaultCenter /\
  value page_located "deliveryCoordsHidden" = rendered dropOff.
Proof.
  destruct page_pickup_facts as (Hpm & Hdm & Hdk & Hvp).
  unfold page_located. rewrite onMapClick_accept by apply contains_dropOff.
  destruct (updateLocation_run dropOff delivery page_pickup Hdk Hdm)
    as (s' & Hrun & Hv & _ & _ & Hvo & _ & _ & _ & Hp & Hd & _).
  unfold exec. rewrite Hrun. cbn [snd]. cbn [other hiddenId roleName append] in Hvo, Hv.
  rewrite Hp, Hd. repeat split; try assumption.
  - etransitivity; [exact Hvo | exact Hvp].
Qed.

Lemma page_vehicle_facts :
  pickupMap page_vehicle <> None /\ deliveryMap page_vehicle <> None /\
  value page_vehicle "pickupCoordsHidden" = rendered defaultCenter /\
  value page_vehicle "deliveryCoordsHidden" = rendered dropOff /\
  value page_vehicle "vehicleType" = "car".
Proof.
  destruct page_located_facts as (Hpm & Hdm & Hvp & Hvd).
  unfold page_vehicle, exec. cbn. repeat split; assumption.
Qed.

Lemma page_requested_eq :
  page_requested
  = set_tasks (tasks page_vehicle ++ [Directions (requestOf page_vehicle)]) page_vehicle.
Proof.
  destruct page_vehicle_facts as (_ & _ & Hvp & Hvd & Hvt).
  unfold page_requested, exec. rewrite calculateRoute_run.
  now rewrite Hvp, Hvd, Hvt, !present_rendered.
Qed.

Lemma reachable_page_requested tls : reachable tls page_requested.
Proof.
  destruct page_maps_facts as (Hpm & Hdm & _).
  destruct page_pickup_facts as (_ & Hdm1 & _).
  assert (H1 : reachable tls page_maps).
  { eapply reachable_step; [apply reachable_initial, initial_emptyPage | constructor]. }
  assert (H2 : reachable tls page_pickup).
  { eapply reachable_step; [exact H1 |]. now apply step_click. }
  assert (H3 : reachable tls page_located).
  { eapply reachable_step; [exact H2 |]. now apply step_click. }
  assert (H4 : reachable tls page_vehicle).
  { eapply reachable_step; [exact H3 |]. apply step_input. cbn. intuition discriminate. }
  eapply reachable_step; [exact H4 | constructor].
Qed.

Lemma pick_page_requested :
  pick (Directions (requestOf page_vehicle)) (tasks page_requested) (tasks page_vehicle).
Proof. rewrite page_requested_eq. cbn [tasks set_tasks]. apply pick_last. Qed.

Lemma exec_sameLayer A (m : M A) s :
  respects sameLayer m -> routeLayer (exec m s) = routeLayer s.
Proof. intros H. apply H. Qed.

Lemma setValue_sameLayer id v : respects sameLayer (setValue id v).
Proof. layer_tac. Qed.

(** No route was computed before the request of the session. *)
Lemma page_requested_noRoute : routeLayer page_requested = None.
Proof.
  unfold page_requested. rewrite (@exec_sameLayer _ _ page_vehicle calculateRoute_sameLayer).
  unfold page_vehicle. rewrite (@exec_sameLayer _ _ page_located (setValue_sameLayer _ _)).
  unfold page_located. rewrite (@exec_sameLayer _ _ page_pickup (onMapClick_sameLayer _ _)).
  unfold page_pickup. rewrite (@exec_sameLayer _ _ page_maps (onMapClick_sameLayer _ _)).
  unfold page_maps. rewrite (@exec_sameLayer _ _ emptyPage (initMaps_sameLayer _ _)).
  reflexivity.
Qed.

Lemma page_request_layerInv : layerInv (set_tasks (tasks page_vehicle) page_requested).
Proof.
  intros l E. cbn [routeLayer set_tasks] in E. rewrite page_requested_noRoute in E.
  discriminate E.
Qed.

Lemma page_routed_facts :
  pickupMap page_routed <> None /\ pickupMarker page_routed <> None /\
  value page_routed "pickupCoordsHidden" = rendered defaultCenter /\
  value page_routed "deliveryCoordsHidden" = rendered dropOff /\
  routeLayer page_routed
  = Some (onBothMaps (geometry (fallbackRoute (requestOf page_vehicle)))) /\
  textContent page_routed "routeDistance"
  = Str.toFixed 1 (distanceKm (fallbackRoute (requestOf page_vehicle))) ++ " km".
Proof.
  destruct page_vehicle_facts as (Hpm & Hdm & Hvp & Hvd & _).
  pose proof (reachable_Inv (reachable_page_requested plainLocale)) as HI.
  pose proof (keeps_set_tasks page_requested pick_page_requested) as K1.
  pose proof (keeps_calculateRoute_response plainLocale (requestOf page_vehicle) FetchRejected
                (set_tasks (tasks page_vehicle) page_requested)) as K2.
  pose proof (keeps_trans K1 K2) as (Kp & _ & Kk & _ & Kv1 & Kv2 & _).
  fold page_routed in Kp, Kk, Kv1, Kv2.
  assert (Hreq : value page_requested = value page_vehicle /\
                 pickupMap page_requested = pickupMap page_vehicle /\
                 deliveryMap page_requested = deliveryMap page_vehicle)
    by (rewrite page_requested_eq; cbn; auto).
  destruct Hreq as (Ev & Ep & Ed).
  destruct (@calculateRoute_response_run plainLocale (requestOf page_vehicle) FetchRejected
              (set_tasks (tasks page_vehicle) page_requested))
    as (r & s' & Hrun & _ & Hr & Hl & _ & Ht & _).
  { cbn. now rewrite Ep. }
  { cbn. now rewrite Ed. }
  { exact page_request_layerInv. }
  specialize (Hr eq_refl). subst r.
  assert (Es : page_routed = s') by (unfold page_routed, exec; now rewrite Hrun).
  rewrite Kp, Kv1, Kv2, Ev, Ep. repeat split; try assumption.
  - destruct HI as ((_ & Hpres) & _). intros E. apply Kk in E. revert E.
    apply Hpres. unfold hiddenId. cbn [roleName append].
    change ("pickup" ++ "CoordsHidden") with "pickupCoordsHidden".
    rewrite Ev, Hvp. apply present_rendered.
  - now rewrite Es.
  - now rewrite Es.
Qed.

Lemma reachable_page_routed : reachable plainLocale page_routed.
Proof.
  eapply reachable_step; [apply reachable_page_requested |].
  unfold page_routed. apply step_route_response. apply pick_page_requested.
Qed.


Lemma page_routed_tasks : tasks page_routed = tasks page_vehicle.
Proof.
  destruct (calculateRoute_response_routeOnly plainLocale (requestOf page_vehicle) FetchRejected
              (set_tasks (tasks page_vehicle) page_requested))
    as (_ & _ & _ & _ & _ & _ & _ & _ & Ht).
  exact Ht.
Qed.





(** ** Sample values *)

Lemma scaled_eq f x n :
  (0 <= x)%R -> (IZR n <= x * 10 ^ f + / 2 < IZR n + 1)%R -> scaled f x = n.
Proof.
  intros Hx H. unfold scaled. rewrite Rabs_pos_eq by assumption. now apply Zfloor_eq.
Qed.

Example toFixed6_kampala_latitude : Str.toFixed 6 (Num 0.3476) = "0.347600".
Proof.
  unfold Str.toFixed. fold (scaled 6 0.3476).
  rewrite (@scaled_eq 6 0.3476 347600) by lra.
  destruct (Rlt_dec 0.3476 0); [lra | reflexivity].
Qed.

Example toFixed6_rounds : Str.toFixed 6 (Num 0.34760049) = "0.347600".
Proof.
  unfold Str.toFixed. fold (scaled 6 0.34760049).
  rewrite (@scaled_eq 6 0.34760049 347600) by lra.
  destruct (Rlt_dec 0.34760049 0); [lra | reflexivity].
Qed.

Example toFixed6_tie_goes_up : Str.toFixed 6 (Num 0.0078125) = "0.007813".
Proof.
  unfold Str.toFixed. fold (scaled 6 0.0078125).
  rewrite (@scaled_eq 6 0.0078125 7813) by lra.
  destruct (Rlt_dec 0.0078125 0); [lra | reflexivity].
Qed.

Example ugPhoneValid_samples :
  ugPhoneValid "+256 712-345 678" = true /\
  ugPhoneValid "0712345678" = true /\
  ugPhoneValid "256712345678" = true /\
  ugPhoneValid "0812345678" = false /\
  ugPhoneValid "07123456789" = false /\
  ugPhoneValid "+2560712345678" = false /\
  ugPhoneValid "" = false.
Proof. repeat split; vm_compute; reflexivity. Qed.
(* ================================================================== *)
(** * Instances and counterexamples *)
(* ================================================================== *)

Lemma page_request_maps :
  pickupMap (set_tasks (tasks page_vehicle) page_requested) <> None /\
  deliveryMap (set_tasks (tasks page_vehicle) page_requested) <> None.
Proof.
  destruct page_vehicle_facts as (Hpm & Hdm & _).
  rewrite page_requested_eq. cbn. auto.
Qed.

Lemma page_request_vehicle : vehicleType (requestOf page_vehicle) = "car".
Proof. destruct page_vehicle_facts as (_ & _ & _ & _ & Hv). exact Hv. Qed.

(** The fallback run of the session. *)
Lemma page_fallback_run :
  exists s',
    calculateRoute_response plainLocale (requestOf page_vehicle) FetchRejected
      (set_tasks (tasks page_vehicle) page_requested)
    = (Some (fallbackRoute (requestOf page_vehicle)), s').
Proof.
  destruct page_request_maps as [Hp Hd].
  destruct (@calculateRoute_response_run plainLocale (requestOf page_vehicle) FetchRejected
              (set_tasks (tasks page_vehicle) page_requested) Hp Hd page_request_layerInv)
    as (r & s' & Hrun & _ & Hr & _).
  rewrite (Hr eq_refl) in Hrun. now exists s'.
Qed.







Lemma contains_far_away : L.contains UGANDA_BOUNDS (L.latLng (Num 10) (Num 10)) = false.
Proof.
  destruct (L.contains UGANDA_BOUNDS (L.latLng (Num 10) (Num 10))) eqn:E; [| reflexivity].
  apply contains_UGANDA_Num in E. lra.
Qed.

(** A click and a drag at (10, 10), outside Uganda. *)
Lemma rejected_selection_keeps_store_witness :
  L.contains UGANDA_BOUNDS (L.latLng (Num 10) (Num 10)) = false /\
  value (exec (onMapClick (L.latLng (Num 10) (Num 10)) pickup) page_located)
  = value page_located /\
  value (exec (onMarkerDragEnd pickup)
           (set_markerOf pickup (Some (L.latLng (Num 10) (Num 10))) page_located))
  = value page_located.
Proof.
  split; [apply contains_far_away |].
  destruct (rejected_selection_keeps_store page_located _ pickup contains_far_away)
    as (_ & _ & _ & _ & Hc & _ & _ & Hd).
  split; assumption.
Defined.

(** A click at latitude 0.34760049 is stored as 0.347600. *)
Lemma accepted_point_stored_rounded_witness :
  value (exec (updateLocation (L.latLng (Num 0.34760049) (Num 32.5825)) pickup) page_maps)
        "pickupCoordsHidden"
  = "0.347600, 32.582500" /\
  storedPoint
    (value (exec (updateLocation (L.latLng (Num 0.34760049) (Num 32.5825)) pickup) page_maps)
           "pickupCoordsHidden")
  = L.latLng (Num (round6 0.34760049)) (Num (round6 32.5825)).
Proof.
  assert (Hk : markerOf pickup page_maps <> None) by (cbn; discriminate).
  assert (Hm : mapOf pickup page_maps <> None) by (cbn; discriminate).
  destruct (accepted_point_stored_rounded page_maps pickup 0.34760049 32.5825 Hk Hm)
    as (_ & _ & Hc & _ & Hs & _).
  cbn [roleName append] in Hc, Hs.
  change ("pickup" ++ "CoordsHidden") with "pickupCoordsHidden" in Hc, Hs.
  split; [| exact Hs].
  rewrite Hc, toFixed6_rounds.
  unfold Str.toFixed. fold (scaled 6 32.5825).
  rewrite (@scaled_eq 6 32.5825 32582500) by lra.
  destruct (Rlt_dec 32.5825 0); [lra | reflexivity].
Defined.

(** A sender phone of five digits stops the submission. *)
Lemma phone_validation_witness :
  ugPhoneValid (value page_badPhone "senderPhone") = false /\
  exists msg,
    exec (onSubmit "now") page_badPhone
    = set_notifications (notifications page_badPhone ++ [msg]) page_badPhone /\
    tasks (exec (onSubmit "now") page_badPhone) = tasks page_badPhone.
Proof.
  assert (Hbad : ugPhoneValid (value page_badPhone "senderPhone") = false)
    by (vm_compute; reflexivity).
  split; [exact Hbad |].
  exact (proj2 (phone_validation page_badPhone "now" "") (or_introl Hbad)).
Defined.

(* ================================================================== *)
(** * Rounding to six decimals *)
(* ================================================================== *)

Open Scope R_scope.

Lemma pow10_pos (k : nat) : 0 < 10 ^ k.
Proof. apply pow_lt. lra. Qed.

Lemma round6_nonneg x : 0 <= x -> round6 x = IZR (Zfloor (x * 10 ^ 6 + / 2)) / 10 ^ 6.
Proof.
  intros Hx. unfold round6. destruct (Rlt_dec x 0); [lra |].
  rewrite Rabs_pos_eq by assumption. lra.
Qed.

Lemma round6_neg x : x < 0 -> round6 x = - (IZR (Zfloor (- x * 10 ^ 6 + / 2)) / 10 ^ 6).
Proof.
  intros Hx. unfold round6. destruct (Rlt_dec x 0); [| lra].
  rewrite Rabs_left by assumption. lra.
Qed.

Lemma Zfloor_half_nonneg y : 0 <= y -> (0 <= Zfloor (y + / 2))%Z.
Proof. intros Hy. apply Zfloor_lub. simpl. lra. Qed.


(** A multiple of 10^-6 is its own rounding. *)
Lemma round6_grid (m : Z) : round6 (IZR m / 10 ^ 6) = IZR m / 10 ^ 6.
Proof.
  pose proof (pow10_pos 6) as Hp.
  destruct (Z_lt_le_dec m 0) as [Hm | Hm].
  - assert (Hx : IZR m / 10 ^ 6 < 0).
    { apply IZR_lt in Hm. unfold Rdiv. apply Rmult_neg_pos; [exact Hm |].
      now apply Rinv_0_lt_compat. }
    rewrite round6_neg by assumption.
    replace (- (IZR m / 10 ^ 6) * 10 ^ 6 + / 2) with (IZR (- m) + / 2)
      by (rewrite opp_IZR; field; lra).
    rewrite (Zfloor_eq (- m)) by lra. rewrite opp_IZR. lra.
  - assert (Hx : 0 <= IZR m / 10 ^ 6).
    { apply IZR_le in Hm. unfold Rdiv. apply Rmult_le_pos; [exact Hm |].
      left. now apply Rinv_0_lt_compat. }
    rewrite round6_nonneg by assumption.
    replace (IZR m / 10 ^ 6 * 10 ^ 6 + / 2) with (IZR m + / 2) by (field; lra).
    rewrite (Zfloor_eq m) by lra. reflexivity.
Qed.

Lemma round6_on_grid x : exists m : Z, round6 x = IZR m / 10 ^ 6.
Proof.
  destruct (Rlt_dec x 0) as [Hx | Hx].
  - exists (- Zfloor (- x * 10 ^ 6 + / 2))%Z. rewrite round6_neg by assumption.
    rewrite opp_IZR. lra.
  - exists (Zfloor (x * 10 ^ 6 + / 2)). apply round6_nonneg. lra.
Qed.

(** Rounding twice is rounding once. *)
Lemma round6_idem x : round6 (round6 x) = round6 x.
Proof. destruct (round6_on_grid x) as [m ->]. apply round6_grid. Qed.

Lemma round6_sign_nonneg x : 0 <= x -> 0 <= round6 x.
Proof.
  intros Hx. rewrite round6_nonneg by assumption.
  pose proof (pow10_pos 6) as Hp.
  unfold Rdiv. apply Rmult_le_pos; [| left; now apply Rinv_0_lt_compat].
  apply IZR_le, Zfloor_half_nonneg. apply Rmult_le_pos; lra.
Qed.

Lemma round6_sign_neg x : x < 0 -> round6 x <= 0.
Proof.
  intros Hx. rewrite round6_neg by assumption.
  pose proof (pow10_pos 6) as Hp.
  assert (0 <= IZR (Zfloor (- x * 10 ^ 6 + / 2)) / 10 ^ 6); [| lra].
  unfold Rdiv. apply Rmult_le_pos; [| left; now apply Rinv_0_lt_compat].
  apply IZR_le, Zfloor_half_nonneg. apply Rmult_le_pos; lra.
Qed.

Lemma round6_mono x y : x <= y -> round6 x <= round6 y.
Proof.
  intros Hxy. pose proof (pow10_pos 6) as Hp.
  assert (Hinv : 0 <= / 10 ^ 6) by (left; now apply Rinv_0_lt_compat).
  destruct (Rlt_dec x 0) as [Hx | Hx], (Rlt_dec y 0) as [Hy | Hy].
  - rewrite !round6_neg by assumption.
    apply Ropp_le_contravar. unfold Rdiv. apply Rmult_le_compat_r; [exact Hinv |].
    apply IZR_le, Zfloor_le. nra.
  - pose proof (round6_sign_neg Hx). pose proof (@round6_sign_nonneg y ltac:(lra)). lra.
  - lra.
  - rewrite !round6_nonneg by lra.
    unfold Rdiv. apply Rmult_le_compat_r; [exact Hinv |].
    apply IZR_le, Zfloor_le. nra.
Qed.

(** Rounding keeps a coordinate on its side of a bound that is itself a
    multiple of 10^-6. *)
Lemma round6_bounds (lo hi : Z) x :
  IZR lo / 10 ^ 6 <= x <= IZR hi / 10 ^ 6 ->
  IZR lo / 10 ^ 6 <= round6 x <= IZR hi / 10 ^ 6.
Proof.
  intros [H1 H2]. split.
  - rewrite <- (round6_grid lo). now apply round6_mono.
  - rewrite <- (round6_grid hi). now apply round6_mono.
Qed.

Lemma round6_UGANDA la lo :
  -1.5 <= la <= 4.9 /\ 29.5 <= lo <= 35.1 ->
  -1.5 <= round6 la <= 4.9 /\ 29.5 <= round6 lo <= 35.1.
Proof.
  intros [Hla Hlo].
  pose proof (@round6_bounds (-1500000) 4900000 la) as A.
  pose proof (@round6_bounds 29500000 35100000 lo) as B.
  assert (A' : (-1500000 / 10 ^ 6 <= la <= 4900000 / 10 ^ 6)%R) by lra.
  assert (B' : (29500000 / 10 ^ 6 <= lo <= 35100000 / 10 ^ 6)%R) by lra.
  specialize (A A'). specialize (B B'). lra.
Qed.

Close Scope R_scope.

(* ================================================================== *)
(** * The straight-line distance and the prices *)
(* ================================================================== *)

Lemma asin_nonneg (x : R) : (0 <= x <= 1)%R -> (0 <= asin x)%R.
Proof.
  intros Hx. destruct (Rle_dec 0 (asin x)) as [H | H]; [exact H | exfalso].
  apply Rnot_le_lt in H.
  pose proof (asin_bound x) as [Hb _]. pose proof PI_RGT_0 as Hpi.
  assert (Hs : (sin (asin x) < 0)%R) by (apply sin_lt_0_var; lra).
  rewrite sin_asin in Hs by lra. lra.
Qed.

Lemma haversineKm_range (lat1 lon1 lat2 lon2 : R) :
  (0 <= haversineKm lat1 lon1 lat2 lon2 <= 6371 * PI)%R.
Proof.
  unfold haversineKm. pose proof (hav_range lat1 lon1 lat2 lon2) as [H0 H1].
  set (h := hav lat1 lon1 lat2 lon2) in *.
  assert (Hs : (0 <= sqrt h <= 1)%R).
  { split; [apply sqrt_pos |]. rewrite <- sqrt_1. now apply sqrt_le_1_alt. }
  pose proof (asin_nonneg Hs) as Ha. pose proof (asin_bound (sqrt h)) as [_ Hb].
  lra.
Qed.

Open Scope R_scope.

Lemma PI_gt_3 : 3 < PI.
Proof. pose proof PI2_3_2. lra. Qed.

Lemma sin_sqr_le x : -1 <= x <= 1 -> (sin x)² <= x².
Proof.
  intros Hx.
  assert (H : forall y, 0 <= y <= 1 -> 0 <= sin y <= y).
  { intros y [H0 H1]. pose proof PI_gt_3. split; [apply sin_ge_0; lra |].
    destruct (Req_dec y 0) as [-> | Hy]; [rewrite sin_0; lra |].
    left. apply sin_lt_x. lra. }
  unfold Rsqr. destruct (Rle_dec 0 x).
  - destruct (H x); [lra |]. nra.
  - destruct (H (- x)) as [H1 H2]; [lra |]. rewrite sin_neg in H1, H2. nra.
Qed.

Lemma sin_tenth : 0.095 <= sin 0.1.
Proof.
  pose proof PI_gt_3.
  destruct (SIN 0.1) as [H1 _]; [lra | lra |].
  eapply Rle_trans; [| exact H1].
  unfold sin_lb, sin_approx, sin_term. cbn [sum_f_R0 Nat.mul Nat.add].
  rewrite !INR_IZR_INZ.
  change (Z.of_nat (fact 1)) with 1%Z. change (Z.of_nat (fact 3)) with 6%Z.
  change (Z.of_nat (fact 5)) with 120%Z. change (Z.of_nat (fact 7)) with 5040%Z.
  lra.
Qed.

Lemma asin_le y t : 0 <= y <= 1 -> 0 <= t <= PI / 2 -> y <= sin t -> asin y <= t.
Proof.
  intros Hy Ht Hs. destruct (Rle_dec (asin y) t) as [| Hn]; [assumption |].
  exfalso. assert (Hlt : t < asin y) by lra.
  pose proof (asin_bound y) as Hb.
  apply sin_increasing_1 in Hlt; try lra.
  rewrite sin_asin in Hlt by lra. lra.
Qed.

(** Between two points inside the Uganda bounds the haversine term stays
    small: the angles are at most 6.4 and 5.6 degrees. *)
Lemma hav_inside_uganda la1 lo1 la2 lo2 :
  -1.5 <= la1 <= 4.9 -> 29.5 <= lo1 <= 35.1 ->
  -1.5 <= la2 <= 4.9 -> 29.5 <= lo2 <= 35.1 ->
  hav la1 lo1 la2 lo2 <= 0.009.
Proof.
  intros H1 H2 H3 H4. unfold hav, radians.
  pose proof PI_4 as P4. pose proof PI_RGT_0 as P0.
  set (u := (la2 - la1) * PI / 180 / 2). set (w := (lo2 - lo1) * PI / 180 / 2).
  assert (Hu : -0.0712 <= u <= 0.0712) by (unfold u; split; nra).
  assert (Hw : -0.0623 <= w <= 0.0623) by (unfold w; split; nra).
  pose proof (@sin_sqr_le u) as Su. pose proof (@sin_sqr_le w) as Sw.
  pose proof (COS_bound (la1 * PI / 180)) as C1.
  pose proof (COS_bound (la2 * PI / 180)) as C2.
  pose proof (Rle_0_sqr (sin w)) as Pw.
  unfold Rsqr in *.
  assert (Su' : sin u * sin u <= u * u) by (apply Su; lra).
  assert (Sw' : sin w * sin w <= w * w) by (apply Sw; lra).
  set (c1 := cos (la1 * PI / 180)) in *. set (c2 := cos (la2 * PI / 180)) in *.
  set (sw := sin w * sin w) in *. set (su := sin u * sin u) in *.
  assert (Hcc : c1 * c2 <= 1).
  { assert (0 <= (1 - c1) * (1 + c2)) by (apply Rmult_le_pos; lra).
    assert (0 <= (1 + c1) * (1 - c2)) by (apply Rmult_le_pos; lra). lra. }
  assert (Hc : c1 * c2 * sw <= sw).
  { assert (0 <= (1 - c1 * c2) * sw) by (apply Rmult_le_pos; lra). lra. }
  assert (Huu : u * u <= 0.0712 * 0.0712) by nra.
  assert (Hww : w * w <= 0.0623 * 0.0623) by nra.
  lra.
Qed.

Lemma haversineKm_inside_uganda la1 lo1 la2 lo2 :
  -1.5 <= la1 <= 4.9 -> 29.5 <= lo1 <= 35.1 ->
  -1.5 <= la2 <= 4.9 -> 29.5 <= lo2 <= 35.1 ->
  0 <= haversineKm la1 lo1 la2 lo2 <= 1275.
Proof.
  intros H1 H2 H3 H4.
  pose proof (@hav_inside_uganda _ _ _ _ H1 H2 H3 H4) as Hh.
  pose proof (hav_range la1 lo1 la2 lo2) as [Hh0 _].
  pose proof (haversineKm_range la1 lo1 la2 lo2) as [Hk0 _]. split; [exact Hk0 |].
  unfold haversineKm.
  assert (Hs : sqrt (hav la1 lo1 la2 lo2) <= 0.095).
  { apply Rsqr_incr_0_var; [| lra]. rewrite Rsqr_sqrt by assumption. unfold Rsqr. lra. }
  pose proof (sqrt_pos (hav la1 lo1 la2 lo2)) as Hs0.
  pose proof PI_gt_3.
  assert (Ha : asin (sqrt (hav la1 lo1 la2 lo2)) <= 0.1).
  { apply asin_le; [lra | lra |]. pose proof sin_tenth. lra. }
  lra.
Qed.

Close Scope R_scope.

Lemma rate_cases vt :
  (if vt =? "motorcycle" then RATE_MOTORCYCLE else RATE_CAR)
  = Num (IZR (rateOf vt)).
Proof. unfold rateOf. now destruct (vt =? "motorcycle"). Qed.

(** The primary price in closed form: the outer rounding works on a whole
    number. *)
Lemma primary_closed_form (km : R) vt :
  Math.round (BASE_FEE + Math.round (Num km)
                         * (if vt =? "motorcycle" then RATE_MOTORCYCLE else RATE_CAR))%js
  = Num (IZR (3000 + Zfloor (km + / 2) * rateOf vt)).
Proof.
  rewrite rate_cases. unfold BASE_FEE. cbn [Math.round Number.mul Number.add Number.lift2].
  rewrite <- mult_IZR, <- plus_IZR. apply round_IZR.
Qed.

Lemma fallback_price (km : R) vt :
  Math.round (BASE_FEE + Num km
                         * (if vt =? "motorcycle" then RATE_MOTORCYCLE else RATE_CAR))%js
  = Num (IZR (Zfloor (3000 + km * IZR (rateOf vt) + / 2))).
Proof. rewrite rate_cases. reflexivity. Qed.

(** What a route costs, by its branch, when its distance is a number. *)
Lemma route_price tls req response s r km :
  result (calculateRoute_response tls req response) s = Some r ->
  distanceKm r = Num km ->
  let rate := rateOf (vehicleType req) in
  costEstimate r
  = match source r with
    | Primary => Num (IZR (3000 + Zfloor (km + / 2) * rate))
    | Fallback => Num (IZR (Zfloor (3000 + km * IZR rate + / 2)))
    end.
Proof.
  intros Hr Hkm rate. unfold result in Hr.
  destruct (calculateRoute_response tls req response s) as [o s'] eqn:Hrun.
  cbn in Hr. subst o.
  destruct (calculateRoute_response_result _ _ _ _ Hrun) as [[Hs Hc] | ->].
  - rewrite Hs, Hc, Hkm. unfold estimateCost_primary.
    rewrite <- rate_ratePerKm. apply primary_closed_form.
  - cbn [source fallbackRoute costEstimate distanceKm] in *. rewrite Hkm.
    apply fallback_price.
Qed.

(** Property X2.  On the primary path, for a numeric distance, the
    estimate is exactly 3000 + rate * (the kilometers rounded to a whole
    number, a half going up): the outer [Math.round] changes nothing, the
    estimate is a multiple of 500, and a route shorter than 500 meters
    costs the base fee. *)
Theorem primary_price_whole_km tls req response s r km :
  result (calculateRoute_try tls req response) s = Some r ->
  distanceKm r = Num km ->
  let rate := rateOf (vehicleType req) in
  costEstimate r = Num (IZR (3000 + Zfloor (km + / 2) * rate)) /\
  (exists k : Z, costEstimate r = Num (IZR (500 * k))) /\
  ((- / 2 <= km < / 2)%R -> costEstimate r = Num 3000).
Proof.
  intros Hr Hkm rate. unfold result in Hr.
  destruct (calculateRoute_try tls req response s) as [o s'] eqn:Hrun.
  cbn in Hr. subst o.
  destruct (calculateRoute_try_result _ _ _ _ Hrun) as (_ & Hc & _).
  rewrite Hkm, primary_closed_form in Hc. fold rate in Hc.
  split; [exact Hc |]. split.
  - rewrite Hc. subst rate. unfold rateOf.
    destruct (vehicleType req =? "motorcycle").
    + exists (6 + Zfloor (km + / 2) * 3)%Z. do 2 f_equal. lia.
    + exists (6 + Zfloor (km + / 2) * 8)%Z. do 2 f_equal. lia.
  - intros Hs. rewrite Hc, (Zfloor_eq 0) by (simpl; lra).
    do 2 f_equal.
Qed.

(** Property X3.  Of two routes from the same branch (primary or
    fallback) for the same vehicle type, the one with the longer distance
    never has the lower estimate. *)
Theorem longer_route_not_cheaper tls req1 req2 response1 response2 s1 s2 r1 r2 km1 km2 :
  result (calculateRoute_response tls req1 response1) s1 = Some r1 ->
  result (calculateRoute_response tls req2 response2) s2 = Some r2 ->
  vehicleType req1 = vehicleType req2 -> source r1 = source r2 ->
  distanceKm r1 = Num km1 -> distanceKm r2 = Num km2 -> (km1 <= km2)%R ->
  exists c1 c2 : R,
    costEstimate r1 = Num c1 /\ costEstimate r2 = Num c2 /\ (c1 <= c2)%R.
Proof.
  intros H1 H2 Hv Hs Hk1 Hk2 Hle.
  pose proof (route_price _ _ _ _ H1 Hk1) as P1.
  pose proof (route_price _ _ _ _ H2 Hk2) as P2.
  cbv zeta in P1, P2. rewrite <- Hv, <- Hs in P2.
  rewrite P1, P2.
  assert (Hrate : (0 < rateOf (vehicleType req1))%Z)
    by (unfold rateOf; destruct (vehicleType req1 =? "motorcycle"); lia).
  set (rate := rateOf (vehicleType req1)) in *.
  destruct (source r1); do 2 eexists; (split; [reflexivity |]); (split; [reflexivity |]);
    apply IZR_le.
  - assert (Zfloor (km1 + / 2) <= Zfloor (km2 + / 2))%Z by (apply Zfloor_le; lra). nia.
  - apply Zfloor_le. apply IZR_lt in Hrate. nra.
Qed.

(** Property X4.  For the same distance, not negative, on the same
    branch, the estimate for a motorcycle is at least the base fee 3000
    and at most the estimate for any other vehicle type. *)
Theorem motorcycle_not_dearer tls req1 req2 response1 response2 s1 s2 r1 r2 km :
  result (calculateRoute_response tls req1 response1) s1 = Some r1 ->
  result (calculateRoute_response tls req2 response2) s2 = Some r2 ->
  vehicleType req1 = "motorcycle" -> source r1 = source r2 ->
  distanceKm r1 = Num km -> distanceKm r2 = Num km -> (0 <= km)%R ->
  exists c1 c2 : R,
    costEstimate r1 = Num c1 /\ costEstimate r2 = Num c2 /\ (3000 <= c1 <= c2)%R.
Proof.
  intros H1 H2 Hv Hs Hk1 Hk2 Hkm.
  pose proof (route_price _ _ _ _ H1 Hk1) as P1.
  pose proof (route_price _ _ _ _ H2 Hk2) as P2.
  cbv zeta in P1, P2. rewrite <- Hs in P2. rewrite Hv in P1.
  change (rateOf "motorcycle") with 1500%Z in P1.
  rewrite P1, P2.
  assert (Hrate : (1500 <= rateOf (vehicleType req2))%Z)
    by (unfold rateOf; destruct (vehicleType req2 =? "motorcycle"); lia).
  set (rate := rateOf (vehicleType req2)) in *.
  destruct (source r1); do 2 eexists; (split; [reflexivity |]); (split; [reflexivity |]).
  - assert (0 <= Zfloor (km + / 2))%Z by (apply Zfloor_lub; simpl; lra).
    split; [change 3000%R with (IZR 3000) |]; apply IZR_le; nia.
  - split.
    + change 3000%R with (IZR 3000). apply IZR_le, Zfloor_lub. nra.
    + apply IZR_le, Zfloor_le. apply IZR_le in Hrate. nra.
Qed.

(* ================================================================== *)
(** * The reverse lookup *)
(* ================================================================== *)

Lemma getAddress_display_name r : truthy (addr_display_name (getAddressFromCoordinates r)) = true.
Proof.
  destruct r as [| [|] [n |] c]; cbn; try reflexivity.
  unfold orElse. destruct (truthy n) eqn:E; [exact E | reflexivity].
Qed.

Lemma updateLocation_then_warns type addr s :
  truthy (addr_country addr) && Str.includes "uganda" (Str.toLowerCase (addr_country addr)) = false ->
  exec (updateLocation_then type addr) s
  = set_notifications
      (notifications s ++ ["Selected location is not in Uganda (reverse lookup)."]) s.
Proof. intros H. unfold updateLocation_then, exec. now rewrite H. Qed.

(** Property X5.  When the reverse lookup fails (the fetch rejects or the
    response is not ok), or its answer names no country, or a country
    whose name in lower case does not contain 'uganda', its continuation
    only adds the notification 'Selected location is not in Uganda
    (reverse lookup).': the stored location, the markers and the displays
    stay.  (Nothing is cleared, whatever the comment in the script
    says.) *)
Theorem lookup_not_uganda_only_warns (type : LocationRole) (s : State) :
  let warned :=
    set_notifications
      (notifications s ++ ["Selected location is not in Uganda (reverse lookup)."]) s in
  (* the lookup failed *)
  exec (updateLocation_then type (getAddressFromCoordinates LookupRejected)) s = warned /\
  (forall n c,
      exec (updateLocation_then type (getAddressFromCoordinates (LookupResponse false n c))) s
      = warned) /\
  (* the answer names no country *)
  (forall n,
      exec (updateLocation_then type (getAddressFromCoordinates (LookupResponse true n None))) s
      = warned) /\
  (* the answer names another country *)
  (forall n c,
      Str.includes "uganda" (Str.toLowerCase c) = false ->
      exec (updateLocation_then type (getAddressFromCoordinates (LookupResponse true n (Some c)))) s
      = warned) /\
  (* the stored location and the marker stay *)
  value warned = value s /\ pickupMarker warned = pickupMarker s /\
  deliveryMarker warned = deliveryMarker s /\ display warned = display s.
Proof.
  intros warned. split; [| split; [| split; [| split]]].
  - now apply updateLocation_then_warns.
  - intros n c. now apply updateLocation_then_warns.
  - intros n. now apply updateLocation_then_warns.
  - intros n c Hc. apply updateLocation_then_warns. cbn [getAddressFromCoordinates addr_country].
    rewrite Hc. apply andb_false_r.
  - repeat split.
Qed.

(** Property X6.  The continuation of the reverse lookup writes no input
    but the address field of the role; it leaves an address that is not
    blank and does not contain 'enter' (in any case) as it is; and what
    it writes is the display name the lookup gave, never the empty
    string. *)
Theorem autofill_keeps_typed_address (type : LocationRole) (r : NominatimResponse) (s : State) :
  let field := roleName type ++ "Address" in
  let current := value s field in
  let s' := exec (updateLocation_then type (getAddressFromCoordinates r)) s in
  (* an address that is not blank and does not contain "enter" stays *)
  (Str.trim current <> "" -> Str.includes "enter" (Str.toLowerCase current) = false ->
   value s' = value s) /\
  (* and what is written is the name the lookup gave, never empty *)
  (value s' field = current \/
   value s' field = addr_display_name (getAddressFromCoordinates r) /\
   truthy (value s' field) = true) /\
  (* nothing but the address field is written *)
  (forall id, id <> field -> value s' id = value s id).
Proof.
  intros field current s'. subst s' current field.
  pose proof (getAddress_display_name r) as Hn.
  set (addr := getAddressFromCoordinates r) in *.
  unfold updateLocation_then, exec.
  destruct (truthy (addr_country addr) && _).
  2: { cbn. repeat split; auto. }
  assert (Hf : (match type with pickup => "pickupAddress" | delivery => "deliveryAddress" end)
               = roleName type ++ "Address") by now destruct type.
  rewrite Hf. cbn [bind getValue].
  set (field := roleName type ++ "Address").
  set (current := value s field).
  destruct (truthy current) eqn:Ht; cbn [negb orb].
  - destruct (Str.includes "enter" (Str.toLowerCase current)) eqn:Hi; cbn [orb].
    + cbn. unfold orElse. rewrite Hn. unfold upd. rewrite String.eqb_refl.
      repeat split; auto.
      * intros _ E. discriminate.
      * intros id Hid. apply String.eqb_neq in Hid. now rewrite Hid.
    + destruct (Str.trim current =? "") eqn:Hb.
      * cbn. unfold orElse. rewrite Hn. unfold upd. rewrite String.eqb_refl.
        repeat split; auto.
        -- intros Hne. apply String.eqb_eq in Hb. contradiction.
        -- intros id Hid. apply String.eqb_neq in Hid. now rewrite Hid.
      * cbn. repeat split; auto.
  - cbn. unfold orElse. rewrite Hn. unfold upd. rewrite String.eqb_refl.
    repeat split; auto.
    + intros Hne. exfalso. apply Hne. unfold truthy in Ht.
      apply negb_false_iff, String.eqb_eq in Ht. subst current. rewrite Ht. reflexivity.
    + intros id Hid. apply String.eqb_neq in Hid. now rewrite Hid.
Qed.

(* ================================================================== *)
(** * Phone numbers *)
(* ================================================================== *)

Lemma removeAll_app p a b : Str.removeAll p (a ++ b) = Str.removeAll p a ++ Str.removeAll p b.
Proof.
  induction a as [| c a IH]; cbn; [reflexivity |].
  rewrite IH. now destruct (p c).
Qed.

Lemma ugPhoneValid_test v :
  ugPhoneValid v = Regex.test ugPhonePattern (withoutSeparators v).
Proof.
  rewrite ugPhoneValid_cleaned. destruct v; [vm_compute; reflexivity | reflexivity].
Qed.

Lemma ugandanShape_prefix p w :
  p = "+256" \/ p = "0" \/ p = "256" ->
  ugandanShape (p ++ w) <-> nationalNumber w.
Proof.
  intros Hp. unfold ugandanShape, nationalNumber. split.
  - intros (prefix & digits & E & Hq & Hl & Hd). exists digits.
    repeat split; try assumption.
    destruct Hp as [-> | [-> | ->]], Hq as [-> | [-> | ->]]; cbn in E;
      try discriminate E; now inversion E.
  - intros (digits & -> & Hl & Hd). exists p, digits. repeat split; assumption.
Qed.

Lemma withoutSeparators_prefix p n :
  p = "+256" \/ p = "0" \/ p = "256" ->
  withoutSeparators (p ++ n) = p ++ withoutSeparators n.
Proof.
  intros Hp. unfold withoutSeparators. rewrite removeAll_app.
  destruct Hp as [-> | [-> | ->]]; reflexivity.
Qed.

Lemma ugPhoneValid_prefix p n :
  p = "+256" \/ p = "0" \/ p = "256" ->
  ugPhoneValid (p ++ n) = true <-> nationalNumber (withoutSeparators n).
Proof.
  intros Hp. rewrite ugPhoneValid_shape, withoutSeparators_prefix by assumption.
  now apply ugandanShape_prefix.
Qed.

(** Property X7.  [ugPhoneValid] depends on the characters left once white
    space and hyphens are removed, and on nothing else: one more
    separator, wherever it stands, changes nothing. *)
Theorem ugPhoneValid_ignores_separators :
  (forall v w, withoutSeparators v = withoutSeparators w -> ugPhoneValid v = ugPhoneValid w) /\
  (forall a c b,
      Str.isWhiteSpace c || Ascii.eqb c "-" = true ->
      ugPhoneValid (a ++ String c b) = ugPhoneValid (a ++ b)).
Proof.
  split.
  - intros v w E. now rewrite !ugPhoneValid_test, E.
  - intros a c b Hc. rewrite !ugPhoneValid_test. f_equal.
    unfold withoutSeparators. rewrite !removeAll_app. cbn [Str.removeAll].
    now rewrite Hc.
Qed.

(** Property X8.  The prefixes +256, 0 and 256 are interchangeable: with
    any of them a phone is valid exactly when the rest, separators
    removed, is the digit 7 followed by 8 digits. *)
Theorem ugPhoneValid_prefixes (n : string) :
  ugPhoneValid ("+256" ++ n) = ugPhoneValid ("0" ++ n) /\
  ugPhoneValid ("256" ++ n) = ugPhoneValid ("0" ++ n) /\
  (ugPhoneValid ("0" ++ n) = true <-> nationalNumber (withoutSeparators n)).
Proof.
  assert (H0 := @ugPhoneValid_prefix "0" n ltac:(auto)).
  assert (H1 := @ugPhoneValid_prefix "+256" n ltac:(auto)).
  assert (H2 := @ugPhoneValid_prefix "256" n ltac:(auto)).
  repeat split; try apply H0.
  - apply eq_true_iff_eq. tauto.
  - apply eq_true_iff_eq. tauto.
Qed.

(* ================================================================== *)
(** * Submission *)
(* ================================================================== *)

Lemma existsb_negb A (f : A -> bool) l :
  existsb (fun x => negb (f x)) l = negb (forallb f l).
Proof.
  induction l as [| x l IH]; cbn; [reflexivity |].
  rewrite IH. now destruct (f x).
Qed.

(** What a submit does: the first check that fails is reported;
    when none fails the snapshot is kept and sent. *)
Lemma onSubmit_run ts s :
  exec (onSubmit ts) s
  = if negb (forallb (fun id => truthy (Str.trim (value s id))) required) then
      set_notifications
        (notifications s ++ ["Please complete all required fields including landmarks"]) s
    else if negb (ugPhoneValid (value s "senderPhone")) then
      set_notifications
        (notifications s ++
         ["Sender phone must be a valid Ugandan number (e.g. +2567...)"]) s
    else if negb (ugPhoneValid (value s "recipientPhone")) then
      set_notifications
        (notifications s ++
         ["Recipient phone must be a valid Ugandan number (e.g. +2567...)"]) s
    else if negb (checked s "termsAgreement") then
      set_notifications
        (notifications s ++
         ["Please agree to the terms of service and privacy policy"]) s
    else
      set_tasks (tasks s ++ [FormSubmit (snapshotOf ts s)])
        (set_currentFormData (Some (snapshotOf ts s)) s).
Proof.
  unfold onSubmit, exec. cbn [bind get]. rewrite existsb_negb.
  destruct (forallb _ required); cbn [negb]; [| reflexivity].
  destruct (ugPhoneValid (value s "senderPhone")); cbn [negb]; [| reflexivity].
  destruct (ugPhoneValid (value s "recipientPhone")); cbn [negb]; [| reflexivity].
  destruct (checked s "termsAgreement"); cbn [negb]; reflexivity.
Qed.

Lemma onSubmit_accepts ts s :
  submittable s = true ->
  exec (onSubmit ts) s
  = set_tasks (tasks s ++ [FormSubmit (snapshotOf ts s)])
      (set_currentFormData (Some (snapshotOf ts s)) s).
Proof.
  intros H. unfold submittable in H.
  apply andb_true_iff in H as [H H4]. apply andb_true_iff in H as [H H3].
  apply andb_true_iff in H as [H1 H2].
  rewrite onSubmit_run, H1, H2, H3, H4. reflexivity.
Qed.

(** The checks read the required fields and the terms box, and nothing
    else. *)
Lemma submittable_ext s s' :
  (forall id, In id required -> value s' id = value s id) ->
  checked s' "termsAgreement" = checked s "termsAgreement" ->
  submittable s' = submittable s.
Proof.
  intros Hv Hc. unfold submittable. rewrite Hc.
  assert (Hf : forallb (fun id => truthy (Str.trim (value s' id))) required
               = forallb (fun id => truthy (Str.trim (value s id))) required).
  { revert Hv. generalize required. intros l Hv.
    induction l as [| id l IH]; cbn [forallb]; [reflexivity |].
    rewrite (Hv id) by (cbn; auto). rewrite IH; [reflexivity |].
    intros id' Hid. apply Hv. cbn. auto. }
  rewrite Hf, (Hv "senderPhone"), (Hv "recipientPhone") by (cbn; tauto).
  reflexivity.
Qed.

(** Property X9.  A submission is sent exactly when every required field
    is non-blank, both phones are valid Ugandan numbers and the terms
    are agreed to; the snapshot is then kept and sent.  Otherwise the page
    changes by one notification only: the snapshot of an earlier
    submission stays and nothing is sent.  The outcome depends on the
    required fields and the terms box only: neither a location nor a
    route is asked for. *)
Theorem onSubmit_outcome (ts : string) (s : State) :
  (if submittable s
   then exec (onSubmit ts) s
        = set_tasks (tasks s ++ [FormSubmit (snapshotOf ts s)])
            (set_currentFormData (Some (snapshotOf ts s)) s)
   else exists msg,
       exec (onSubmit ts) s = set_notifications (notifications s ++ [msg]) s) /\
  (* the outcome depends on the required fields and the terms box only *)
  (forall s',
      (forall id, In id required -> value s' id = value s id) ->
      checked s' "termsAgreement" = checked s "termsAgreement" ->
      submittable s' = submittable s).
Proof.
  split; [| apply submittable_ext].
  rewrite onSubmit_run. unfold submittable.
  destruct (forallb _ required); cbn [negb andb]; [| eexists; reflexivity].
  destruct (ugPhoneValid (value s "senderPhone")); cbn [negb andb]; [| eexists; reflexivity].
  destruct (ugPhoneValid (value s "recipientPhone")); cbn [negb andb]; [| eexists; reflexivity].
  destruct (checked s "termsAgreement"); cbn [negb]; [| eexists; reflexivity].
  reflexivity.
Qed.

(** Property X10.  Whatever the form target answers (ok, an error status,
    or nothing because the fetch rejects) the submit handler hides the
    form and shows the success message: the page after a failed
    submission is the page after a successful one. *)
Theorem onSubmit_await_shows_success (response : option bool) (s : State) :
  onSubmit_await response s
  = (Some tt,
     set_display (upd "successMessage" "block" (upd "deliveryForm" "none" (display s))) s) /\
  display (exec (onSubmit_await response) s) "deliveryForm" = "none" /\
  display (exec (onSubmit_await response) s) "successMessage" = "block" /\
  exec (onSubmit_await response) s = exec (onSubmit_await (Some true)) s /\
  onSubmit_await response s = onSubmit_response response s.
Proof.
  destruct s as [pm dm pk dk rl cf v tc d ch n t].
  destruct response as [[|] |]; cbn; repeat split; reflexivity.
Qed.

(* ================================================================== *)
(** * Storing and clearing, as state updates *)
(* ================================================================== *)

(** With the marker and the map of the role in place, this is the state
    [updateLocation] leaves. *)
Lemma updateLocation_exec p type s :
  markerOf type s <> None -> mapOf type s <> None ->
  exists d,
    updateLocation p type s
    = (Some tt,
       set_display d
         (set_tasks
            (tasks s ++ [ReverseLookup type (Str.toFixed 6 (L.lat p)) (Str.toFixed 6 (L.lng p))])
            (set_value
               (upd (roleName type ++ "CoordsHidden") (rendered p)
                  (upd (roleName type ++ "LinkHidden") (mapLinkOf p)
                     (upd (roleName type ++ "Link") (mapLinkOf p)
                        (upd (roleName type ++ "Lng") (Str.toFixed 6 (L.lng p))
                           (upd (roleName type ++ "Lat") (Str.toFixed 6 (L.lat p))
                              (value s))))))
               (set_markerOf type (Some p) s)))).
Proof.
  intros Hm Hp. unfold updateLocation, rendered, mapLinkOf.
  set (lat := Str.toFixed 6 (L.lat p)). set (lng := Str.toFixed 6 (L.lng p)).
  cbv zeta.
  set (link := "https://www.openstreetmap.org/?mlat=" ++ _).
  destruct s as [pm dm pk dk rl cf v tc d ch n t].
  destruct type; cbn in Hm, Hp.
  - destruct pk; [| contradiction]. destruct pm; [| contradiction].
    cbn [bind setLatLng get prop markerOf pickupMarker ret modify set_markerOf
         set_pickupMarker setValue useMap mapOf pickupMap spawn
         deliveryMap deliveryMarker routeLayer currentFormData value textContent
         display checked notifications tasks set_value set_tasks].
    match goal with
    | |- context [checkRouteAvailability ?st] =>
        destruct (checkRouteAvailability_run st) as [d' ->]
    end.
    exists d'. reflexivity.
  - destruct dk; [| contradiction]. destruct dm; [| contradiction].
    cbn [bind setLatLng get prop markerOf deliveryMarker ret modify set_markerOf
         set_deliveryMarker setValue useMap mapOf deliveryMap spawn
         pickupMap pickupMarker routeLayer currentFormData value textContent
         display checked notifications tasks set_value set_tasks].
    match goal with
    | |- context [checkRouteAvailability ?st] =>
        destruct (checkRouteAvailability_run st) as [d' ->]
    end.
    exists d'. reflexivity.
Qed.

(** With the marker and the map of the role in place, this is the state
    [clearLocation] leaves. *)
Lemma clearLocation_exec type s :
  markerOf type s <> None -> mapOf type s <> None ->
  exists d,
    clearLocation type s
    = (Some tt,
       set_display d
         (set_value
            (upd (roleName type ++ "CoordsHidden") "Not set"
               (upd (roleName type ++ "Link") ""
                  (upd (roleName type ++ "Lng") ""
                     (upd (roleName type ++ "Lat") "" (value s)))))
            (set_markerOf type (Some defaultCenter) s))).
Proof.
  intros Hm Hp. unfold clearLocation.
  destruct s as [pm dm pk dk rl cf v tc d ch n t].
  destruct type; cbn in Hm, Hp.
  - destruct pk; [| contradiction]. destruct pm; [| contradiction].
    cbn [bind setLatLng get prop markerOf pickupMarker ret modify set_markerOf
         set_pickupMarker setValue useMap mapOf pickupMap showMapFeedback
         deliveryMap deliveryMarker routeLayer currentFormData value textContent
         display checked notifications tasks set_value].
    match goal with
    | |- context [checkRouteAvailability ?st] =>
        destruct (checkRouteAvailability_run st) as [d' ->]
    end.
    exists d'. reflexivity.
  - destruct dk; [| contradiction]. destruct dm; [| contradiction].
    cbn [bind setLatLng get prop markerOf deliveryMarker ret modify set_markerOf
         set_deliveryMarker setValue useMap mapOf deliveryMap showMapFeedback
         pickupMap pickupMarker routeLayer currentFormData value textContent
         display checked notifications tasks set_value].
    match goal with
    | |- context [checkRouteAvailability ?st] =>
        destruct (checkRouteAvailability_run st) as [d' ->]
    end.
    exists d'. reflexivity.
Qed.


(* ================================================================== *)
(** * Clearing a location *)
(* ================================================================== *)


(* ================================================================== *)
(** * The second invariant *)
(* ================================================================== *)

Lemma same_roleSafe type s s' : same s s' -> roleSafe type s -> roleSafe type s'.
Proof.
  intros (K1 & K2 & K3 & K4 & K5 & K6 & _). unfold roleSafe, hiddenId.
  destruct type; cbn [roleName markerOf];
    change ("pickup" ++ "CoordsHidden") with "pickupCoordsHidden";
    change ("delivery" ++ "CoordsHidden") with "deliveryCoordsHidden".
  - rewrite K3, K5. auto.
  - rewrite K4, K6. auto.
Qed.

Lemma same_restSafe s s' : same s s' -> restSafe s -> restSafe s'.
Proof.
  intros (K1 & K2 & _ & _ & _ & _ & K7 & K8 & K9) (Ht & Hl & Hf).
  unfold restSafe. rewrite K1, K2. split; [| split].
  - intros req Hin. apply Ht, K7, Hin.
  - intros H. destruct (K8 H) as [H' | H']; [now apply Hl | exact H'].
  - intros data H. destruct (K9 _ H) as [H' | H']; [now apply Hf | exact H'].
Qed.

Lemma same_Safe s s' : same s s' -> Safe s -> Safe s'.
Proof.
  intros K (Hp & Hd & Hr). split; [| split].
  - now apply (@same_roleSafe pickup _ _ K).
  - now apply (@same_roleSafe delivery _ _ K).
  - now apply (same_restSafe K).
Qed.

Lemma same_set_tasks s rest x : pick x (tasks s) rest -> same s (set_tasks rest s).
Proof.
  intros Hp. unfold same. cbn. repeat split; auto.
  intros req. now apply pick_In with (x := x).
Qed.

Lemma same_set_notifications n s : same s (set_notifications n s).
Proof. same_tac. Qed.

Lemma same_showNotification s msg : same s (exec (showNotification msg) s).
Proof. same_tac. Qed.

Lemma same_updateLocation_then type addr s : same s (exec (updateLocation_then type addr) s).
Proof.
  unfold updateLocation_then, exec.
  destruct (_ && _); [| same_tac].
  destruct type; cbn [bind getValue];
    match goal with |- context [if ?c then _ else _] => destruct c end; same_tac.
Qed.

Lemma same_getCurrentLocation g type s : same s (exec (getCurrentLocation g type) s).
Proof. unfold getCurrentLocation, exec. destruct g; same_tac. Qed.

Lemma routeOnly_same s s' :
  routeOnly s s' ->
  (routeLayer s' <> None ->
   routeLayer s <> None \/ (pickupMap s <> None /\ deliveryMap s <> None)) ->
  same s s'.
Proof.
  intros (K1 & K2 & K3 & K4 & K5 & K6 & _ & _ & K9) Hl. unfold same.
  rewrite K1, K2, K3, K4, K5, K6, K9. repeat split; auto.
Qed.

Lemma same_clearRoute s : same s (exec clearRoute s).
Proof.
  apply routeOnly_same; [apply clearRoute_routeOnly |].
  destruct s as [pm dm pk dk rl cf v tc d ch n t]. cbn [routeLayer].
  destruct rl as [l |]; [left; discriminate |].
  intros H. exfalso. apply H. reflexivity.
Qed.

Lemma same_onSubmit_response ok s : same s (exec (onSubmit_response ok) s).
Proof. same_tac. Qed.

Lemma same_setValue id v s : ~ In id hiddenIds -> same s (exec (setValue id v) s).
Proof.
  intros Hid. unfold same, exec. cbn. unfold upd.
  repeat split; auto.
  - destruct (String.eqb_spec "pickupCoordsHidden" id); [| reflexivity].
    subst id. exfalso. apply Hid. cbn. tauto.
  - destruct (String.eqb_spec "deliveryCoordsHidden" id); [| reflexivity].
    subst id. exfalso. apply Hid. cbn. tauto.
Qed.

Lemma same_set_checked c s : same s (set_checked c s).
Proof. same_tac. Qed.

(** A snapshot the submit handler takes is a validated one. *)
Lemma onSubmit_validated ts s data :
  currentFormData (exec (onSubmit ts) s) = Some data ->
  currentFormData s = Some data \/ validated data.
Proof.
  unfold onSubmit, exec. cbn [bind get]. rewrite existsb_negb.
  destruct (forallb _ required) eqn:Hreq; cbn [negb]; [| cbn; auto].
  destruct (ugPhoneValid (value s "senderPhone")) eqn:Hs; cbn [negb]; [| cbn; auto].
  destruct (ugPhoneValid (value s "recipientPhone")) eqn:Hr; cbn [negb]; [| cbn; auto].
  destruct (checked s "termsAgreement"); cbn [negb]; [| cbn; auto].
  cbn. intros E. injection E as <-. right. unfold validated. split; [| split].
  - exists (value s "senderPhone"). split; [reflexivity | exact Hs].
  - exists (value s "recipientPhone"). split; [reflexivity | exact Hr].
  - intros id Hid. exists (value s id). split.
    + cbn in Hid. repeat (destruct Hid as [<- | Hid]; [reflexivity |]). contradiction.
    + rewrite forallb_forall in Hreq. now apply Hreq.
Qed.

Lemma same_onSubmit ts s : same s (exec (onSubmit ts) s).
Proof.
  pose proof (onSubmit_validated ts s) as Hv. revert Hv.
  unfold onSubmit, exec. cbn [bind get].
  repeat match goal with |- context [if ?c then _ else _] => destruct c end;
    intros Hv; unfold same; cbn; repeat split; auto;
    intros req Hin; apply in_app_or in Hin as [Hin | [Hin | []]];
    [exact Hin | discriminate Hin].
Qed.

(** A route layer appears only with both maps in place. *)
Lemma calculateRoute_response_layer tls req response s :
  routeLayer (exec (calculateRoute_response tls req response) s) <> None ->
  routeLayer s <> None \/ (pickupMap s <> None /\ deliveryMap s <> None).
Proof.
  destruct s as [pm dm pk dk rl cf v tc d ch n t]. cbn [routeLayer pickupMap deliveryMap].
  destruct rl as [l |]; [left; discriminate |].
  destruct pm, dm; try (right; split; discriminate);
    intros H; exfalso; apply H; clear H;
    unfold exec, calculateRoute_response, tryCatch, calculateRoute_try, calculateRoute_catch;
    destruct response as [| [|] [data |]]; cbn; try reflexivity;
    destruct (drawable data); reflexivity.
Qed.

Lemma same_calculateRoute_response tls req response s :
  same s (exec (calculateRoute_response tls req response) s).
Proof.
  apply routeOnly_same;
    [apply calculateRoute_response_routeOnly | apply calculateRoute_response_layer].
Qed.

Lemma Safe_role type s : Safe s -> roleSafe type s.
Proof. intros (Hp & Hd & _). now destruct type. Qed.

Lemma Safe_intro s : (forall type, roleSafe type s) -> restSafe s -> Safe s.
Proof. intros H Hr. split; [apply H | split; [apply H | exact Hr]]. Qed.

(** Without a marker a role holds no point. *)
Lemma roleSafe_no_marker type s : Inv s -> markerOf type s = None -> roleSafe type s.
Proof.
  intros HI Hm. split.
  - intros p Hp. congruence.
  - intros Hpres. destruct (Inv_role type HI) as [_ H]. now destruct (H Hpres).
Qed.

Lemma storedPoint_rendered la lo :
  storedPoint (rendered (L.latLng (Num la) (Num lo)))
  = L.latLng (Num (round6 la)) (Num (round6 lo)).
Proof. unfold storedPoint. now rewrite parseCoords_rendered. Qed.

Lemma contains_round6 la lo :
  L.contains UGANDA_BOUNDS (L.latLng (Num la) (Num lo)) = true ->
  L.contains UGANDA_BOUNDS (L.latLng (Num (round6 la)) (Num (round6 lo))) = true.
Proof. rewrite !contains_UGANDA_Num. apply round6_UGANDA. Qed.

Lemma updateLocation_Safe p type s :
  Inv s -> roleSafe (other type) s -> restSafe s ->
  L.contains UGANDA_BOUNDS p = true ->
  Safe (exec (updateLocation p type) s).
Proof.
  intros HI Ho Hr Hc.
  destruct (markerOf type s) as [mk |] eqn:Hmk.
  2: { unfold exec. rewrite updateLocation_no_marker by assumption. cbn [snd].
       apply Safe_intro; [| assumption].
       intros r. assert (Hcase : r = type \/ r = other type) by (destruct r, type; auto).
       destruct Hcase as [-> | ->]; [now apply roleSafe_no_marker | assumption]. }
  assert (Hm : markerOf type s <> None) by congruence.
  assert (Hp : mapOf type s <> None) by now apply (Inv_role type HI).
  destruct (contains_true_Num _ _ Hc) as (la & lo & ->).
  unfold exec. destruct (updateLocation_exec (L.latLng (Num la) (Num lo)) type s Hm Hp) as [d ->].
  cbn [snd].
  destruct Hr as (Ht & Hl & Hf). destruct Ho as [Ho1 Ho2].
  destruct s as [pm dm pk dk rl cf v tc d0 ch n t].
  unfold hiddenId in *.
  destruct type; cbn [other roleName markerOf] in *;
    change ("pickup" ++ "CoordsHidden") with "pickupCoordsHidden" in *;
    change ("delivery" ++ "CoordsHidden") with "deliveryCoordsHidden" in *;
    cbn in Ho1, Ho2, Ht, Hl, Hf.
  - apply Safe_intro.
    + intros []; unfold roleSafe, hiddenId; cbn; split.
      * intros q E. injection E as <-. exact Hc.
      * intros _. exists la, lo. split; [reflexivity | apply storedPoint_rendered].
      * exact Ho1.
      * exact Ho2.
    + unfold restSafe. cbn. split; [| split]; try assumption.
      intros req Hin. apply in_app_or in Hin as [Hin | [Hin | []]];
        [now apply Ht | discriminate Hin].
  - apply Safe_intro.
    + intros []; unfold roleSafe, hiddenId; cbn; split.
      * exact Ho1.
      * exact Ho2.
      * intros q E. injection E as <-. exact Hc.
      * intros _. exists la, lo. split; [reflexivity | apply storedPoint_rendered].
    + unfold restSafe. cbn. split; [| split]; try assumption.
      intros req Hin. apply in_app_or in Hin as [Hin | [Hin | []]];
        [now apply Ht | discriminate Hin].
Qed.

Lemma Safe_parts type s : Safe s -> roleSafe (other type) s /\ restSafe s.
Proof. intros (Hp & Hd & Hr). destruct type; auto. Qed.

Lemma onMapClick_Safe p type s : Inv s -> Safe s -> Safe (exec (onMapClick p type) s).
Proof.
  intros HI HS. unfold onMapClick.
  destruct (L.contains UGANDA_BOUNDS p) eqn:Hc; cbn [negb].
  - rewrite exec_bind.
    destruct (Safe_parts type HS) as [Ho Hr].
    pose proof (@updateLocation_Safe _ type _ HI Ho Hr Hc) as H.
    unfold exec in H. now destruct (updateLocation p type s) as [[[] |] s1].
  - eapply same_Safe; [apply same_showNotification | assumption].
Qed.

Lemma onMarkGeocode_Safe p type s : Inv s -> Safe s -> Safe (exec (onMarkGeocode p type) s).
Proof.
  intros HI HS. unfold onMarkGeocode.
  destruct (L.contains UGANDA_BOUNDS p) eqn:Hc; cbn [negb].
  - rewrite exec_bind. unfold useMap. cbn [bind get].
    destruct (mapOf type s); cbn; [| assumption].
    destruct (Safe_parts type HS) as [Ho Hr].
    now apply updateLocation_Safe.
  - eapply same_Safe; [apply same_showNotification | assumption].
Qed.

Lemma getCurrentLocation_success_Safe p type s :
  Inv s -> Safe s -> Safe (exec (getCurrentLocation_success p type) s).
Proof.
  intros HI HS. unfold getCurrentLocation_success. destruct p as [la lo]. cbn [L.lat L.lng].
  destruct (L.contains UGANDA_BOUNDS _) eqn:Hc; cbn [negb].
  - rewrite exec_bind.
    destruct (Safe_parts type HS) as [Ho Hr].
    pose proof (@updateLocation_Safe _ type _ HI Ho Hr Hc) as H.
    unfold exec in H. destruct (updateLocation _ type s) as [[[] |] s1]; [| assumption].
    eapply same_Safe; [apply same_showNotification | assumption].
  - eapply same_Safe; [apply same_showNotification | assumption].
Qed.

(** Where a rejected drag leaves the marker: on the stored point, or on
    Kampala when the role holds none. *)
Lemma onMarkerDragEnd_rejected p type s :
  markerOf type s <> None -> L.contains UGANDA_BOUNDS p = false ->
  exec (onMarkerDragEnd type) (set_markerOf type (Some p) s)
  = set_notifications
      (notifications s ++ ["Marker outside Uganda — resetting to last valid position."])
      (set_markerOf type
         (Some (if present (value s (hiddenId type))
                then storedPoint (value s (hiddenId type))
                else defaultCenter)) s).
Proof.
  intros Hm Hc. destruct s as [pm dm pk dk rl cf v tc d ch n t].
  unfold onMarkerDragEnd, exec, hiddenId, present, storedPoint.
  destruct type; cbn in Hm |- *; rewrite Hc; cbn.
  - destruct (truthy (v "pickupCoordsHidden") && negb (v "pickupCoordsHidden" =? "Not set"));
      reflexivity.
  - destruct (truthy (v "deliveryCoordsHidden") && negb (v "deliveryCoordsHidden" =? "Not set"));
      reflexivity.
Qed.

Lemma roleSafe_other_frame type s s' :
  roleSafe type s ->
  markerOf type s' = markerOf type s ->
  value s' (hiddenId type) = value s (hiddenId type) ->
  roleSafe type s'.
Proof. unfold roleSafe. intros H -> ->. exact H. Qed.

Lemma markerOf_set_other type q s :
  markerOf (other type) (set_markerOf type q s) = markerOf (other type) s.
Proof. now destruct type. Qed.

Lemma markerOf_set_same type q s : markerOf type (set_markerOf type q s) = q.
Proof. now destruct type. Qed.

Lemma value_set_markerOf type q s : value (set_markerOf type q s) = value s.
Proof. now destruct type. Qed.

Lemma restSafe_set_markerOf type q s : restSafe s -> restSafe (set_markerOf type q s).
Proof. now destruct type. Qed.

Lemma onMarkerDragEnd_Safe p type s :
  markerOf type s <> None -> Inv s -> Safe s ->
  Safe (exec (onMarkerDragEnd type) (set_markerOf type (Some p) s)).
Proof.
  intros Hm HI HS.
  destruct (Safe_parts type HS) as [Ho Hr].
  destruct (L.contains UGANDA_BOUNDS p) eqn:Hc.
  - (* accepted *)
    set (s0 := set_markerOf type (Some p) s).
    assert (HI0 : Inv s0)
      by (eapply keeps_Inv; [now apply keeps_set_marker | assumption]).
    assert (Ho0 : roleSafe (other type) s0).
    { apply roleSafe_other_frame with (s := s); [assumption | |].
      - apply markerOf_set_other.
      - unfold s0. now rewrite value_set_markerOf. }
    assert (Hr0 : restSafe s0) by now apply restSafe_set_markerOf.
    unfold onMarkerDragEnd. rewrite exec_bind. cbn [get].
    rewrite exec_bind. unfold s0 at 1. rewrite markerOf_set_same. cbn [prop ret].
    rewrite Hc. cbn [negb]. rewrite exec_bind.
    pose proof (@updateLocation_Safe _ type _ HI0 Ho0 Hr0 Hc) as H.
    unfold exec in H. now destruct (updateLocation p type s0) as [[[] |] s1].
  - (* rejected *)
    rewrite onMarkerDragEnd_rejected by assumption.
    eapply same_Safe; [apply same_set_notifications |].
    pose proof (Safe_role type HS) as [Hs1 Hs2].
    apply Safe_intro; [| now apply restSafe_set_markerOf].
    intros r. assert (Hcase : r = type \/ r = other type) by (destruct r, type; auto).
    destruct Hcase as [-> | ->].
    + unfold roleSafe. rewrite markerOf_set_same, value_set_markerOf.
      destruct (present (value s (hiddenId type))) eqn:Hpres.
      * destruct (Hs2 eq_refl) as (la & lo & Hmk & Hst). rewrite Hst.
        pose proof (contains_round6 _ _ (Hs1 _ Hmk)) as Hin.
        split.
        -- intros q E. injection E as <-. exact Hin.
        -- intros _. exists (round6 la), (round6 lo). now rewrite !round6_idem.
      * split; [| discriminate].
        intros q E. injection E as <-. apply contains_defaultCenter.
    + apply roleSafe_other_frame with (s := s); [assumption | |].
      * apply markerOf_set_other.
      * now rewrite value_set_markerOf.
Qed.

Lemma clearLocation_Safe type s : Safe s -> Safe (exec (clearLocation type) s).
Proof.
  intros HS. unfold exec.
  destruct (mapOf type s) as [m |] eqn:Hmap.
  2: { rewrite clearLocation_guard by auto. exact HS. }
  destruct (markerOf type s) as [mk |] eqn:Hmk.
  2: { rewrite clearLocation_guard by auto. exact HS. }
  destruct (@clearLocation_exec type s) as [d ->]; try congruence.
  cbn [snd]. destruct (Safe_parts type HS) as [[Ho1 Ho2] (Ht & Hl & Hf)].
  clear HS Hmap Hmk.
  destruct s as [pm dm pk dk rl cf v tc d0 ch n t].
  unfold hiddenId in *.
  destruct type; cbn [other roleName markerOf] in *;
    change ("pickup" ++ "CoordsHidden") with "pickupCoordsHidden" in *;
    change ("delivery" ++ "CoordsHidden") with "deliveryCoordsHidden" in *;
    cbn in Ho1, Ho2, Ht, Hl, Hf.
  - apply Safe_intro.
    + intros []; unfold roleSafe, hiddenId; cbn; split.
      * intros q E. injection E as <-. apply contains_defaultCenter.
      * discriminate.
      * exact Ho1.
      * exact Ho2.
    + unfold restSafe. cbn. auto.
  - apply Safe_intro.
    + intros []; unfold roleSafe, hiddenId; cbn; split.
      * exact Ho1.
      * exact Ho2.
      * intros q E. injection E as <-. apply contains_defaultCenter.
      * discriminate.
    + unfold restSafe. cbn. auto.
Qed.

Lemma initMaps_Safe a b s : Inv s -> Safe s -> Safe (exec (initMaps a b) s).
Proof.
  intros HI ((Sp1 & Sp2) & (Sd1 & Sd2) & (Ht & Hl & Hf)).
  pose proof (@Inv_no_map pickup s HI) as Fp.
  pose proof (@Inv_no_map delivery s HI) as Fd.
  clear HI.
  destruct s as [pm dm pk dk rl cf v tc d ch n t].
  unfold hiddenId in *. unfold initMaps, exec, tryCatch.
  cbn [roleName markerOf mapOf pickupMap deliveryMap pickupMarker deliveryMarker value] in *.
  change ("pickup" ++ "CoordsHidden") with "pickupCoordsHidden" in *.
  change ("delivery" ++ "CoordsHidden") with "deliveryCoordsHidden" in *.
  cbn [routeLayer currentFormData tasks] in Ht, Hl, Hf.
  assert (Hdef := contains_defaultCenter).
  destruct a, b, pm, dm;
    cbn [bind L_map get mapOf pickupMap deliveryMap throw modify set_mapOf set_pickupMap
         set_deliveryMap set_pickupMarker set_deliveryMarker ret
         pickupMarker deliveryMarker routeLayer currentFormData value textContent
         display checked notifications tasks snd] in *;
    try match goal with
      | |- context [checkRouteAvailability ?st] =>
          destruct (checkRouteAvailability_run st) as [d' ->]
      end;
    cbn [snd];
    try (destruct (Fp eq_refl) as [-> Fp']);
    try (destruct (Fd eq_refl) as [-> Fd']);
    (apply Safe_intro;
     [ intros [];
       unfold roleSafe, hiddenId;
       cbn [roleName markerOf pickupMarker deliveryMarker value set_display
            set_pickupMarker set_pickupMap set_deliveryMarker set_deliveryMap];
       change ("pickup" ++ "CoordsHidden") with "pickupCoordsHidden";
       change ("delivery" ++ "CoordsHidden") with "deliveryCoordsHidden";
       (split;
        [ first [ assumption | intros q E; injection E as <-; exact Hdef ]
        | first [ assumption | intros Hpres; congruence ] ])
     | unfold restSafe;
       cbn [routeLayer currentFormData tasks pickupMap deliveryMap set_display
            set_pickupMarker set_pickupMap set_deliveryMarker set_deliveryMap];
       split; [| split]; try assumption;
       intros H; destruct (Hl H); split; first [ assumption | discriminate ] ]).
Qed.

(** A stored point lies inside the bounds. *)
Lemma roleSafe_stored type s :
  roleSafe type s -> present (value s (hiddenId type)) = true ->
  L.contains UGANDA_BOUNDS (storedPoint (value s (hiddenId type))) = true.
Proof.
  intros [H1 H2] Hpres. destruct (H2 Hpres) as (la & lo & Hmk & ->).
  apply contains_round6. now apply H1.
Qed.

Lemma requestOf_Safe s :
  Safe s ->
  present (value s "pickupCoordsHidden") = true ->
  present (value s "deliveryCoordsHidden") = true ->
  truthy (value s "vehicleType") = true ->
  requestSafe (requestOf s).
Proof.
  intros (Hp & Hd & _) Pp Pd Hv.
  pose proof (@roleSafe_stored pickup s Hp Pp) as Cp.
  pose proof (@roleSafe_stored delivery s Hd Pd) as Cd.
  unfold requestSafe, requestOf. cbn [pickupLat pickupLng deliveryLat deliveryLng vehicleType profile].
  repeat split; assumption.
Qed.

Lemma calculateRoute_Safe s : Safe s -> Safe (exec calculateRoute s).
Proof.
  intros HS. unfold exec. rewrite calculateRoute_run. cbn [snd].
  destruct (present (value s "pickupCoordsHidden")) eqn:Hp; cbn [andb];
    [| eapply same_Safe; [apply same_set_notifications | assumption]].
  destruct (present (value s "deliveryCoordsHidden")) eqn:Hd;
    [| eapply same_Safe; [apply same_set_notifications | assumption]].
  destruct (truthy (value s "vehicleType")) eqn:Hv;
    [| eapply same_Safe; [apply same_set_notifications | assumption]].
  pose proof (requestOf_Safe HS Hp Hd Hv) as Hreq.
  destruct HS as (Rp & Rd & (Ht & Hl & Hf)).
  split; [exact Rp | split; [exact Rd |]].
  split; [| split]; try assumption.
  intros req Hin. cbn [tasks set_tasks] in Hin.
  apply in_app_or in Hin as [Hin | [Hin | []]]; [now apply Ht |].
  now injection Hin as <-.
Qed.

Lemma initial_Safe s : initial s -> Safe s.
Proof.
  intros (Hpm & Hdm & Hpk & Hdk & Hrl & Hcf & _ & Ht & Hp & Hd).
  unfold Safe, roleSafe, restSafe, hiddenId. cbn [markerOf roleName].
  change ("pickup" ++ "CoordsHidden") with "pickupCoordsHidden".
  change ("delivery" ++ "CoordsHidden") with "deliveryCoordsHidden".
  rewrite Hpk, Hdk, Hp, Hd, Ht, Hrl, Hcf.
  repeat split; try discriminate; try contradiction.
Qed.

Lemma step_Safe tls s s' : step tls s s' -> Inv s -> Safe s -> Safe s'.
Proof.
  intros Hstep HI HS. destruct Hstep.
  - now apply initMaps_Safe.
  - now apply onMapClick_Safe.
  - now apply onMarkerDragEnd_Safe.
  - now apply onMarkGeocode_Safe.
  - eapply same_Safe; [apply same_getCurrentLocation | assumption].
  - apply getCurrentLocation_success_Safe.
    + eapply keeps_Inv; [eapply keeps_set_tasks; eassumption | assumption].
    + eapply same_Safe; [eapply same_set_tasks; eassumption | assumption].
  - eapply same_Safe; [apply same_showNotification |].
    eapply same_Safe; [eapply same_set_tasks; eassumption | assumption].
  - eapply same_Safe; [apply same_updateLocation_then |].
    eapply same_Safe; [eapply same_set_tasks; eassumption | assumption].
  - now apply calculateRoute_Safe.
  - eapply same_Safe; [apply same_calculateRoute_response |].
    eapply same_Safe; [eapply same_set_tasks; eassumption | assumption].
  - eapply same_Safe; [apply same_clearRoute | assumption].
  - now apply clearLocation_Safe.
  - eapply same_Safe; [now apply same_setValue | assumption].
  - eapply same_Safe; [apply same_set_checked | assumption].
  - eapply same_Safe; [apply same_onSubmit | assumption].
  - eapply same_Safe; [apply same_onSubmit_response |].
    eapply same_Safe; [eapply same_set_tasks; eassumption | assumption].
Qed.

(** In every reachable state: a marker rests inside the bounds, a stored
    point is the marker's position rounded to six decimals, a directions
    request in flight joins two points inside the bounds, a route layer
    stands on both maps, and the snapshot went through the checks. *)
Lemma reachable_Safe tls s : reachable tls s -> Safe s.
Proof.
  induction 1 as [s Hinit | s s' Hr IH Hstep]; [now apply initial_Safe |].
  eapply step_Safe; [eassumption | eapply reachable_Inv; eassumption | assumption].
Qed.

(* ================================================================== *)
(** * What holds on every reachable page *)
(* ================================================================== *)

Lemma Safe_isReady s :
  Safe s ->
  isReady s
  = present (value s "pickupCoordsHidden") && present (value s "deliveryCoordsHidden").
Proof.
  intros (Hp & Hd & _). rewrite isReady_eq.
  destruct (present (value s "pickupCoordsHidden")) eqn:Pp; [| reflexivity].
  destruct (present (value s "deliveryCoordsHidden")) eqn:Pd; [| reflexivity].
  pose proof (@roleSafe_stored pickup s Hp Pp) as Cp.
  pose proof (@roleSafe_stored delivery s Hd Pd) as Cd.
  change (hiddenId pickup) with "pickupCoordsHidden" in Cp.
  change (hiddenId delivery) with "deliveryCoordsHidden" in Cd.
  now rewrite Cp, Cd.
Qed.

(** Property X12.  On every page the session can reach, the point a role
    stores, read back from its hidden input, lies inside the Uganda
    bounds; so the bounds test of the availability check never fails
    there, and the route section is offered exactly when both roles hold
    a point. *)
Theorem stored_points_inside_uganda tls s :
  reachable tls s ->
  (forall type,
      present (value s (roleName type ++ "CoordsHidden")) = true ->
      L.contains UGANDA_BOUNDS (storedPoint (value s (roleName type ++ "CoordsHidden"))) = true) /\
  isReady s
  = present (value s "pickupCoordsHidden") && present (value s "deliveryCoordsHidden").
Proof.
  intros Hr. pose proof (reachable_Safe Hr) as HS. split.
  - intros type. apply (@roleSafe_stored type s). now apply Safe_role.
  - now apply Safe_isReady.
Qed.


(** Property X14.  Every directions request in flight on a reachable page
    joins two points inside the Uganda bounds, names a vehicle type that
    is not empty, uses the profile driving-motorcycle exactly for
    'motorcycle' and driving-car otherwise, and finds both maps in
    place. *)
Theorem requests_stay_inside_uganda tls s req :
  reachable tls s -> In (Directions req) (tasks s) ->
  L.contains UGANDA_BOUNDS (L.latLng (pickupLat req) (pickupLng req)) = true /\
  L.contains UGANDA_BOUNDS (L.latLng (deliveryLat req) (deliveryLng req)) = true /\
  truthy (vehicleType req) = true /\
  profile req
  = (if vehicleType req =? "motorcycle" then "driving-motorcycle" else "driving-car") /\
  pickupMap s <> None /\ deliveryMap s <> None.
Proof.
  intros Hr Hin.
  destruct (reachable_Safe Hr) as (_ & _ & Ht & _).
  destruct (reachable_Inv Hr) as (_ & _ & It).
  destruct (Ht req Hin) as (A & B & C & D). destruct (It req Hin) as (E & F & _).
  repeat split; assumption.
Qed.

(** Property X15.  On a reachable page [calculateRoute] sends a directions
    request exactly when both roles hold a point, which is when the
    availability check shows the route section, and a vehicle type is
    selected; otherwise it only shows the notification of the
    precondition that fails, the locations before the vehicle. *)
Theorem calculateRoute_sends_iff_ready tls s :
  reachable tls s ->
  exec calculateRoute s
  = if isReady s then
      if truthy (value s "vehicleType")
      then set_tasks (tasks s ++ [Directions (requestOf s)]) s
      else set_notifications (notifications s ++ ["Please select a vehicle type first"]) s
    else set_notifications
           (notifications s ++
            ["Please set both pickup and delivery locations inside Uganda first"]) s.
Proof.
  intros Hr. unfold exec. rewrite calculateRoute_run. cbn [snd].
  now rewrite (Safe_isReady (reachable_Safe Hr)).
Qed.

(** Property X16.  On a reachable page [clearRoute] resets the route
    only when none is on the maps: it then sets the three route texts to
    '--' and shows 'Route cleared'.  With a route on the maps it raises
    where it removes the layer from the delivery map (both maps are in
    place, and a layer added to two maps comes off the first only): the
    layer stays in [routeLayer], off the pickup map, and the texts and
    the notifications are as they were. *)
Theorem clearRoute_keeps_shown_route tls s :
  reachable tls s ->
  clearRoute s
  = match routeLayer s with
    | Some l => (None, set_routeLayer (Some (halfRemoved (drawn l))) s)
    | None =>
        (Some tt,
         set_notifications (notifications s ++ ["Route cleared"])
           (set_textContent
              (upd "routeCost" "--" (upd "routeDuration" "--"
                 (upd "routeDistance" "--" (textContent s)))) s))
    end.
Proof.
  intros Hr. destruct (reachable_Safe Hr) as (_ & _ & _ & Hl & _).
  pose proof (reachable_layerInv Hr) as HL.
  destruct s as [pm dm pk dk rl cf v tc d ch n t]. cbn in Hl. cbn [routeLayer].
  unfold clearRoute. destruct rl as [l |]; [| reflexivity].
  destruct Hl as [Hp Hd]; [discriminate |].
  destruct pm; [| contradiction]. destruct dm; [| contradiction].
  destruct (HL l eq_refl) as [E | E]; rewrite E; reflexivity.
Qed.





(** Property X18.  On every reachable page the snapshot kept in
    [currentFormData], from which the WhatsApp message is built, went
    through the checks: it holds a valid sender phone, a valid recipient
    phone and a non-blank value for every required field. *)
Theorem snapshot_is_validated tls s data :
  reachable tls s -> currentFormData s = Some data ->
  (exists v, fieldOf "senderPhone" data = Some v /\ ugPhoneValid v = true) /\
  (exists v, fieldOf "recipientPhone" data = Some v /\ ugPhoneValid v = true) /\
  (forall id, In id required ->
              exists v, fieldOf id data = Some v /\ truthy (Str.trim v) = true).
Proof.
  intros Hr Hd. destruct (reachable_Safe Hr) as (_ & _ & _ & _ & Hf).
  exact (Hf data Hd).
Qed.

(** Property X1.  On a reachable page the straight-line distance of a
    request in flight is a number between 0 and 1275 kilometers: its two
    points lie inside the Uganda bounds, where the haversine term under
    the square roots is at most 0.009, far from the value 1 at which the
    second square root would fail. *)
Theorem fallback_distance_inside_uganda tls s req :
  reachable tls s -> In (Directions req) (tasks s) ->
  exists la1 lo1 la2 lo2 km : R,
    pickupLat req = Num la1 /\ pickupLng req = Num lo1 /\
    deliveryLat req = Num la2 /\ deliveryLng req = Num lo2 /\
    (hav la1 lo1 la2 lo2 <= 0.009)%R /\
    calculateDistance (pickupLat req) (pickupLng req) (deliveryLat req) (deliveryLng req)
    = Num km /\
    km = haversineKm la1 lo1 la2 lo2 /\
    (0 <= km <= 1275)%R.
Proof.
  intros Hr Hin.
  destruct (reachable_Safe Hr) as (_ & _ & Ht & _).
  destruct (Ht req Hin) as (Cp & Cd & _).
  destruct (contains_true_Num _ _ Cp) as (la1 & lo1 & Ep).
  destruct (contains_true_Num _ _ Cd) as (la2 & lo2 & Ed).
  injection Ep as Ea Eb. injection Ed as Ec Ee.
  rewrite Ea, Eb in Cp. rewrite Ec, Ee in Cd.
  apply contains_UGANDA_Num in Cp as [P1 P2]. apply contains_UGANDA_Num in Cd as [D1 D2].
  exists la1, lo1, la2, lo2, (haversineKm la1 lo1 la2 lo2).
  rewrite Ea, Eb, Ec, Ee.
  repeat split; try reflexivity.
  - now apply hav_inside_uganda.
  - apply calculateDistance_Num.
  - now apply haversineKm_inside_uganda.
  - now apply haversineKm_inside_uganda.
Qed.

(* ================================================================== *)
(** * The route section *)
(* ================================================================== *)

Lemma isReady_set_display d s : isReady (set_display d s) = isReady s.
Proof. rewrite !isReady_eq. reflexivity. Qed.

(** What the availability check leaves in the route section. *)
Lemma checkRouteAvailability_exec s :
  checkRouteAvailability s
  = (Some tt,
     set_display (upd "routeSection" (if isReady s then "block" else "none") (display s)) s).
Proof.
  rewrite isReady_eq.
  unfold checkRouteAvailability, present, storedPoint. cbn [bind getValue].
  set (pc := value s "pickupCoordsHidden"). set (dc := value s "deliveryCoordsHidden").
  destruct (truthy pc), (negb (pc =? "Not set")), (truthy dc), (negb (dc =? "Not set"));
    cbn [andb]; try reflexivity.
  destruct (L.contains UGANDA_BOUNDS _), (L.contains UGANDA_BOUNDS _); reflexivity.
Qed.

Lemma check_display st :
  display (exec checkRouteAvailability st) "routeSection"
  = if isReady (exec checkRouteAvailability st) then "block" else "none".
Proof.
  unfold exec. rewrite checkRouteAvailability_exec. cbn [snd].
  rewrite isReady_set_display. cbn. reflexivity.
Qed.

Lemma updateLocation_ends_with_check p type s :
  markerOf type s <> None -> mapOf type s <> None ->
  exists st, exec (updateLocation p type) s = exec checkRouteAvailability st.
Proof.
  intros Hm Hp. unfold updateLocation, exec.
  destruct s as [pm dm pk dk rl cf v tc d ch n t].
  destruct type; cbn in Hm, Hp.
  - destruct pk; [| contradiction]. destruct pm; [| contradiction].
    cbn [bind setLatLng get prop markerOf pickupMarker ret modify set_markerOf
         set_pickupMarker setValue useMap mapOf pickupMap spawn
         deliveryMap deliveryMarker routeLayer currentFormData value textContent
         display checked notifications tasks set_value set_tasks].
    eexists. reflexivity.
  - destruct dk; [| contradiction]. destruct dm; [| contradiction].
    cbn [bind setLatLng get prop markerOf deliveryMarker ret modify set_markerOf
         set_deliveryMarker setValue useMap mapOf deliveryMap spawn
         pickupMap pickupMarker routeLayer currentFormData value textContent
         display checked notifications tasks set_value set_tasks].
    eexists. reflexivity.
Qed.

Lemma updateLocation_display p type s :
  markerOf type s <> None -> mapOf type s <> None ->
  display (exec (updateLocation p type) s) "routeSection"
  = if isReady (exec (updateLocation p type) s) then "block" else "none".
Proof.
  intros Hm Hp. destruct (updateLocation_ends_with_check p type s Hm Hp) as [st ->].
  apply check_display.
Qed.

(** Property X19.  From a reachable page with both markers in place,
    accepting a point for each role by a click, in either order, leaves
    both hidden inputs with the renderings of the two points and the
    route section displayed. *)
Theorem both_selected_offers_route tls s p q first :
  reachable tls s ->
  markerOf pickup s <> None -> markerOf delivery s <> None ->
  L.contains UGANDA_BOUNDS p = true -> L.contains UGANDA_BOUNDS q = true ->
  let s' := match first with
            | pickup => exec (onMapClick q delivery) (exec (onMapClick p pickup) s)
            | delivery => exec (onMapClick p pickup) (exec (onMapClick q delivery) s)
            end in
  reachable tls s' /\
  value s' "pickupCoordsHidden" = rendered p /\
  value s' "deliveryCoordsHidden" = rendered q /\
  isReady s' = true /\ display s' "routeSection" = "block".
Proof.
  intros Hr Hmp Hmd Hp Hq.
  pose proof (reachable_Inv Hr) as HI.
  assert (Hpm : mapOf pickup s <> None) by now apply (Inv_role pickup HI).
  assert (Hdm : mapOf delivery s <> None) by now apply (Inv_role delivery HI).
  assert (Hmp' := Hmp). assert (Hmd' := Hmd). assert (Hpm' := Hpm). assert (Hdm' := Hdm).
  cbn [mapOf markerOf] in Hmp', Hmd', Hpm', Hdm'.
  destruct first; intros s'; subst s'.
  - (* pickup, then delivery *)
    set (s1 := exec (onMapClick p pickup) s).
    assert (Hr1 : reachable tls s1)
      by (eapply reachable_step; [exact Hr | now apply step_click]).
    assert (E1 : s1 = exec (updateLocation p pickup) s) by now apply onMapClick_accept.
    destruct (updateLocation_run p pickup s Hmp Hpm)
      as (s1' & Hrun1 & Hv1 & _ & _ & _ & _ & _ & Hmo1 & Hpm1 & Hdm1 & _).
    assert (E1' : s1 = s1') by (rewrite E1; unfold exec; now rewrite Hrun1).
    cbn [other markerOf] in Hmo1.
    assert (Hmd1 : markerOf delivery s1 <> None) by (rewrite E1'; cbn; congruence).
    assert (Hdm1' : mapOf delivery s1 <> None) by (rewrite E1'; cbn; congruence).
    set (s2 := exec (onMapClick q delivery) s1).
    assert (Hr2 : reachable tls s2)
      by (eapply reachable_step; [exact Hr1 | now apply step_click]).
    assert (E2 : s2 = exec (updateLocation q delivery) s1) by now apply onMapClick_accept.
    destruct (updateLocation_run q delivery s1 Hmd1 Hdm1')
      as (s2' & Hrun2 & Hv2 & _ & _ & Hvo2 & _).
    assert (E2' : s2 = s2') by (rewrite E2; unfold exec; now rewrite Hrun2).
    unfold hiddenId in Hv1, Hv2, Hvo2. cbn [other roleName] in Hv1, Hv2, Hvo2.
    change ("pickup" ++ "CoordsHidden") with "pickupCoordsHidden" in *.
    change ("delivery" ++ "CoordsHidden") with "deliveryCoordsHidden" in *.
    assert (Vp : value s2 "pickupCoordsHidden" = rendered p)
      by (rewrite E2', Hvo2, E1'; exact Hv1).
    assert (Vd : value s2 "deliveryCoordsHidden" = rendered q) by (rewrite E2'; exact Hv2).
    assert (Hready : isReady s2 = true).
    { rewrite (Safe_isReady (reachable_Safe Hr2)), Vp, Vd, !present_rendered. reflexivity. }
    repeat split; try assumption.
    rewrite E2, updateLocation_display by assumption. rewrite <- E2. now rewrite Hready.
  - (* delivery, then pickup *)
    set (s1 := exec (onMapClick q delivery) s).
    assert (Hr1 : reachable tls s1)
      by (eapply reachable_step; [exact Hr | now apply step_click]).
    assert (E1 : s1 = exec (updateLocation q delivery) s) by now apply onMapClick_accept.
    destruct (updateLocation_run q delivery s Hmd Hdm)
      as (s1' & Hrun1 & Hv1 & _ & _ & _ & _ & _ & Hmo1 & Hpm1 & Hdm1 & _).
    assert (E1' : s1 = s1') by (rewrite E1; unfold exec; now rewrite Hrun1).
    cbn [other markerOf] in Hmo1.
    assert (Hmp1 : markerOf pickup s1 <> None) by (rewrite E1'; cbn; congruence).
    assert (Hpm1' : mapOf pickup s1 <> None) by (rewrite E1'; cbn; congruence).
    set (s2 := exec (onMapClick p pickup) s1).
    assert (Hr2 : reachable tls s2)
      by (eapply reachable_step; [exact Hr1 | now apply step_click]).
    assert (E2 : s2 = exec (updateLocation p pickup) s1) by now apply onMapClick_accept.
    destruct (updateLocation_run p pickup s1 Hmp1 Hpm1')
      as (s2' & Hrun2 & Hv2 & _ & _ & Hvo2 & _).
    assert (E2' : s2 = s2') by (rewrite E2; unfold exec; now rewrite Hrun2).
    unfold hiddenId in Hv1, Hv2, Hvo2. cbn [other roleName] in Hv1, Hv2, Hvo2.
    change ("pickup" ++ "CoordsHidden") with "pickupCoordsHidden" in *.
    change ("delivery" ++ "CoordsHidden") with "deliveryCoordsHidden" in *.
    assert (Vd : value s2 "deliveryCoordsHidden" = rendered q)
      by (rewrite E2', Hvo2, E1'; exact Hv1).
    assert (Vp : value s2 "pickupCoordsHidden" = rendered p) by (rewrite E2'; exact Hv2).
    assert (Hready : isReady s2 = true).
    { rewrite (Safe_isReady (reachable_Safe Hr2)), Vp, Vd, !present_rendered. reflexivity. }
    repeat split; try assumption.
    rewrite E2, updateLocation_display by assumption. rewrite <- E2. now rewrite Hready.
Qed.

(* ================================================================== *)
(** * Opening the map sections *)
(* ================================================================== *)

(** Property X20.  Once the pickup map exists, opening the delivery
    section while the pickup section is still open creates no delivery
    map: the timer of the toggle runs [initMaps], which stops at the
    pickup container, where Leaflet refuses a second map (see [L_map]),
    and the page stays as it is.  With the pickup section closed at that
    moment the delivery map and its marker, at Kampala, are created. *)
Theorem second_map_is_not_created (s : State) :
  pickupMap s <> None -> deliveryMap s = None ->
  display s "deliveryMapContent" = "none" ->
  let s1 := exec (onMapToggle delivery) s in
  (* the click opens the section and sets the timer *)
  result (onMapToggle delivery) s = Some true /\
  display s1 "deliveryMapContent" = "block" /\
  (* with the pickup container laid out, the timer creates no delivery map *)
  (forall deliveryShown,
      onMapToggle_timeout delivery true deliveryShown s1 = (Some tt, s1)) /\
  deliveryMap s1 = None /\
  (* it does when the pickup section is closed at that moment *)
  deliveryMap (exec (onMapToggle_timeout delivery false true) s1) = Some L.TheMap /\
  deliveryMarker (exec (onMapToggle_timeout delivery false true) s1) = Some defaultCenter.
Proof.
  intros Hp Hd Hdisp s1. subst s1.
  destruct s as [pm dm pk dk rl cf v tc d ch n t]. cbn in Hp, Hd, Hdisp.
  destruct pm; [| contradiction]. subst dm.
  unfold onMapToggle, exec, result. cbn [bind get display roleName].
  change ("delivery" ++ "MapContent") with "deliveryMapContent".
  rewrite Hdisp. cbn [String.eqb Ascii.eqb Bool.eqb andb].
  cbn [bind setDisplay modify ret fst snd].
  unfold set_display.
  cbn [pickupMap deliveryMap pickupMarker deliveryMarker routeLayer currentFormData value
       textContent display checked notifications tasks].
  split; [reflexivity |]. split; [reflexivity |]. split; [| split; [reflexivity |]].
  - intros b. reflexivity.
  - unfold onMapToggle_timeout, initMaps, tryCatch.
    cbn [bind get mapOf deliveryMap L_map modify ret set_mapOf set_deliveryMap
         set_deliveryMarker pickupMap pickupMarker deliveryMarker routeLayer
         currentFormData value textContent display checked notifications tasks].
    match goal with
    | |- context [checkRouteAvailability ?st] =>
        destruct (checkRouteAvailability_run st) as [d' ->]
    end.
    cbn. split; reflexivity.
Qed.

(** Property X21.  [initMaps] never raises and may run again: it leaves
    every input, the route texts, the route layer, the notifications, the
    calls in flight and the snapshot as they are; a role that has its map
    and marker keeps both, the marker where it stands; and a map it
    creates comes with its marker at Kampala. *)
Theorem initMaps_again_is_harmless (pickupShown deliveryShown : bool) (s : State) :
  let s' := exec (initMaps pickupShown deliveryShown) s in
  result (initMaps pickupShown deliveryShown) s = Some tt /\
  value s' = value s /\ textContent s' = textContent s /\ routeLayer s' = routeLayer s /\
  notifications s' = notifications s /\ tasks s' = tasks s /\
  currentFormData s' = currentFormData s /\
  (forall type m mk,
      mapOf type s = Some m -> markerOf type s = Some mk ->
      mapOf type s' = Some m /\ markerOf type s' = Some mk) /\
  (forall type, mapOf type s = None -> mapOf type s' <> None ->
                markerOf type s' = Some defaultCenter).
Proof.
  intros s'. subst s'.
  destruct s as [pm dm pk dk rl cf v tc d ch n t].
  unfold initMaps, exec, result, tryCatch.
  destruct pickupShown, deliveryShown, pm, dm;
    cbn [bind L_map get mapOf pickupMap deliveryMap throw modify set_mapOf set_pickupMap
         set_deliveryMap set_pickupMarker set_deliveryMarker ret
         pickupMarker deliveryMarker routeLayer currentFormData value textContent
         display checked notifications tasks snd fst];
    try match goal with
      | |- context [checkRouteAvailability ?st] =>
          destruct (checkRouteAvailability_run st) as [d' ->]
      end;
    cbn [fst snd set_display set_pickupMarker set_deliveryMarker set_pickupMap set_deliveryMap
         value textContent routeLayer notifications tasks currentFormData];
    (do 7 (split; [reflexivity |]); split;
     [ intros [] m1 mk1 E1 E2; cbn in E1, E2 |- *; split; congruence
     | intros [] E1 E2; cbn in E1, E2 |- *; congruence ]).
Qed.

(* ================================================================== *)
(** * The device's position *)
(* ================================================================== *)

(** Property X22.  A device position inside Uganda that arrives while the
    role has no marker (its map was never opened) makes the success
    callback raise at once: nothing is stored and nothing is shown.  With
    the marker and the map in place the callback stores the rendering of
    the position, moves the marker there and shows 'Location found
    successfully!'. *)
Theorem geolocation_needs_the_marker (s : State) (type : LocationRole) (position : L.LatLng) :
  L.contains UGANDA_BOUNDS position = true ->
  match markerOf type s with
  | None =>
      (* the handler raises, with nothing stored and nothing shown *)
      getCurrentLocation_success position type s = (None, s)
  | Some _ =>
      mapOf type s <> None ->
      result (getCurrentLocation_success position type) s = Some tt /\
      value (exec (getCurrentLocation_success position type) s)
            (roleName type ++ "CoordsHidden")
      = rendered position /\
      markerOf type (exec (getCurrentLocation_success position type) s) = Some position /\
      notifications (exec (getCurrentLocation_success position type) s)
      = (notifications s ++ ["Location found successfully!"])%list
  end.
Proof.
  intros Hc. unfold getCurrentLocation_success.
  destruct position as [la lo]. cbn [L.lat L.lng]. rewrite Hc. cbn [negb].
  destruct (markerOf type s) as [mk |] eqn:Hmk.
  - intros Hmap. assert (Hm : markerOf type s <> None) by congruence.
    destruct (updateLocation_run (L.latLng la lo) type s Hm Hmap)
      as (s' & Hrun & Hv & _ & _ & _ & _ & Hmk' & _ & _ & _ & _ & _ & Hn & _).
    unfold result, exec, bind. rewrite Hrun.
    destruct s' as [pm dm pk dk rl cf v tc d ch n t].
    cbn in Hn. subst n. unfold hiddenId in Hv.
    destruct type; cbn in Hv, Hmk' |- *; repeat split; assumption.
  - unfold bind. now rewrite updateLocation_no_marker.
Qed.

(* ================================================================== *)
(** * A route that outlives its points *)
(* ================================================================== *)

Lemma truthy_rendered p : truthy (rendered p) = true.
Proof.
  pose proof (present_rendered p) as H. unfold present in H.
  now apply andb_true_iff in H as [H _].
Qed.

(** Property X23.  Accepting a new point for a role rewrites the inputs of
    the role and leaves the route computed before: the layer and the
    three route texts stay.  A submission that passes the checks
    afterwards carries the new coordinates together with the distance,
    the duration and the cost of the old route. *)
Theorem new_selection_keeps_old_route (s : State) (type : LocationRole) (p : L.LatLng)
    (ts : string) :
  markerOf type s <> None -> mapOf type s <> None ->
  let s1 := exec (updateLocation p type) s in
  routeLayer s1 = routeLayer s /\ textContent s1 = textContent s /\
  value s1 (roleName type ++ "CoordsHidden") = rendered p /\
  (submittable s1 = true ->
   exists data,
     currentFormData (exec (onSubmit ts) s1) = Some data /\
     In (FormSubmit data) (tasks (exec (onSubmit ts) s1)) /\
     fieldOf (roleName type ++ "Coords") data = Some (rendered p) /\
     fieldOf "routeDistance" data = Some (textContent s "routeDistance") /\
     fieldOf "routeDuration" data = Some (textContent s "routeDuration") /\
     fieldOf "routeCost" data = Some (textContent s "routeCost")).
Proof.
  intros Hm Hp s1.
  destruct (updateLocation_exec p type s Hm Hp) as [d Hrun].
  assert (E : s1 = snd (updateLocation p type s)) by reflexivity.
  rewrite Hrun in E. cbn [snd] in E. rewrite E. clear E Hrun s1.
  match goal with |- context [set_display d ?st] => set (s0 := st) end.
  assert (Hrl : routeLayer (set_display d s0) = routeLayer s)
    by (subst s0; destruct type; reflexivity).
  assert (Htc : textContent (set_display d s0) = textContent s)
    by (subst s0; destruct type; reflexivity).
  assert (Hv : value (set_display d s0) (roleName type ++ "CoordsHidden") = rendered p)
    by (subst s0; destruct type; reflexivity).
  split; [exact Hrl |]. split; [exact Htc |]. split; [exact Hv |].
  intros Hsub. rewrite (onSubmit_accepts ts _ Hsub).
  exists (snapshotOf ts (set_display d s0)).
  split; [reflexivity |]. split.
  - cbn [tasks set_tasks]. apply in_or_app. right. left. reflexivity.
  - rewrite <- Htc. unfold fieldOf, snapshotOf. cbn [entries].
    destruct type; cbn [roleName] in Hv |- *;
      change ("pickup" ++ "CoordsHidden") with "pickupCoordsHidden" in Hv;
      change ("delivery" ++ "CoordsHidden") with "deliveryCoordsHidden" in Hv;
      cbn [find fst snd String.eqb Ascii.eqb Bool.eqb andb append option_map];
      rewrite Hv; unfold orElse; rewrite truthy_rendered; repeat split; reflexivity.
Qed.


(* ================================================================== *)
(** * Dragging and clicking *)
(* ================================================================== *)

Lemma updateLocation_after_drag p type s :
  markerOf type s <> None ->
  updateLocation p type (set_markerOf type (Some p) s) = updateLocation p type s.
Proof.
  intros Hm. destruct s as [pm dm pk dk rl cf v tc d ch n t].
  unfold updateLocation.
  destruct type; cbn in Hm.
  - destruct pk; [| contradiction]. reflexivity.
  - destruct dk; [| contradiction]. reflexivity.
Qed.

(** Property X25.  Dropping a marker on a point inside Uganda is a click
    on that point: the handlers end in the same result and the same page
    (the popup text apart, which is not kept), with the rendering of the
    point stored and the marker on it. *)
Theorem accepted_drag_equals_click (s : State) (type : LocationRole) (p : L.LatLng) :
  markerOf type s <> None -> L.contains UGANDA_BOUNDS p = true ->
  onMarkerDragEnd type (set_markerOf type (Some p) s) = onMapClick p type s /\
  (mapOf type s <> None ->
   value (exec (onMarkerDragEnd type) (set_markerOf type (Some p) s))
         (roleName type ++ "CoordsHidden") = rendered p /\
   markerOf type (exec (onMarkerDragEnd type) (set_markerOf type (Some p) s)) = Some p).
Proof.
  intros Hm Hc.
  assert (E : onMarkerDragEnd type (set_markerOf type (Some p) s) = onMapClick p type s).
  { unfold onMarkerDragEnd, onMapClick, bind at 1 2, get. cbv beta iota.
    rewrite markerOf_set_same. unfold prop, ret at 1. cbv beta iota.
    rewrite Hc. cbn [negb]. unfold bind, showMapFeedback.
    now rewrite updateLocation_after_drag by assumption. }
  split; [exact E |]. intros Hmap. unfold exec. rewrite E. fold (exec (onMapClick p type) s).
  rewrite onMapClick_accept by assumption.
  destruct (updateLocation_run p type s Hm Hmap) as (s' & Hrun & Hv & _ & _ & _ & _ & Hmk & _).
  unfold exec. rewrite Hrun. cbn [snd]. split; assumption.
Qed.

(* ================================================================== *)
(** * More instances *)
(* ================================================================== *)

Lemma reachable_page_maps tls : reachable tls page_maps.
Proof. eapply reachable_step; [apply reachable_initial, initial_emptyPage | constructor]. Qed.

Lemma page_awaiting_maps : pickupMap page_awaiting <> None /\ deliveryMap page_awaiting <> None.
Proof. exact page_request_maps. Qed.

Lemma metres_raises m : raises (metres m) = false.
Proof. reflexivity. Qed.

(** A payload of [m] meters gives a primary route of [m / 1000] km. *)
Lemma metres_run tls req m :
  exists r s',
    calculateRoute_try tls req (metres m) page_awaiting = (Some r, s') /\
    calculateRoute_response tls req (metres m) page_awaiting = (Some r, s') /\
    source r = Primary /\ distanceKm r = Num (m / 1000).
Proof.
  destruct page_awaiting_maps as [Hp Hd].
  pose proof (calculateRoute_try_run tls req (metres m) page_awaiting Hp Hd
                page_requested_noRoute) as H.
  rewrite metres_raises in H. destruct H as (r & s' & Hrun & _).
  exists r, s'. split; [exact Hrun |]. split.
  - unfold calculateRoute_response, tryCatch. now rewrite Hrun.
  - destruct (calculateRoute_try_result _ _ _ _ Hrun)
      as (Hs & _ & data & f & fs & ps & seg & segs & E & _ & Hf & Hps & Hsg & Hdist & _).
    split; [exact Hs |].
    injection E as <-. cbn in Hf. injection Hf as <- <-. cbn in Hps.
    injection Hps as <-. cbn in Hsg. injection Hsg as <- <-.
    rewrite Hdist. cbn [distance numeric]. apply div_Num. lra.
Qed.

(** A route of 10.4 km by car costs 3000 + 10 * 4000. *)
Lemma primary_price_whole_km_witness :
  exists r,
    result (calculateRoute_try plainLocale (requestOf page_vehicle) (metres 10400)) page_awaiting
    = Some r /\
    distanceKm r = Num (10400 / 1000) /\
    costEstimate r = Num 43000.
Proof.
  destruct (metres_run plainLocale (requestOf page_vehicle) 10400) as (r & s' & Hrun & _ & _ & Hd).
  exists r.
  assert (Hres : result (calculateRoute_try plainLocale (requestOf page_vehicle) (metres 10400))
                        page_awaiting = Some r)
    by (unfold result; now rewrite Hrun).
  split; [exact Hres |]. split; [exact Hd |].
  destruct (@primary_price_whole_km _ _ _ _ _ _ Hres Hd) as (Hc & _).
  rewrite Hc, page_request_vehicle.
  rewrite (Zfloor_eq 10) by (simpl; lra). reflexivity.
Defined.

(** Routes of 10.4 km and of 20 km by car. *)
Lemma longer_route_not_cheaper_witness :
  exists r1 r2 c1 c2,
    result (calculateRoute_response plainLocale (requestOf page_vehicle) (metres 10400))
           page_awaiting = Some r1 /\
    result (calculateRoute_response plainLocale (requestOf page_vehicle) (metres 20000))
           page_awaiting = Some r2 /\
    source r1 = source r2 /\
    distanceKm r1 = Num (10400 / 1000) /\ distanceKm r2 = Num (20000 / 1000) /\
    costEstimate r1 = Num c1 /\ costEstimate r2 = Num c2 /\ (c1 <= c2)%R.
Proof.
  destruct (metres_run plainLocale (requestOf page_vehicle) 10400)
    as (r1 & s1 & _ & Hrun1 & Hs1 & Hd1).
  destruct (metres_run plainLocale (requestOf page_vehicle) 20000)
    as (r2 & s2 & _ & Hrun2 & Hs2 & Hd2).
  assert (Hres1 : result (calculateRoute_response plainLocale (requestOf page_vehicle)
                            (metres 10400)) page_awaiting = Some r1)
    by (unfold result; now rewrite Hrun1).
  assert (Hres2 : result (calculateRoute_response plainLocale (requestOf page_vehicle)
                            (metres 20000)) page_awaiting = Some r2)
    by (unfold result; now rewrite Hrun2).
  assert (Hs : source r1 = source r2) by congruence.
  assert (Hle : (10400 / 1000 <= 20000 / 1000)%R) by lra.
  destruct (@longer_route_not_cheaper _ _ _ _ _ _ _ _ _ _ _ Hres1 Hres2 eq_refl Hs Hd1 Hd2 Hle)
    as (c1 & c2 & Hc1 & Hc2 & Hc).
  exists r1, r2, c1, c2. repeat split; assumption.
Defined.

(** A route of 10.4 km, by motorcycle and by car. *)
Lemma motorcycle_not_dearer_witness :
  exists r1 r2 c1 c2,
    result (calculateRoute_response plainLocale byMotorcycle (metres 10400)) page_awaiting
    = Some r1 /\
    result (calculateRoute_response plainLocale (requestOf page_vehicle) (metres 10400))
           page_awaiting = Some r2 /\
    costEstimate r1 = Num c1 /\ costEstimate r2 = Num c2 /\ (3000 <= c1 <= c2)%R.
Proof.
  destruct (metres_run plainLocale byMotorcycle 10400) as (r1 & s1 & _ & Hrun1 & Hs1 & Hd1).
  destruct (metres_run plainLocale (requestOf page_vehicle) 10400)
    as (r2 & s2 & _ & Hrun2 & Hs2 & Hd2).
  assert (Hres1 : result (calculateRoute_response plainLocale byMotorcycle (metres 10400))
                         page_awaiting = Some r1)
    by (unfold result; now rewrite Hrun1).
  assert (Hres2 : result (calculateRoute_response plainLocale (requestOf page_vehicle)
                            (metres 10400)) page_awaiting = Some r2)
    by (unfold result; now rewrite Hrun2).
  assert (Hs : source r1 = source r2) by congruence.
  assert (Hpos : (0 <= 10400 / 1000)%R) by lra.
  destruct (@motorcycle_not_dearer _ _ _ _ _ _ _ _ _ _ Hres1 Hres2 eq_refl Hs Hd1 Hd2 Hpos)
    as (c1 & c2 & Hc1 & Hc2 & Hc).
  exists r1, r2, c1, c2. repeat split; try assumption; apply Hc.
Defined.


Lemma page_requested_values :
  value page_requested "pickupCoordsHidden" = rendered defaultCenter /\
  value page_requested "deliveryCoordsHidden" = rendered dropOff.
Proof.
  destruct page_vehicle_facts as (_ & _ & Hvp & Hvd & _).
  rewrite page_requested_eq. cbn [value set_tasks]. split; assumption.
Qed.

(** The sample session after the request. *)
Lemma stored_points_inside_uganda_witness :
  L.contains UGANDA_BOUNDS (storedPoint (value page_requested "pickupCoordsHidden")) = true /\
  isReady page_requested = true.
Proof.
  destruct page_requested_values as [Hvp Hvd].
  destruct (@stored_points_inside_uganda _ _ (reachable_page_requested plainLocale)) as [H1 H2].
  split.
  - apply (H1 pickup). cbn [roleName].
    change ("pickup" ++ "CoordsHidden") with "pickupCoordsHidden".
    rewrite Hvp. apply present_rendered.
  - rewrite H2, Hvp, Hvd, !present_rendered. reflexivity.
Defined.


(** The request of the sample session. *)
Lemma requests_stay_inside_uganda_witness :
  In (Directions (requestOf page_vehicle)) (tasks page_requested) /\
  L.contains UGANDA_BOUNDS
    (L.latLng (pickupLat (requestOf page_vehicle)) (pickupLng (requestOf page_vehicle))) = true /\
  profile (requestOf page_vehicle) = "driving-car".
Proof.
  assert (Hin : In (Directions (requestOf page_vehicle)) (tasks page_requested))
    by exact (pick_In_self pick_page_requested).
  split; [exact Hin |].
  destruct (@requests_stay_inside_uganda _ _ _ (reachable_page_requested plainLocale) Hin)
    as (H1 & _ & _ & H4 & _).
  split; [exact H1 |]. rewrite H4, page_request_vehicle. reflexivity.
Defined.

(** A second request on the sample session. *)
Lemma calculateRoute_sends_iff_ready_witness :
  exec calculateRoute page_requested
  = set_tasks (tasks page_requested ++ [Directions (requestOf page_requested)]) page_requested.
Proof.
  pose proof (@calculateRoute_sends_iff_ready _ _ (reachable_page_requested plainLocale)) as H.
  destruct page_requested_values as [Hvp Hvd].
  assert (Hready : isReady page_requested = true).
  { rewrite (Safe_isReady (reachable_Safe (reachable_page_requested plainLocale))).
    rewrite Hvp, Hvd, !present_rendered. reflexivity. }
  assert (Hv : value page_requested "vehicleType" = "car").
  { destruct page_vehicle_facts as (_ & _ & _ & _ & Hv). rewrite page_requested_eq. exact Hv. }
  rewrite Hready, Hv in H. exact H.
Defined.

(** The route of the sample session cannot be cleared: [clearRoute]
    raises, and the layer and the distance text stay. *)
Lemma clearRoute_keeps_shown_route_witness :
  routeLayer page_routed <> None /\
  result clearRoute page_routed = None /\
  routeLayer (exec clearRoute page_routed) <> None /\
  textContent (exec clearRoute page_routed) = textContent page_routed /\
  notifications (exec clearRoute page_routed) = notifications page_routed.
Proof.
  destruct page_routed_facts as (_ & _ & _ & _ & Hl & _).
  pose proof (@clearRoute_keeps_shown_route _ _ reachable_page_routed) as H.
  rewrite Hl in H. unfold result, exec. rewrite H, Hl. cbn.
  repeat split; discriminate.
Defined.


(** The request of the sample session, from Kampala to (0.35, 32.60). *)
Lemma fallback_distance_inside_uganda_witness :
  In (Directions (requestOf page_vehicle)) (tasks page_requested) /\
  exists km : R,
    calculateDistance (pickupLat (requestOf page_vehicle)) (pickupLng (requestOf page_vehicle))
      (deliveryLat (requestOf page_vehicle)) (deliveryLng (requestOf page_vehicle)) = Num km /\
    (0 <= km <= 1275)%R.
Proof.
  assert (Hin : In (Directions (requestOf page_vehicle)) (tasks page_requested))
    by exact (pick_In_self pick_page_requested).
  split; [exact Hin |].
  destruct (@fallback_distance_inside_uganda _ _ _ (reachable_page_requested plainLocale) Hin)
    as (la1 & lo1 & la2 & lo2 & km & _ & _ & _ & _ & _ & Hd & _ & Hk).
  now exists km.
Defined.


Lemma not_hidden id :
  In id ["senderName"; "senderPhone"; "senderEmail"; "recipientName"; "recipientPhone";
         "packageDescription"; "vehicleType"; "pickupLandmark"; "deliveryLandmark"] ->
  ~ In id hiddenIds.
Proof.
  cbn. intros H H'.
  repeat (destruct H as [<- | H]; [intuition discriminate |]). exact H.
Qed.

Lemma reachable_page_submitted tls : reachable tls page_submitted.
Proof.
  unfold page_submitted. eapply reachable_step; [| apply step_submit].
  unfold page_agreed. eapply reachable_step; [| apply step_check].
  unfold page_filled. cbn [fold_left fst snd].
  repeat (eapply reachable_step; [| apply step_input; apply not_hidden; cbn; tauto]).
  apply reachable_initial, initial_emptyPage.
Qed.

(** The snapshot of the submitted form. *)
Lemma snapshot_is_validated_witness :
  exists data,
    currentFormData page_submitted = Some data /\
    (exists v, fieldOf "senderPhone" data = Some v /\ ugPhoneValid v = true).
Proof.
  assert (H : exists data, currentFormData page_submitted = Some data)
    by (eexists; vm_compute; reflexivity).
  destruct H as [data Hd]. exists data. split; [exact Hd |].
  exact (proj1 (@snapshot_is_validated _ _ _ (reachable_page_submitted plainLocale) Hd)).
Defined.

(** Kampala for the pickup, then the drop-off, on a page with both maps. *)
Lemma both_selected_offers_route_witness :
  display (exec (onMapClick dropOff delivery) (exec (onMapClick defaultCenter pickup) page_maps))
          "routeSection" = "block".
Proof.
  assert (Hp : markerOf pickup page_maps <> None) by (cbn; discriminate).
  assert (Hd : markerOf delivery page_maps <> None) by (cbn; discriminate).
  destruct (@both_selected_offers_route plainLocale page_maps defaultCenter dropOff pickup
              (reachable_page_maps plainLocale) Hp Hd contains_defaultCenter contains_dropOff)
    as (_ & _ & _ & _ & H).
  exact H.
Defined.

(** The delivery section opened beside the pickup section. *)
Lemma second_map_is_not_created_witness :
  pickupMap page_pickupOnly <> None /\ deliveryMap page_pickupOnly = None /\
  deliveryMap (exec (onMapToggle_timeout delivery true true)
                 (exec (onMapToggle delivery) page_pickupOnly)) = None.
Proof.
  assert (Hp : pickupMap page_pickupOnly <> None) by (cbn; discriminate).
  assert (Hd : deliveryMap page_pickupOnly = None) by reflexivity.
  assert (Hs : display page_pickupOnly "deliveryMapContent" = "none") by reflexivity.
  split; [exact Hp |]. split; [exact Hd |].
  destruct (second_map_is_not_created page_pickupOnly Hp Hd Hs) as (_ & _ & H & H' & _).
  unfold exec at 1. rewrite H. exact H'.
Defined.

(** A position at Kampala on a page whose maps were never opened. *)
Lemma geolocation_needs_the_marker_witness :
  getCurrentLocation_success defaultCenter pickup emptyPage = (None, emptyPage).
Proof.
  exact (geolocation_needs_the_marker emptyPage pickup defaultCenter contains_defaultCenter).
Defined.

(** The delivery of the sample session selected again, the route shown. *)
Lemma new_selection_keeps_old_route_witness :
  routeLayer (exec (updateLocation dropOff delivery) page_routed) = routeLayer page_routed /\
  textContent (exec (updateLocation dropOff delivery) page_routed) = textContent page_routed.
Proof.
  assert (Hk : markerOf delivery page_routed <> None /\ mapOf delivery page_routed <> None).
  { pose proof (reachable_Inv reachable_page_routed) as HI.
    destruct page_routed_facts as (_ & _ & _ & Hvd & _).
    destruct (Inv_role delivery HI) as [H1 H2].
    assert (Hm : markerOf delivery page_routed <> None).
    { apply H2. unfold hiddenId. cbn [roleName].
      change ("delivery" ++ "CoordsHidden") with "deliveryCoordsHidden".
      rewrite Hvd. apply present_rendered. }
    split; [exact Hm | now apply H1]. }
  destruct Hk as [Hm Hp].
  destruct (new_selection_keeps_old_route page_routed delivery dropOff "now" Hm Hp)
    as (H1 & H2 & _).
  split; assumption.
Defined.

(** A lookup that answers Kenya. *)
Lemma lookup_not_uganda_only_warns_witness :
  exec (updateLocation_then pickup
          (getAddressFromCoordinates (LookupResponse true (Some "Nairobi") (Some "Kenya"))))
       page_maps
  = set_notifications
      (notifications page_maps ++ ["Selected location is not in Uganda (reverse lookup)."])
      page_maps.
Proof.
  destruct (lookup_not_uganda_only_warns pickup page_maps) as (_ & _ & _ & H & _).
  apply H. reflexivity.
Defined.

(** A typed address and a lookup that answers Kampala Road, Uganda. *)
Lemma autofill_keeps_typed_address_witness :
  value
    (exec (updateLocation_then pickup
             (getAddressFromCoordinates
                (LookupResponse true (Some "Kampala Road") (Some "Uganda"))))
          (exec (setValue "pickupAddress" "Plot 5") emptyPage))
  = value (exec (setValue "pickupAddress" "Plot 5") emptyPage).
Proof.
  destruct (autofill_keeps_typed_address pickup
              (LookupResponse true (Some "Kampala Road") (Some "Uganda"))
              (exec (setValue "pickupAddress" "Plot 5") emptyPage)) as (H & _).
  apply H; [discriminate | reflexivity].
Defined.

(** A space inside a number. *)
Lemma ugPhoneValid_ignores_separators_witness :
  ugPhoneValid ("0712" ++ String " " "345678") = ugPhoneValid ("0712" ++ "345678").
Proof.
  destruct ugPhoneValid_ignores_separators as [_ H].
  apply H. reflexivity.
Defined.

(** The pickup marker dropped on the drop-off point. *)
Lemma accepted_drag_equals_click_witness :
  onMarkerDragEnd pickup (set_markerOf pickup (Some dropOff) page_maps)
  = onMapClick dropOff pickup page_maps.
Proof.
  assert (Hk : markerOf pickup page_maps <> None) by (cbn; discriminate).
  exact (proj1 (@accepted_drag_equals_click page_maps pickup dropOff Hk contains_dropOff)).
Defined.

